(* ===== verification/_CoqProject ===== *)
-Q . S2P
Prelude.v
Header.v
Period.v
Transport.v
Driver.v
Negotiation.v
TmemFifo.v
TmemCtor.v
Reformatter.v
Trace.v
Server.v
Registry.v
Cli.v
Session.v
Main.v
