(* ===== verification/Prelude.v ===== *)
(** * A verification library for xvcSrv (tthrx/xvcSupport)

    xvcSrv serves the Xilinx Virtual Cable protocol over TCP and forwards
    each JTAG shift to a target through a word-oriented transport.  The
    sources are src/xvcSrv/src/xvcSrv.cc (the protocol engine, the
    transport registry and [main]) and src/xvcSrv/src/xvcDrvAxisTmem.cc
    (a transport over a memory-mapped FIFO).  The parts, leaves first:
    - the control-word codec: 32-bit headers (query, shift, error), their
      accessors, the transaction-id counter and the byte order of the
      header in a buffer;
    - the clock-period codec, an 8-bit logarithmic code of the TCK period,
      and the query-reply encoder;
    - the transport interface, the virtual [xfer] of [JtagDriver], one
      word-level round trip;
    - the protocol engine [JtagDriverAxisToJtag]: [xferRel] (retries,
      transaction-id matching, error replies), [query] (negotiation of the
      word size, memory depth and period) and [sendVectors] (the
      reformatting of a TMS/TDI pair into words);
    - the transport registry and the driver selection of [main];
    - the TMEM FIFO transport, one implementation of [xfer];
    - the debug output ([prwrds], [dumpInfo]);
    - [main]: options, driver selection, bring-up, the TCP server.
    [sendVectors] and [query] build a request and hand it to [xferRel],
    which calls the transport's [xfer]; [main] selects a transport
    through the registry, brings it up through its virtual methods and
    serves connections with it.

    ** Files

    - [Prelude] (this file): an exception-state monad [ESM] with its
      notations in [xvc_scope] (a C++ member function that throws keeps
      the members it updated before the throw), machine-width wrap-around
      ([wrap], [u8], [u32]), little-endian bytes ([le_bytes], [le_val]),
      bounded [memcpy] ([slice], [write_at], [None] when it leaves the
      buffer), their lemmas, the hint databases [xvc] (byte bounds) and
      [xvc_rw] (lengths of byte lists) and the tactics [len_lia],
      [bool_cases] and [concrete].
    - [Header], Module [Codec]: the exceptions ([xvc_exn]), the constants
      of xvcSrv.h, [getXid], [getCmd], [getErr], [getLen], [getVrs],
      [getMsg], [mkQuery], [newXid], [mkShift], [wordSize], [memDepth],
      [getw32], [getHdr], [setw32], [setHdr] (xvcSrv.cc lines 75-294); an
      abstract tagged view [view] of a header that the accessors refine.
    - [Period], Module [Period]: [cvtPerNs], [encPerNs], [mkQueryReply]
      (lines 196-258), with [double] arithmetic replaced by the exact
      real-number results computed over integers.
    - [Transport], Module [Jtag]: the base members of [JtagDriver]
      (lines 38-73); the class [Transport] (the virtual [xfer]) and
      [TransportLaws] (its memory contract); [Script], a scripted peer.
    - [Driver], Module [AxisToJtag]: the members of
      [JtagDriverAxisToJtag] as the record [state], the constructor,
      [xferRel] (lines 303-340) and the member invariant [wf].
    - [Negotiation]: [query] and [init] (lines 296-378).
    - [Reformatter]: [sendVectors] (lines 423-485), its byte counts at
      the widths of the source (lines 428-433: [unsigned long]
      [bytesCeil], [unsigned] for the others) and its copy loop over the
      [unsigned] [idx], and the layout [unpack] the peer reads the
      request with.
    - [Trace]: [prwrds] (lines 398-421) as the writes it makes, each
      with its stream, and [dumpInfo] (lines 487-494); the reference
      printer [hex_fixed] and a hex reader [read_hex].
    - [Server], Module [Server]: [SockSd], its destructor and [getSd],
      and the [XvcServer] constructor (lines 501-552) as a log of the
      system calls it makes ([syscall]), their results being section
      variables; a throw in the constructor body runs the destructor of
      the member [sock_] already built.  The connection loop of
      [XvcServer::run] (lines 554-565) with its output: each pass
      constructs an [XvcConn] (the accept, outside the [try]) and runs
      it, the outcomes of both being section variables.
    - [TmemFifo]: [JtagDriverTmemFifo::xfer], [reset] and [maxVec_]
      over a FIFO device whose firmware is a function from request frame
      to reply, and the [Transport] and [TransportLaws] instances.
    - [TmemCtor]: the constructor of [JtagDriverTmemFifo]
      (xvcDrvAxisTmem.cc lines 29-85), with the register constants of
      xvcDrvAxisTmem.h (outside the sources), the tosca library calls
      and the two register values it reads as section variables; the
      IRQ handshake [wait] (lines 113-127) and the driver's [usage].
    - [Registry]: [DriverRegistry] (lines 599-693) as a list of entries,
      its singleton [getP]/[get]/[init] (lines 654-674) over the
      program's globals (the static pointer and the allocated
      registries), the calls that reach them as a step relation
      [reachable], the static registrars of the driver modules, and the
      driver-selection block of [main] (lines 773-803), with [dlopen] a
      section variable.
    - [Cli]: the option loop of [main] (lines 696-768) over what
      [getopt] returns, with [sscanf("%i")] a section variable: the
      options it sets and the output it writes ([parse_writes]: the
      version for [-V], [usage] for [-h] (lines 567-585), the messages
      of an unknown option or an unscannable argument); its composition
      [cli_select] with the driver selection, and the [uint16_t] port
      of [XvcServer].
    - [Session]: the composition.  [JtagDriverTmemFifo::init]
      (xvcDrvAxisTmem.cc lines 141-150: FIFO reset, negotiation, word-size
      check) and the start of the driver in [main] (lines 823-830), over
      the engine of [Driver] and [Negotiation] instantiated with the TMEM
      transport; one shift of [sendVectors] through the engine and the
      TMEM transport.
    - [Main]: [main] (lines 696-839) as the output of the option loop
      followed by [main_go], the rest of [main] (lines 769-839): selection
      and its failure report with [usage] (lines 567-585), the
      missing-driver check, bring-up through the class [JtagDriverOps]
      of the driver's virtual methods ([tmem_ops] for the TMEM
      transport), [dumpInfo] with [-v], the server and its loop.

    ** Theorems

    - Codec: [setHdr]/[getHdr] round trip, distinct transaction ids over
      a period of 255, the accessors refine [view], the wrap of a
      zero-length shift.
    - Period codec: the query reply decodes to its word size, depth and a
      period within the quantisation of the 8-bit code; the accepted
      inputs; the reserved code 0 and a word size of 0 are not excluded;
      the decoder is monotone in the code (for reference frequencies of
      at least 10 kHz).
    - [xferRel]: only error-free replies with the request's id are
      returned; exactly [retry_ + 1] attempts against a silent peer;
      stale replies are discarded; error replies are not retried.
    - [query]: the negotiated members, the invariant [wf], and the member
      left broken by an invalid word size.
    - [sendVectors]: the request the peer reads back is the pair of
      vectors; the TDO bytes returned are the matching reply's payload,
      cut to the vector's length; the counts are [unsigned], so a shift
      of [bits] bits is one of [bits mod 2^35] bits; no length check.
    - TMEM [xfer]: its functional specification, its memory contract
      (so the engine's theorems apply to it), the wrap on an empty
      request, the byte order on a big-endian host, [maxVec_].
    - TMEM constructor: success means the magic word and version were
      found, and leaves [wf], word size 4, [maxVec_] of the CSR and an
      empty FIFO (the preconditions of the [init] theorem); unknown
      options are rejected before the device is probed.
    - Registry: [find] refines "the entry registered last under the
      name", shadowing, [create]'s target check, the selection after
      [dlopen]; [getP] is a singleton in every reachable state (rule
      induction on [reachable]), and [main]'s [init] returns the
      registry the static registrars filled.
    - Server: the constructor leaks no descriptor: its system calls
      are a prefix of socket/setsockopt/bind/listen, followed by a close
      exactly when it throws after the socket was opened, and the
      descriptors left open are the server's socket or none.  Without
      [-o] the loop never returns while every connection is accepted and
      ends normally or in [SysErr], printing a closing message for each
      [SysErr]; any other exception of [conn.run()] ends the server, and
      so does every exception of the accept, a [SysErr] included.
    - Command line: the last [-D] names the driver, [-V] exits, [-h]
      needs no target, the [-v] count overflows into the sniffer flag,
      the port is reduced modulo [2^16].
    - Session: TMEM [init] against a firmware that answers the query
      negotiates the reply's members or throws on a word size other than
      the FIFO's; a shift over an idle FIFO reaches the firmware as one
      frame carrying the shift's header and both vectors, and the TDO
      bytes returned are the payload of the firmware's reply.
    - [main]: once the driver is created and brought up, [main] serves
      forever without [-o] and returns 0 after one connection with it;
      an exception of the driver's [init] leaves [main] uncaught; an
      unloadable driver ends [main] with status 1 and a usage listing
      the registered drivers; an unknown option ends it with status 1
      after its message, whatever options follow.
    - Debug output: the loops of [prwrds] print the fixed-width hex of
      each vector's value (equivalence with [hex_fixed]); the digits
      read back to the vector's bytes; the separators go to [stderr]
      whatever the stream.

    ** Bounds and fuel

    - [log10_floor] runs on [log2 n + 1] steps of fuel, which bound the
      number of decimal digits of [n].
    - [xferRel_loop] is structural in its attempt count [retry_ + 1].
    - [Server.run_loop] takes fuel for the [do ... while (!once_)]
      loop: [None] means still serving; the liveness theorem holds for
      every amount of fuel, with the output of the passes made.
    - The TMEM discard loop has [got] steps of fuel; its index grows by 4
      from a non-negative start, so the loop ends within them.
    - The period round trip holds for reference frequencies up to 1 GHz
      (beyond, a 1 ns period has a code above 255); monotonicity for
      frequencies from 10 kHz, where the decoded period stays below
      [2^32] and does not wrap.
    - A firmware answers every frame with at least one word: the busy
      wait on [FIFO_CSR_EMPI] exits at its first read.
    - The two loops of [prwrds] get [wsz + 1] passes of fuel; for
      [0 <= nbytes] each runs at most [wsz] times.
    - [sendVectors]: up to [2^33 - 8] bits no count wraps and the
      request has [frame_bytes] bytes; the functional theorems take at
      most [2^20] bits, the range of the header's length field.  The
      copy loop runs [passes] times; when its [unsigned] [idx] would
      wrap, the loop never ends in the source and the model faults.

    ** Not modelled

    - The results of the TCP server's system calls, which are section
      variables of [Server], and [XvcConn] (not in the sources), which
      speaks the XVC protocol on a connection and calls [sendVectors]:
      its constructor and its [run] are outcomes in [Server], and
      [Session] follows one shift.
    - [getopt] itself and the messages it prints; the debug prints
      inside [query], [xferRel], [sendVectors] and the TMEM register
      accessors; the JTAG sniffer [snif_] ([JtagDumpCtx], not in the
      sources).
    - The [udpLoopback] branch of [main] ([JtagDriverUdp],
      [UdpLoopBack] and [udpTestThread]) ends in the status [Loopback]:
      those classes are not in the sources.
    - The destructors [~JtagDriver] and [~JtagDriverTmemFifo] (the
      driver lives until [main] ends) and the static registrar of the
      TMEM driver (xvcDrvAxisTmem.cc line 250), whose registration is the
      initial registry of [Registry].
    - The debug prints of [o32] and [i32], and a firmware that never
      answers (the driver then spins forever).  The IRQ handshake
      [wait] is modelled in [TmemCtor], but the [xfer] model does not
      call it: the reply is in the FIFO at the first poll. *)

(** This file: the shared vocabulary of the development.  The exception
    and state monad that models C++ code which mutates members and may
    throw, machine-width wrap-around, little-endian byte lists, [memcpy]
    into a bounded buffer, the [xvc] hint database and the tactics the
    component files share. *)

From Stdlib Require Import ZArith List Lia.
Import ListNotations.

Declare Scope xvc_scope.
Delimit Scope xvc_scope with xvc.

(** ** Exceptions with persistent state *)

(** A C++ member function that throws keeps every member update it made
    before the [throw]: the state is returned on both outcomes. *)
Inductive outcome (E A : Type) : Type :=
| Ret (a : A)
| Throw (e : E).
Arguments Ret {E A} a.
Arguments Throw {E A} e.

Definition ESM (S E A : Type) : Type := S -> S * outcome E A.

Section Monad.
Context {S E : Type}.

Definition esm_ret {A} (a : A) : ESM S E A := fun s => (s, Ret a).

Definition esm_throw {A} (e : E) : ESM S E A := fun s => (s, Throw e).

Definition esm_bind {A B} (m : ESM S E A) (k : A -> ESM S E B) : ESM S E B :=
  fun s => match m s with
           | (s', Ret a) => k a s'
           | (s', Throw e) => (s', Throw e)
           end.

Definition esm_get : ESM S E S := fun s => (s, Ret s).

Definition esm_put (s' : S) : ESM S E unit := fun _ => (s', Ret tt).

Definition esm_modify (f : S -> S) : ESM S E unit := fun s => (f s, Ret tt).

Lemma esm_bind_ret {A B} (a : A) (k : A -> ESM S E B) s :
  esm_bind (esm_ret a) k s = k a s.
Proof. reflexivity. Qed.

Lemma esm_bind_Ret {A B} (m : ESM S E A) (k : A -> ESM S E B) s s' a :
  m s = (s', Ret a) -> esm_bind m k s = k a s'.
Proof. intros H. unfold esm_bind. now rewrite H. Qed.

Lemma esm_bind_Throw {A B} (m : ESM S E A) (k : A -> ESM S E B) s s' e :
  m s = (s', Throw e) -> esm_bind m k s = (s', Throw e).
Proof. intros H. unfold esm_bind. now rewrite H. Qed.

(** An invariant of the state that every step of a computation keeps. *)
Definition esm_preserves {A} (I : S -> Prop) (m : ESM S E A) : Prop :=
  forall s, I s -> I (fst (m s)).

Lemma esm_preserves_bind {A B} (I : S -> Prop) (m : ESM S E A) (k : A -> ESM S E B) :
  esm_preserves I m -> (forall a, esm_preserves I (k a)) ->
  esm_preserves I (esm_bind m k).
Proof.
  intros Hm Hk s Hs. unfold esm_bind.
  specialize (Hm s Hs). destruct (m s) as [s' [a|e]]; simpl in *; auto.
  now apply Hk.
Qed.
End Monad.

Notation "x <- m ;; k" := (esm_bind m (fun x => k))
  (at level 61, m at next level, right associativity) : xvc_scope.
Notation "m ;; k" := (esm_bind m (fun _ => k))
  (at level 61, right associativity) : xvc_scope.

(** The option monad of [memcpy]: [None] is an out-of-bounds access. *)
Notation "x <-? o ;; k" := (match o with Some x => k | None => None end)
  (at level 61, o at next level, right associativity) : xvc_scope.

(** ** Machine words *)

Local Open Scope Z_scope.

(** Conversion to an unsigned C integer of [w] bits. *)
Definition wrap (w : Z) (z : Z) : Z := z mod 2 ^ w.
Definition u8 : Z -> Z := wrap 8.
Definition u32 : Z -> Z := wrap 32.

Lemma wrap_small w z : 0 <= z < 2 ^ w -> wrap w z = z.
Proof. intros H. unfold wrap. now apply Z.mod_small. Qed.

Lemma wrap_range w z : 0 <= w -> 0 <= wrap w z < 2 ^ w.
Proof. intros H. unfold wrap. apply Z.mod_pos_bound. apply Z.pow_pos_nonneg; lia. Qed.

(** ** Bit fields as arithmetic *)

(** The accessors of the code mask and shift; the lemmas below turn masks
    and shifts into division and remainder, which [lia] decides. *)
Lemma land_ones_mod x k : 0 <= k -> Z.land x (Z.ones k) = x mod 2 ^ k.
Proof. intros Hk. now apply Z.land_ones. Qed.

Lemma shiftr_div x k : 0 <= k -> Z.shiftr x k = x / 2 ^ k.
Proof. intros Hk. now apply Z.shiftr_div_pow2. Qed.

Lemma shiftl_mul x k : 0 <= k -> Z.shiftl x k = x * 2 ^ k.
Proof. intros Hk. now apply Z.shiftl_mul_pow2. Qed.

Lemma lor_add a b : Z.land a b = 0 -> Z.lor a b = a + b.
Proof. intros H. rewrite <- Z.lxor_lor by exact H. symmetry. now apply Z.add_nocarry_lxor. Qed.

(** A mask of [m] ones at bit [k] selects a field. *)
Lemma land_field x m k : 0 <= m -> 0 <= k ->
  Z.land x (Z.shiftl (Z.ones m) k) = (x / 2 ^ k) mod 2 ^ m * 2 ^ k.
Proof.
  intros Hm Hk.
  rewrite <- shiftr_div, <- land_ones_mod, <- shiftl_mul by lia.
  apply Z.bits_inj'. intros i Hi.
  rewrite Z.land_spec, !Z.shiftl_spec by lia.
  destruct (Z.lt_ge_cases (i - k) 0) as [Hn|Hp].
  - rewrite !(Z.testbit_neg_r _ (i - k)) by lia. apply Bool.andb_false_r.
  - rewrite Z.land_spec, Z.shiftr_spec by lia. now replace (i - k + k) with i by lia.
Qed.

(** A value below [2^k] and a multiple of [2^k] share no bit. *)
Lemma land_low_high a b k : 0 <= k -> 0 <= a < 2 ^ k ->
  Z.land a (b * 2 ^ k) = 0.
Proof.
  intros Hk Ha. rewrite <- shiftl_mul by lia.
  apply Z.bits_inj'. intros i Hi. rewrite Z.land_spec, Z.bits_0, Z.shiftl_spec by lia.
  destruct (Z.lt_ge_cases i k) as [Hlt|Hge].
  - rewrite (Z.testbit_neg_r b) by lia. apply Bool.andb_false_r.
  - destruct (Z.eq_dec a 0) as [->|Hnz]; [now rewrite Z.bits_0|].
    rewrite (Z.bits_above_log2 a i); [reflexivity|lia|].
    pose proof (proj1 (Z.log2_lt_pow2 a k ltac:(lia)) (proj2 Ha)); lia.
Qed.

Lemma lor_low_high a b k : 0 <= k -> 0 <= a < 2 ^ k ->
  Z.lor a (b * 2 ^ k) = a + b * 2 ^ k.
Proof. intros. apply lor_add. now apply land_low_high. Qed.

(** A byte of memory: an integer in [0, 256). *)
Definition byte_ok (b : Z) : Prop := 0 <= b < 256.

(** ** Little-endian byte lists *)

(** [le_val l] reads the bytes [l] as a little-endian unsigned integer. *)
Fixpoint le_val (l : list Z) : Z :=
  match l with
  | [] => 0
  | b :: l' => b + 256 * le_val l'
  end.

(** [le_bytes n w] are the [n] low bytes of [w], least significant first. *)
Fixpoint le_bytes (n : nat) (w : Z) : list Z :=
  match n with
  | O => []
  | S n' => (w mod 256) :: le_bytes n' (w / 256)
  end.

Lemma length_le_bytes n w : length (le_bytes n w) = n.
Proof. revert w; induction n; simpl; auto. Qed.

Lemma le_val_le_bytes n w :
  le_val (le_bytes n w) = w mod 2 ^ (8 * Z.of_nat n).
Proof.
  revert w; induction n as [|n IH]; intros w; simpl le_bytes; simpl le_val.
  - now rewrite Z.mod_1_r.
  - rewrite IH.
    replace (8 * Z.of_nat (S n)) with (8 + 8 * Z.of_nat n) by lia.
    rewrite Z.pow_add_r by lia.
    change (2 ^ 8) with 256.
    rewrite Z.rem_mul_r by (try apply Z.pow_pos_nonneg; lia). reflexivity.
Qed.

Lemma le_bytes_ok n w : Forall byte_ok (le_bytes n w).
Proof.
  revert w; induction n; intros w; simpl; constructor; auto.
  unfold byte_ok. apply Z.mod_pos_bound. lia.
Qed.

Lemma le_bytes_add n m w :
  le_bytes (n + m) w = le_bytes n w ++ le_bytes m (w / 2 ^ (8 * Z.of_nat n)).
Proof.
  revert w; induction n as [|n IH]; intros w; cbn [le_bytes app Nat.add].
  - change (8 * Z.of_nat 0) with 0. now rewrite Z.div_1_r.
  - rewrite IH, Z.div_div by lia. do 3 f_equal.
    f_equal. rewrite Nat2Z.inj_succ, Z.mul_succ_r, Z.pow_add_r by lia. ring.
Qed.

(** Bytes read as a number and written back are the same bytes. *)
Lemma le_bytes_le_val l : Forall byte_ok l -> le_bytes (length l) (le_val l) = l.
Proof.
  induction 1 as [|b l Hb Hl IH]; [reflexivity|]. unfold byte_ok in Hb.
  cbn [length le_bytes le_val]. f_equal.
  - rewrite Z.mul_comm, Z.mod_add by lia. apply Z.mod_small. lia.
  - rewrite Z.mul_comm, Z.div_add, Z.div_small by lia. exact IH.
Qed.

Lemma Forall_firstn_Z (P : Z -> Prop) n l : Forall P l -> Forall P (firstn n l).
Proof. revert l; induction n; intros [|x l] H; inversion H; constructor; auto. Qed.

Lemma Forall_skipn_Z (P : Z -> Prop) n l : Forall P l -> Forall P (skipn n l).
Proof. revert l; induction n; intros [|x l] H; inversion H; cbn; auto. Qed.

Lemma firstn_add {A} n m (l : list A) :
  firstn (n + m) l = firstn n l ++ firstn m (skipn n l).
Proof. revert l; induction n as [|n IH]; intros [|x l]; cbn; rewrite ?firstn_nil; f_equal; auto. Qed.

Lemma firstn_S_nth {A} i (l : list A) d :
  (i < length l)%nat -> firstn (S i) l = firstn i l ++ [nth i l d].
Proof.
  revert l; induction i as [|i IH]; intros [|x l] H; cbn in *; try lia; [reflexivity|].
  rewrite IH by lia. reflexivity.
Qed.

Lemma firstn_app_exact {A} n k (a b : list A) :
  length a = n -> firstn (n + k) (a ++ b) = a ++ firstn k b.
Proof. intros <-. rewrite firstn_app, firstn_all2, Nat.add_comm, Nat.add_sub by lia. reflexivity. Qed.

Lemma skipn_app_exact {A} n k (a b : list A) :
  length a = n -> skipn (n + k) (a ++ b) = skipn k b.
Proof. intros <-. rewrite skipn_app, skipn_all2, Nat.add_comm, Nat.add_sub by lia. reflexivity. Qed.

(** A buffer that holds [P] at its start receives a part of the next
    block [S]: the result is the stream [P ++ S ++ T] up to that part,
    then the rest of the buffer. *)
Lemma splice_partial {A} (P S T rx : list A) (n rem : nat) :
  length P = n -> (rem <= length S)%nat -> (n + rem <= length rx)%nat ->
  firstn n (P ++ skipn n rx) ++ firstn rem S ++ skipn (n + length (firstn rem S)) (P ++ skipn n rx) =
  firstn (n + rem) (P ++ S ++ T) ++ skipn (n + rem) rx.
Proof.
  intros HP HS Hrx. rewrite length_firstn, Nat.min_l by exact HS.
  rewrite <- (Nat.add_0_r n) at 1. rewrite firstn_app_exact, firstn_O, app_nil_r by exact HP.
  rewrite skipn_app_exact, skipn_skipn by exact HP. rewrite firstn_app_exact by exact HP.
  rewrite firstn_app, (proj2 (Nat.sub_0_le rem (length S))) by exact HS.
  rewrite firstn_O, app_nil_r, <- !app_assoc. do 2 f_equal. f_equal. lia.
Qed.

(** ** Buffers and [memcpy] *)

Local Open Scope nat_scope.

(** [slice src off n]: the [n] bytes at [src + off]; [None] when the read
    leaves the buffer (undefined behaviour in the C++ code). *)
Definition slice (src : list Z) (off n : nat) : option (list Z) :=
  if off + n <=? length src then Some (firstn n (skipn off src)) else None.

(** [write_at dst off src]: [memcpy(dst + off, src, length src)]; [None]
    when the write leaves the buffer. *)
Definition write_at (dst : list Z) (off : nat) (src : list Z) : option (list Z) :=
  if off + length src <=? length dst
  then Some (firstn off dst ++ src ++ skipn (off + length src) dst)
  else None.

Lemma slice_Some src off n :
  off + n <= length src -> slice src off n = Some (firstn n (skipn off src)).
Proof. intros H. unfold slice. now rewrite (proj2 (Nat.leb_le _ _) H). Qed.

Lemma length_slice src off n l : slice src off n = Some l -> length l = n.
Proof.
  unfold slice. destruct (Nat.leb_spec (off + n) (length src)); [|discriminate].
  intros [= <-]. rewrite length_firstn, length_skipn. lia.
Qed.

Lemma nth_slice src off n l i d :
  slice src off n = Some l -> i < n -> nth i l d = nth (off + i) src d.
Proof.
  unfold slice. destruct (Nat.leb_spec (off + n) (length src)); [|discriminate].
  intros [= <-] Hi. rewrite nth_firstn. destruct (Nat.ltb_spec i n); [|lia].
  now rewrite nth_skipn, Nat.add_comm.
Qed.

(** A copy keeps a property of every byte. *)
Lemma Forall_slice (P : Z -> Prop) src off n l :
  Forall P src -> slice src off n = Some l -> Forall P l.
Proof.
  unfold slice. intros Hs. destruct (off + n <=? length src); [|discriminate].
  intros [= <-]. apply Forall_firstn_Z, Forall_skipn_Z, Hs.
Qed.

Lemma Forall_write_at (P : Z -> Prop) dst off src dst' :
  Forall P dst -> Forall P src -> write_at dst off src = Some dst' -> Forall P dst'.
Proof.
  unfold write_at. intros Hd Hs. destruct (off + length src <=? length dst); [|discriminate].
  intros [= <-]. apply Forall_app; split; [apply Forall_firstn_Z, Hd|].
  apply Forall_app; split; [exact Hs|apply Forall_skipn_Z, Hd].
Qed.

Lemma write_at_Some dst off src :
  off + length src <= length dst ->
  write_at dst off src = Some (firstn off dst ++ src ++ skipn (off + length src) dst).
Proof. intros H. unfold write_at. now rewrite (proj2 (Nat.leb_le _ _) H). Qed.

Lemma write_at_None dst off src :
  length dst < off + length src -> write_at dst off src = None.
Proof. intros H. unfold write_at. destruct (Nat.leb_spec (off + length src) (length dst)); auto; lia. Qed.

Lemma length_write_at dst off src dst' :
  write_at dst off src = Some dst' -> length dst' = length dst.
Proof.
  unfold write_at. destruct (Nat.leb_spec (off + length src) (length dst)); [|discriminate].
  intros [= <-]. rewrite !length_app, length_firstn, length_skipn. lia.
Qed.

(** Reading the written window gives the source; reading elsewhere gives
    the old contents. *)
Lemma nth_write_at dst off src dst' i d :
  write_at dst off src = Some dst' ->
  nth i dst' d = if ((off <=? i) && (i <? off + length src))%bool
                 then nth (i - off) src d else nth i dst d.
Proof.
  unfold write_at. destruct (Nat.leb_spec (off + length src) (length dst)); [|discriminate].
  intros [= <-].
  destruct (Nat.ltb_spec i off) as [Hlt|Hge].
  - rewrite app_nth1 by (rewrite length_firstn; lia).
    rewrite nth_firstn. destruct (Nat.leb_spec off i); [lia|].
    destruct (Nat.ltb_spec i off); [reflexivity|lia].
  - rewrite app_nth2 by (rewrite length_firstn; lia).
    rewrite length_firstn, Nat.min_l by lia.
    destruct (Nat.leb_spec off i); [|lia]. simpl.
    destruct (Nat.ltb_spec i (off + length src)).
    + rewrite app_nth1 by lia. reflexivity.
    + rewrite app_nth2 by lia. rewrite nth_skipn. f_equal. lia.
Qed.

Lemma nth_write_at_in dst off src dst' i d :
  write_at dst off src = Some dst' -> off <= i < off + length src ->
  nth i dst' d = nth (i - off) src d.
Proof.
  intros Hw Hi. rewrite (nth_write_at _ _ _ _ _ _ Hw).
  destruct (Nat.leb_spec off i); [|lia]. destruct (Nat.ltb_spec i (off + length src)); [reflexivity|lia].
Qed.

Lemma nth_write_at_out dst off src dst' i d :
  write_at dst off src = Some dst' -> i < off \/ off + length src <= i ->
  nth i dst' d = nth i dst d.
Proof.
  intros Hw Hi. rewrite (nth_write_at _ _ _ _ _ _ Hw).
  destruct (Nat.leb_spec off i), (Nat.ltb_spec i (off + length src)); simpl; auto; lia.
Qed.

(** A write of [a ++ b] is a write of [a] followed by a write of [b]. *)
Lemma write_at_app dst off a b r :
  write_at dst off (a ++ b) = Some r ->
  exists m, write_at dst off a = Some m /\ write_at m (off + length a) b = Some r.
Proof.
  unfold write_at. rewrite length_app.
  destruct (Nat.leb_spec (off + (length a + length b)) (length dst)) as [H|]; [|discriminate].
  intros [= <-]. rewrite (proj2 (Nat.leb_le _ _)) by lia. eexists. split; [reflexivity|].
  rewrite !length_app, length_firstn, length_skipn, (proj2 (Nat.leb_le _ _)) by lia.
  f_equal. rewrite firstn_app, length_firstn, Nat.min_l, Nat.add_comm, Nat.add_sub by lia.
  rewrite firstn_all2 by (rewrite length_firstn; lia).
  rewrite firstn_app, Nat.sub_diag, firstn_O, app_nil_r, firstn_all.
  rewrite skipn_app, length_firstn, Nat.min_l by lia.
  replace (length a + off + length b - off)%nat with (length a + length b)%nat by lia.
  rewrite skipn_all2 by (rewrite length_firstn; lia).
  rewrite skipn_app, skipn_all2 by lia. rewrite skipn_skipn.
  rewrite <- !app_assoc. do 2 f_equal. simpl. f_equal. f_equal. lia.
Qed.

(** A prefix of a list, read element by element. *)
Lemma firstn_as_map (l : list Z) n :
  n <= length l -> firstn n l = map (fun i => nth i l 0%Z) (seq 0 n).
Proof.
  revert l; induction n as [|n IH]; intros l Hn; [reflexivity|].
  destruct l as [|x l]; [simpl in Hn; lia|]. simpl in *.
  rewrite IH by lia. f_equal. rewrite <- seq_shift, map_map. reflexivity.
Qed.

Close Scope nat_scope.

(** ** Automation *)

Create HintDb xvc.
Create Rewrite HintDb xvc_rw.
Lemma byte_ok_app l1 l2 : Forall byte_ok l1 -> Forall byte_ok l2 -> Forall byte_ok (l1 ++ l2).
Proof. intros H1 H2. apply Forall_app. now split. Qed.

Lemma byte_ok_repeat0 n : Forall byte_ok (repeat 0 n).
Proof. apply Forall_forall. intros x Hx. apply repeat_spec in Hx. subst x. unfold byte_ok. lia. Qed.

#[export] Hint Resolve le_bytes_ok byte_ok_app byte_ok_repeat0 wrap_range land_low_high : xvc.
#[export] Hint Rewrite length_app length_le_bytes repeat_length length_skipn length_firstn
  length_rev le_val_le_bytes : xvc_rw.

(** A length or size goal over byte lists: normalise the lengths, then
    arithmetic. *)
Ltac len_lia := autorewrite with xvc_rw; lia.

(** Case analysis on the boolean comparisons of the goal and of the
    hypotheses: the guards of a translated branch. *)
Ltac bool_cases :=
  repeat match goal with
  | |- context [Nat.leb ?a ?b] => destruct (Nat.leb_spec a b)
  | |- context [Nat.ltb ?a ?b] => destruct (Nat.ltb_spec a b)
  | |- context [Nat.eqb ?a ?b] => destruct (Nat.eqb_spec a b)
  | |- context [Z.leb ?a ?b] => destruct (Z.leb_spec a b)
  | |- context [Z.ltb ?a ?b] => destruct (Z.ltb_spec a b)
  | |- context [Z.eqb ?a ?b] => destruct (Z.eqb_spec a b)
  | _ : context [Z.leb ?a ?b] |- _ => destruct (Z.leb_spec a b)
  | _ : context [Z.ltb ?a ?b] |- _ => destruct (Z.ltb_spec a b)
  | _ : context [Z.eqb ?a ?b] |- _ => destruct (Z.eqb_spec a b)
  end.

(** A hypothesis of a theorem at a concrete input: decided by computation. *)
Ltac concrete :=
  solve [ reflexivity | lia | discriminate | (cbn; lia)
        | (vm_compute; reflexivity) | (vm_compute; lia) | (vm_compute; discriminate)
        | (vm_compute; intros ?; discriminate) | (repeat constructor) ].
