(* ===== verification/Header.v ===== *)
(** * The control-word codec of [JtagDriverAxisToJtag]

    The C++ exceptions of the server ([SysErr], [ProtoErr], [TimeoutErr],
    [std::runtime_error]), the constants of the 32-bit control word, the
    accessors and constructors of src/xvcSrv/src/xvcSrv.cc lines 111-258
    (except the clock-period codec, in [Period]), the byte-order helpers
    [getw32]/[setw32]/[getHdr]/[setHdr], and an abstract tagged view of a
    control word that the accessors are proved to implement. *)

From Stdlib Require Import ZArith Ascii String List Lia.
From S2P Require Import Prelude.
Import ListNotations.

(** ** Exceptions *)

(** [SysErr] appends [strerror(errno)] to its prefix; the errno text is
    not modelled.  [MemFault] is not a C++ exception: it marks a [memcpy]
    or [memset] that would leave its buffer, undefined behaviour in C++. *)
Inductive xvc_exn : Type :=
| SysErr (prefix : string)
| ProtoErr (msg : string)
| TimeoutErr (detail : string)
| RuntimeErr (msg : string)
| MemFault.

(** The text [what()] returns. *)
Definition what (e : xvc_exn) : string :=
  match e with
  | SysErr p => (p ++ ": <errno>")%string
  | ProtoErr m => ("Protocol error: " ++ m)%string
  | TimeoutErr d => ("Timeout error; too many retries failed" ++ d)%string
  | RuntimeErr m => m
  | MemFault => "out-of-bounds memory access"%string
  end.

(** [snprintf("%d")] of a non-negative integer. *)
Fixpoint dec_digits (fuel : nat) (n : Z) (acc : string) : string :=
  match fuel with
  | O => acc
  | S f =>
      let acc' := String (ascii_of_nat (48 + Z.to_nat (n mod 10))) acc in
      if (n <? 10)%Z then acc' else dec_digits f (n / 10)%Z acc'
  end.

Definition fmt_int (n : Z) : string :=
  if (n <? 0)%Z then String "-" (dec_digits 20 (- n) "") else dec_digits 20 n "".

Definition is_timeout (e : xvc_exn) : bool :=
  match e with TimeoutErr _ => true | _ => false end.

Module Codec.
Open Scope Z_scope.

(** ** Constants of the control word (declared in xvcSrv.h) *)

(** Bits 31..30: protocol version; 29..28: command; 27..20: transaction
    id, or the log-encoded clock period in a query reply; 19..0: shift
    length - 1, or 19..4 memory depth and 3..0 word size - 1 in a query
    reply, or 7..0 the error code of an error reply. *)
Definition PVER0 : Z := 0.
Definition PVERS : Z := PVER0.
Definition VRS_MASK : Z := Z.shiftl (Z.ones 2) 30.
Definition CMD_Q : Z := 0.
Definition CMD_S : Z := 1 * 2 ^ 28.
Definition CMD_E : Z := 2 * 2 ^ 28.
Definition CMD_MASK : Z := Z.shiftl (Z.ones 2) 28.
Definition XID_SHIFT : Z := 20.
Definition XID_ANY : Z := 0.
Definition LEN_SHIFT : Z := 0.
Definition LEN_MASK : Z := Z.ones 20.
Definition ERR_SHIFT : Z := 0.
Definition ERR_MASK : Z := Z.ones 8.
Definition ERR_BAD_VERSION : Z := 1.
Definition ERR_BAD_COMMAND : Z := 2.
Definition ERR_TRUNCATED : Z := 3.
Definition ERR_NOT_PRESENT : Z := 4.
Definition UNKNOWN_PERIOD : Z := 0.

(** [sizeof(Header)] *)
Definition HDR_BYTES : nat := 4.

(** ** Accessors *)

Definition getXid (x : Z) : Z := Z.land (Z.shiftr x 20) 255.

Definition getCmd (x : Z) : Z := Z.land x CMD_MASK.

Definition getErr (x : Z) : Z :=
  if negb (getCmd x =? CMD_E) then 0
  else Z.shiftr (Z.land x ERR_MASK) ERR_SHIFT.

(** [getLen] throws on a header that is not a shift. *)
Definition getLen (x : Z) : outcome xvc_exn Z :=
  if negb (getCmd x =? CMD_S)
  then Throw (ProtoErr "Cannot extract length from non-shift command header")
  else Ret (Z.shiftr (Z.land x LEN_MASK) LEN_SHIFT + 1).

Definition getVrs (x : Z) : Z := Z.land x VRS_MASK.

(** [getMsg] returns [NULL] ([None]) for an unknown code. *)
Definition getMsg (e : Z) : option string :=
  if e =? 0 then Some "NO ERROR"%string
  else if e =? ERR_BAD_VERSION then Some "Unsupported Protocol Version"%string
  else if e =? ERR_BAD_COMMAND then Some "Unsupported Command"%string
  else if e =? ERR_TRUNCATED then Some "Unsupported Command"%string
  else if e =? ERR_NOT_PRESENT then Some "XVC Support not Instantiated in Firmware"%string
  else None.

Definition mkQuery : Z := Z.lor (Z.lor PVERS CMD_Q) XID_ANY.

(** [newXid] pre-increments the 8-bit member [xid_], skipping [XID_ANY];
    it returns the new counter and the id placed in the xid field. *)
Definition newXid (xid_ : Z) : Z * Z :=
  let x1 := u8 (xid_ + 1) in
  let x2 := if x1 =? XID_ANY then u8 (x1 + 1) else x1 in
  (x2, u32 (Z.shiftl x2 XID_SHIFT)).

(** [mkShift len]: [len - 1] in unsigned arithmetic, shifted into the
    length field without masking. *)
Definition mkShift (xid_ : Z) (len : Z) : Z * Z :=
  let len1 := u32 (len - 1) in
  let (xid', xh) := newXid xid_ in
  (xid', Z.lor (Z.lor (Z.lor PVERS CMD_S) xh) (u32 (Z.shiftl len1 LEN_SHIFT))).

Definition wordSize (reply : Z) : Z := Z.land reply 15 + 1.

Definition memDepth (reply : Z) : Z := Z.land (Z.shiftr reply 4) 65535.

(** ** Byte order *)

(** [getw32] copies four bytes into a word and swaps them on a
    big-endian host: the bytes are read little-endian on every host. *)
Definition getw32 (buf : list Z) : Z := le_val (firstn 4 buf).

Definition getHdr (buf : list Z) : Z := getw32 buf.

(** [setw32 buf w l] stores the [min l 4] low little-endian bytes of [w]
    at the start of [buf]. *)
Definition setw32 (buf : list Z) (w : Z) (l : nat) : option (list Z) :=
  write_at buf 0 (le_bytes (Nat.min l 4) w).

(** [setHdr]: the header, then [wordSize - 4] zero bytes (an unsigned
    count: it wraps when [wordSize < 4]). *)
Definition setHdr (wordSize_ : nat) (buf : list Z) (hdr : Z) : option (list Z) :=
  match setw32 buf hdr 4 with
  | None => None
  | Some buf1 =>
      let empty := u32 (Z.of_nat wordSize_ - Z.of_nat HDR_BYTES) in
      write_at buf1 HDR_BYTES (repeat 0 (Z.to_nat empty))
  end.

(** ** The abstract view of a control word *)

(** What a 32-bit control word carries, one constructor per command:
    the tagged variant the spec describes.  Command 3 is not assigned. *)
Inductive hdr_view : Type :=
| VQuery (vers xid_or_period depth wsize : Z)
| VShift (vers xid len : Z)
| VError (vers code : Z)
| VUnassigned (vers : Z).

Definition view (h : Z) : hdr_view :=
  let vers := h / 2 ^ 30 in
  let cmd := (h / 2 ^ 28) mod 4 in
  let xid := (h / 2 ^ 20) mod 256 in
  if cmd =? 0 then VQuery vers xid ((h / 16) mod 65536) (h mod 16 + 1)
  else if cmd =? 1 then VShift vers xid (h mod 2 ^ 20 + 1)
  else if cmd =? 2 then VError vers (h mod 256)
  else VUnassigned vers.

(** The counter after [n] calls of [newXid]. *)
Definition xid_after (n : nat) (x : Z) : Z :=
  Nat.iter n (fun c => fst (newXid c)) x.

(** ** Facts *)

Lemma getXid_spec h : getXid h = (h / 2 ^ 20) mod 256.
Proof. unfold getXid. rewrite shiftr_div by lia. apply (land_ones_mod _ 8). lia. Qed.

Lemma getCmd_spec h : getCmd h = (h / 2 ^ 28) mod 4 * 2 ^ 28.
Proof. unfold getCmd, CMD_MASK. now rewrite land_field by lia. Qed.

Lemma getVrs_spec h : getVrs h = (h / 2 ^ 30) mod 4 * 2 ^ 30.
Proof. unfold getVrs, VRS_MASK. now rewrite land_field by lia. Qed.

Lemma wordSize_spec h : wordSize h = h mod 16 + 1.
Proof. unfold wordSize. now rewrite (land_ones_mod _ 4) by lia. Qed.

Lemma memDepth_spec h : memDepth h = (h / 16) mod 65536.
Proof. unfold memDepth. rewrite shiftr_div by lia. now rewrite (land_ones_mod _ 16) by lia. Qed.

(** The command of a word decides which accessor applies. *)
Lemma cmd_cases h :
  let c := (h / 2 ^ 28) mod 4 in c = 0 \/ c = 1 \/ c = 2 \/ c = 3.
Proof. simpl. pose proof (Z.mod_pos_bound (h / 2 ^ 28) 4). lia. Qed.

Lemma newXid_range x : 1 <= fst (newXid x) <= 255.
Proof.
  unfold newXid, u8, wrap, XID_ANY. cbn [fst]. change (2 ^ 8) with 256.
  pose proof (Z.mod_pos_bound (x + 1) 256).
  destruct (Z.eqb_spec ((x + 1) mod 256) 0) as [E|E].
  - rewrite E. split; discriminate.
  - split; [Z.div_mod_to_equations|]; lia.
Qed.

Lemma newXid_field x : snd (newXid x) = fst (newXid x) * 2 ^ 20.
Proof.
  pose proof (newXid_range x). unfold newXid in *. cbn [fst snd] in *.
  unfold u32, XID_SHIFT. rewrite shiftl_mul by lia. apply wrap_small. lia.
Qed.

Lemma mkShift_value x len :
  1 <= len <= 2 ^ 20 ->
  snd (mkShift x len) = (len - 1) + (fst (newXid x) + 2 ^ 8) * 2 ^ 20.
Proof.
  intros Hl. pose proof (newXid_range x) as Hx.
  pose proof (newXid_field x) as Hf.
  unfold mkShift. destruct (newXid x) as [x' xh]. cbn [fst snd] in *. subst xh.
  unfold u32, PVERS, PVER0, CMD_S, LEN_SHIFT.
  rewrite Z.shiftl_0_r, !(wrap_small 32 (len - 1)) by lia.
  rewrite Z.lor_0_l, (Z.lor_comm (1 * 2 ^ 28)), (lor_low_high _ 1 28) by lia.
  rewrite (Z.lor_comm _ (len - 1)).
  replace (x' * 2 ^ 20 + 1 * 2 ^ 28) with ((x' + 2 ^ 8) * 2 ^ 20) by lia.
  rewrite lor_low_high by lia. reflexivity.
Qed.

(** [getLen] on a constructed word; the arithmetic of its fields. *)
Lemma view_shift_value v x len :
  0 <= v < 4 -> 0 <= x < 256 -> 1 <= len <= 2 ^ 20 ->
  view ((len - 1) + (x + 2 ^ 8) * 2 ^ 20 + v * 2 ^ 30) = VShift v x len.
Proof.
  intros Hv Hx Hl. unfold view.
  set (h := (len - 1) + (x + 2 ^ 8) * 2 ^ 20 + v * 2 ^ 30).
  assert (E1 : h / 2 ^ 30 = v) by (unfold h; Z.div_mod_to_equations; lia).
  assert (E2 : (h / 2 ^ 28) mod 4 = 1) by (unfold h; Z.div_mod_to_equations; lia).
  assert (E3 : (h / 2 ^ 20) mod 256 = x) by (unfold h; Z.div_mod_to_equations; lia).
  assert (E4 : h mod 2 ^ 20 + 1 = len) by (unfold h; Z.div_mod_to_equations; lia).
  rewrite E1, E2, E3, E4. reflexivity.
Qed.

(** The length field and the command are read through [view]. *)
Lemma getLen_view h :
  getLen h = match view h with
             | VShift _ _ len => Ret len
             | _ => Throw (ProtoErr "Cannot extract length from non-shift command header")
             end.
Proof.
  unfold getLen, view. rewrite getCmd_spec.
  unfold CMD_S, LEN_MASK, LEN_SHIFT. rewrite Z.shiftr_0_r, land_ones_mod by lia.
  destruct (cmd_cases h) as [E|[E|[E|E]]]; rewrite E; reflexivity.
Qed.

Lemma getErr_view h :
  getErr h = match view h with VError _ code => code | _ => 0 end.
Proof.
  unfold getErr, view. rewrite getCmd_spec.
  unfold CMD_E, ERR_MASK, ERR_SHIFT. rewrite Z.shiftr_0_r, land_ones_mod by lia.
  destruct (cmd_cases h) as [E|[E|[E|E]]]; rewrite E; reflexivity.
Qed.

Lemma newXid_succ c : 1 <= c <= 255 -> fst (newXid c) = c mod 255 + 1.
Proof.
  intros Hc. unfold newXid, u8, wrap, XID_ANY. cbn [fst]. change (2 ^ 8) with 256.
  destruct (Z.eq_dec c 255) as [->|Hne]; [reflexivity|].
  rewrite (Z.mod_small (c + 1) 256), (Z.mod_small c 255) by lia.
  destruct (Z.eqb_spec (c + 1) 0); [lia|reflexivity].
Qed.

Lemma lor_ones a k : 0 <= k -> 0 <= a < 2 ^ k -> Z.lor a (Z.ones k) = Z.ones k.
Proof.
  intros Hk Ha. apply Z.bits_inj'. intros i Hi.
  rewrite Z.lor_spec, Z.testbit_ones_nonneg by lia.
  destruct (Z.ltb_spec i k) as [Hlt|Hge]; [apply Bool.orb_true_r|].
  rewrite Bool.orb_false_r.
  destruct (Z.eq_dec a 0) as [->|Hnz]; [now rewrite Z.bits_0|].
  apply Z.bits_above_log2; [lia|].
  pose proof (proj1 (Z.log2_lt_pow2 a k ltac:(lia)) (proj2 Ha)); lia.
Qed.

Lemma xid_after_S n x :
  xid_after (S n) x = (fst (newXid x) - 1 + Z.of_nat n) mod 255 + 1.
Proof.
  induction n as [|n IH].
  - pose proof (newXid_range x). change (xid_after 1 x) with (fst (newXid x)).
    rewrite Z.add_0_r, Z.mod_small by lia. lia.
  - change (xid_after (S (S n)) x) with (fst (newXid (xid_after (S n) x))).
    rewrite IH, newXid_succ by (pose proof (Z.mod_pos_bound (fst (newXid x) - 1 + Z.of_nat n) 255); lia).
    rewrite Zplus_mod_idemp_l, Nat2Z.inj_succ. f_equal. f_equal. lia.
Qed.


(** [mkShift] encodes every length in [1, 2^20] so that [getLen]
    returns it, with a fresh id that is not the wildcard in the xid
    field, the shift command and the protocol version. *)
Lemma mkShift_fields x len :
  1 <= len <= 2 ^ 20 ->
  let (xid', h) := mkShift x len in
  getLen h = Ret len /\ getXid h = xid' /\ getCmd h = CMD_S /\
  getVrs h = PVERS /\ xid' <> XID_ANY.
Proof.
  intros Hl. pose proof (mkShift_value x len Hl) as Hv.
  pose proof (newXid_range x) as Hx.
  assert (Hf : fst (mkShift x len) = fst (newXid x))
    by (unfold mkShift; now destruct (newXid x)).
  destruct (mkShift x len) as [xid' h]. cbn [fst snd] in *. subst xid'.
  assert (Hview : view h = VShift 0 (fst (newXid x)) len).
  { rewrite Hv, <- (Z.add_0_r (_ + _)), <- (Z.mul_0_l (2 ^ 30)).
    apply view_shift_value; lia. }
  rewrite getLen_view, Hview, getXid_spec, getCmd_spec, getVrs_spec, Hv.
  unfold CMD_S, PVERS, PVER0, XID_ANY.
  repeat split; try (Z.div_mod_to_equations; lia).
Qed.

(** A zero-length shift header is all ones: [len - 1] wraps to
    [0xffffffff] and is or-ed in unmasked, so the command field reads 3
    (no command) and [getLen] throws on the driver's own header. *)
Lemma mkShift_zero_length x :
  snd (mkShift x 0) = Z.ones 32 /\ getCmd (snd (mkShift x 0)) = CMD_MASK /\
  getLen (snd (mkShift x 0)) = Throw (ProtoErr "Cannot extract length from non-shift command header").
Proof.
  assert (H : snd (mkShift x 0) = Z.ones 32).
  { pose proof (newXid_range x). pose proof (newXid_field x).
    unfold mkShift. destruct (newXid x) as [x' xh]. cbn [fst snd] in *. subst xh.
    unfold u32, LEN_SHIFT. rewrite Z.shiftl_0_r.
    replace (wrap 32 (wrap 32 (0 - 1))) with (Z.ones 32) by reflexivity.
    apply lor_ones; [lia|]. unfold PVERS, PVER0, CMD_S.
    rewrite Z.lor_0_l, (Z.lor_comm (1 * 2 ^ 28)), (lor_low_high _ 1 28) by lia. lia. }
  rewrite H. split; [reflexivity|]. split; reflexivity.
Qed.

(** C13: The ids of 255 consecutive [newXid] calls are pairwise
    distinct and never [XID_ANY]; the sequence has period 255. *)
Theorem xid_distinct x i j :
  (1 <= i < j)%nat -> (j <= 255)%nat ->
  xid_after i x <> xid_after j x /\ xid_after i x <> XID_ANY /\
  xid_after (i + 255) x = xid_after i x.
Proof.
  intros Hij Hj. pose proof (newXid_range x) as Hx.
  destruct i as [|i]; [lia|]. destruct j as [|j]; [lia|].
  replace (S i + 255)%nat with (S (i + 255)) by lia.
  rewrite !xid_after_S. unfold XID_ANY.
  repeat split; [|pose proof (Z.mod_pos_bound (fst (newXid x) - 1 + Z.of_nat i) 255); lia|].
  - intros E. Z.div_mod_to_equations. nia.
  - rewrite Nat2Z.inj_add. rewrite Z.add_assoc.
    rewrite <- Zplus_mod_idemp_r, Z_mod_same_full, Z.add_0_r. reflexivity.
Qed.

(** A header stored little-endian at the start of a buffer reads back. *)
Lemma getHdr_le_bytes h rest : 0 <= h < 2 ^ 32 -> getHdr (le_bytes 4 h ++ rest) = h.
Proof.
  intros Hh. unfold getHdr, getw32.
  rewrite firstn_app, length_le_bytes, Nat.sub_diag, firstn_O, app_nil_r, firstn_all2 by len_lia.
  autorewrite with xvc_rw. now apply Z.mod_small.
Qed.

(** [setHdr] writes bytes only. *)
Lemma setHdr_bytes ws buf h buf' :
  Forall byte_ok buf -> setHdr ws buf h = Some buf' -> Forall byte_ok buf'.
Proof.
  unfold setHdr, setw32. intros Hb. destruct (write_at buf 0 _) as [b1|] eqn:E; [|discriminate].
  intros E2. eapply Forall_write_at; [|apply byte_ok_repeat0|exact E2].
  eapply Forall_write_at; [exact Hb|apply le_bytes_ok|exact E].
Qed.

Lemma setHdr_layout ws buf h :
  (4 <= ws <= 16)%nat -> (ws <= length buf)%nat ->
  setHdr ws buf h = Some (le_bytes 4 h ++ repeat 0 (ws - 4) ++ skipn ws buf).
Proof.
  intros Hws Hb. unfold setHdr, setw32.
  rewrite write_at_Some by (rewrite length_le_bytes; simpl; lia).
  rewrite length_le_bytes. cbn [Nat.min firstn app].
  unfold u32, HDR_BYTES. rewrite wrap_small by lia.
  replace (Z.to_nat (Z.of_nat ws - Z.of_nat 4)) with (ws - 4)%nat by lia.
  rewrite write_at_Some
    by len_lia.
  rewrite repeat_length, firstn_app, length_le_bytes, Nat.sub_diag, firstn_O, app_nil_r.
  rewrite firstn_all2 by (rewrite length_le_bytes; lia).
  rewrite skipn_app, length_le_bytes, skipn_all2 by (rewrite length_le_bytes; lia).
  rewrite skipn_skipn, app_nil_l. repeat f_equal. lia.
Qed.

(** C12: [setHdr] stores the header little-endian so that [getHdr]
    reads it back, zero-fills the rest of the header word and leaves the
    buffer beyond the word untouched. *)
Theorem setHdr_getHdr ws buf h :
  (4 <= ws <= 16)%nat -> (ws <= length buf)%nat -> 0 <= h < 2 ^ 32 ->
  exists buf', setHdr ws buf h = Some buf' /\ getHdr buf' = h /\
    length buf' = length buf /\
    (forall i, (4 <= i < ws)%nat -> nth i buf' 0 = 0) /\
    (forall i, (ws <= i)%nat -> nth i buf' 0 = nth i buf 0).
Proof.
  intros Hws Hb Hh. rewrite setHdr_layout by assumption. eexists; split; [reflexivity|].
  repeat split.
  - now apply getHdr_le_bytes.
  - len_lia.
  - intros i Hi. rewrite app_nth2 by (rewrite length_le_bytes; lia).
    rewrite app_nth1 by (rewrite length_le_bytes, repeat_length; lia).
    apply nth_repeat.
  - intros i Hi. rewrite app_nth2 by (rewrite length_le_bytes; lia).
    rewrite app_nth2 by (rewrite length_le_bytes, repeat_length; lia).
    rewrite length_le_bytes, repeat_length, nth_skipn. f_equal. lia.
Qed.

(** A word size below four wraps the unsigned [memset] count. *)
Lemma setHdr_short_word ws buf h :
  (ws < 4)%nat -> Z.of_nat (length buf) < 2 ^ 32 - 4 -> setHdr ws buf h = None.
Proof.
  intros Hws Hb. unfold setHdr, setw32.
  destruct (Nat.le_gt_cases 4 (length buf)) as [Hl|Hl].
  - rewrite write_at_Some by (rewrite length_le_bytes; simpl; lia).
    rewrite length_le_bytes. cbn [Nat.min firstn app Nat.add].
    apply write_at_None. rewrite length_app, length_le_bytes, length_skipn, repeat_length.
    unfold u32, wrap, HDR_BYTES.
    rewrite <- (Z.mod_add _ 1) by lia. rewrite Z.mod_small by lia. lia.
  - now rewrite write_at_None by (rewrite length_le_bytes; simpl; lia).
Qed.

(** C14: The decoding accessors implement the tagged view of a control
    word: [getLen] gives the length of a shift and throws on every other
    command, [getErr] gives the code of an error reply and 0 for every
    other command (it does not fail on a word that is not an error). *)
Theorem accessors_refine_view h :
  getLen h = match view h with
             | VShift _ _ len => Ret len
             | _ => Throw (ProtoErr "Cannot extract length from non-shift command header")
             end /\
  getErr h = match view h with VError _ code => code | _ => 0 end.
Proof. split; [apply getLen_view|apply getErr_view]. Qed.

(** ** Witnesses *)

Lemma xid_distinct_witness :
  xid_after 1 0 <> xid_after 2 0 /\ xid_after 1 0 <> XID_ANY /\ xid_after (1 + 255) 0 = xid_after 1 0.
Proof. apply xid_distinct; lia. Defined.

Lemma setHdr_getHdr_witness :
  exists buf', setHdr 4 [9; 9; 9; 9; 9] 5 = Some buf' /\ getHdr buf' = 5 /\
    length buf' = length [9; 9; 9; 9; 9] /\
    (forall i, (4 <= i < 4)%nat -> nth i buf' 0 = 0) /\
    (forall i, (4 <= i)%nat -> nth i buf' 0 = nth i [9; 9; 9; 9; 9] 0).
Proof. apply setHdr_getHdr; concrete. Defined.

End Codec.
