(* ===== verification/Period.v ===== *)
(** * The clock-period codec and the query-reply encoder

    [cvtPerNs] and [encPerNs] (src/xvcSrv/src/xvcSrv.cc lines 196-220)
    convert between a TCK period in nanoseconds and its 8-bit logarithmic
    code, [code = round(64 * log10(periodNs * REF_FREQ_HZ / 1e9))] and
    [periodNs = round(10^(code/64) * 1e9 / REF_FREQ_HZ)].  The C++ computes
    with [double]; the model computes the exact real-number functions
    with integers:
    - [round(64 * log10 y) = c] iff [10^(2c-1) <= y^128 < 10^(2c+1)] (no
      rational [y] sits on a boundary), and the exponent is found with a
      decimal logarithm of [(periodNs * REF_FREQ_HZ)^128];
    - [round(x)] for [x = 10^(c/64) * 1e9 / REF_FREQ_HZ] is
      [(floor(2x) + 1) / 2], and [floor(2x)] is the integer 64th root of
      [2^64 * 10^(c+576) / REF_FREQ_HZ^64], six iterated [Z.sqrt].
    [REF_FREQ_HZ()] is declared in xvcSrv.h, outside the sources: it is a
    section variable, and the theorems hold for every positive integer
    frequency.  [mkQueryReply] (lines 234-258) is here because it calls
    [encPerNs]. *)

From Stdlib Require Import ZArith String List Lia.
From S2P Require Import Prelude Header.
Import ListNotations Codec.

Module Period.
Open Scope Z_scope.

(** [root2k k n]: the floor of the [2^k]-th root of [n >= 0]. *)
Fixpoint root2k (k : nat) (n : Z) : Z :=
  match k with
  | O => n
  | S k' => root2k k' (Z.sqrt n)
  end.

(** [log10_aux]: the number of decimal digits of [n] minus one, when the
    fuel covers them. *)
Fixpoint log10_aux (fuel : nat) (n : Z) : Z :=
  match fuel with
  | O => 0
  | S f => if n <? 10 then 0 else 1 + log10_aux f (n / 10)
  end.

(** [floor(log10 n)] for [n >= 1]: a number has at most [log2 n + 1]
    decimal digits, which is the fuel. *)
Definition log10_floor (n : Z) : Z := log10_aux (Z.to_nat (Z.log2 n + 1)) n.

Section WithRefFreq.
Variable REF_FREQ_HZ : Z.

Definition cvtPerNs (reply : Z) : Z :=
  let rawVal := Z.land (Z.shiftr reply XID_SHIFT) 255 in
  if rawVal =? 0 then UNKNOWN_PERIOD
  else u32 ((root2k 6 (2 ^ 64 * 10 ^ (rawVal + 576) / REF_FREQ_HZ ^ 64) + 1) / 2).

(** The conversion of a negative [double] to [uint32_t] (a period
    below [1e9 / REF_FREQ_HZ] ns) is undefined in C++; the model wraps
    it. *)
Definition encPerNs (perNs : Z) : Z :=
  if UNKNOWN_PERIOD =? perNs then 0
  else u32 ((log10_floor ((perNs * REF_FREQ_HZ) ^ 128) - 1151) / 2).

Definition mkQueryReply (protoVers wordSize memDepth periodNs : Z) : outcome xvc_exn Z :=
  let periodEncoded := encPerNs periodNs in
  if negb (protoVers =? PVER0)
  then Throw (RuntimeErr "mkQueryReply: unsupported protocol version")
  else if 16 <? wordSize
  then Throw (RuntimeErr "mkQueryReply: unsupported word size")
  else if 2 ^ 16 <=? memDepth
  then Throw (RuntimeErr "mkQueryReply: unsupported memory depth")
  else if 2 ^ 8 <=? periodNs
  then Throw (RuntimeErr "mkQueryReply: unsupported TCK clock period")
  else
    let rval := Z.lor protoVers CMD_Q in
    let rval := Z.lor rval (Z.shiftl (Z.land periodEncoded 255) 20) in
    let rval := Z.lor rval (Z.shiftl (Z.land memDepth 65535) 4) in
    Ret (Z.lor rval (Z.shiftl (Z.land (u32 (wordSize - 1)) 15) 0)).
End WithRefFreq.

(** ** What the codec promises

    [code_bracket c y]: [c = round(64 * log10(y / 1e9))], i.e.
    [10^(2c-1) <= (y / 1e9)^128 < 10^(2c+1)] with the [1e9] cleared. *)
Definition code_bracket (c y : Z) : Prop :=
  10 ^ (2 * c + 1151) <= y ^ 128 < 10 ^ (2 * c + 1153).

(** [period_close p d]: [d - 1/2 <= x] and [p < x * 10^(1/128)], and
    [x - 1/2 <= d] and [x <= p * 10^(1/128)], for some real [x], stated
    without roots: [d] is within the quantisation of [p]. *)
Definition period_close (p d : Z) : Prop :=
  (2 * d - 1) ^ 128 <= 10 * (2 * p) ^ 128 /\ (2 * p) ^ 128 < 10 * (2 * d + 1) ^ 128.

(** [period_bracket R raw d]: [d = round(10^(raw/64) * 1e9 / R)], i.e.
    [2d - 1 <= 2x < 2d + 1] for that [x], raised to the 64th power. *)
Definition period_bracket (R raw d : Z) : Prop :=
  (Z.max 0 (2 * d - 1) * R) ^ 64 <= 2 ^ 64 * 10 ^ (raw + 576) < ((2 * d + 1) * R) ^ 64.

Lemma pow_sq a k : 0 <= k -> a ^ (2 ^ (k + 1)) = (a ^ (2 ^ k)) ^ 2.
Proof. intros Hk. rewrite Z.pow_add_r, Z.pow_1_r, <- Z.pow_mul_r by lia. reflexivity. Qed.

Lemma root2k_spec k n : 0 <= n ->
  let r := root2k k n in 0 <= r /\ r ^ (2 ^ Z.of_nat k) <= n < (r + 1) ^ (2 ^ Z.of_nat k).
Proof.
  revert n. induction k as [|k IH]; intros n Hn; cbn [root2k].
  - change (2 ^ Z.of_nat 0) with 1. rewrite !Z.pow_1_r. lia.
  - destruct (IH (Z.sqrt n) (Z.sqrt_nonneg n)) as (H0 & Hlo & Hhi).
    pose proof (Z.sqrt_spec n Hn) as [Slo Shi]. cbn zeta.
    rewrite Nat2Z.inj_succ, <- Z.add_1_r, !pow_sq by lia.
    set (r := root2k k (Z.sqrt n)) in *. set (e := 2 ^ Z.of_nat k) in *.
    assert (0 <= r ^ e) by (apply Z.pow_nonneg; lia).
    split; [exact H0|split].
    + eapply Z.le_trans; [|exact Slo]. rewrite !Z.pow_2_r. apply Z.mul_le_mono_nonneg; lia.
    + eapply Z.lt_le_trans; [exact Shi|]. rewrite !Z.pow_2_r. apply Z.mul_le_mono_nonneg; lia.
Qed.

Lemma log10_aux_spec fuel n : 1 <= n < 10 ^ Z.of_nat fuel ->
  10 ^ log10_aux fuel n <= n < 10 ^ (log10_aux fuel n + 1) /\ 0 <= log10_aux fuel n.
Proof.
  revert n. induction fuel as [|f IH]; intros n Hn; [cbn in Hn; lia|]. cbn [log10_aux].
  destruct (Z.ltb_spec n 10).
  - cbn. lia.
  - rewrite Nat2Z.inj_succ, Z.pow_succ_r in Hn by lia.
    destruct (IH (n / 10)) as [[Hlo Hhi] H0]; [split; [apply Z.div_le_lower_bound|apply Z.div_lt_upper_bound]; lia|].
    set (a := log10_aux f (n / 10)) in *. split; [|lia].
    replace (1 + a + 1) with ((a + 1) + 1) by lia. replace (1 + a) with (a + 1) by lia.
    rewrite (Z.pow_add_r _ (a + 1)), (Z.pow_add_r _ a), Z.pow_1_r by lia.
    rewrite Z.pow_add_r, Z.pow_1_r in Hhi by lia. clear IH.
    revert Hlo Hhi. generalize (10 ^ a). intros P Hl Hh. Z.div_mod_to_equations. nia.
Qed.

Lemma log10_floor_spec n : 1 <= n ->
  10 ^ log10_floor n <= n < 10 ^ (log10_floor n + 1) /\ 0 <= log10_floor n.
Proof.
  intros Hn. apply log10_aux_spec. split; [exact Hn|].
  pose proof (Z.log2_spec n ltac:(lia)) as [_ H2]. rewrite Z2Nat.id by (pose proof (Z.log2_nonneg n); lia).
  eapply Z.lt_le_trans; [exact H2|]. rewrite <- Z.add_1_r. apply Z.pow_le_mono_l. lia.
Qed.

(** [encPerNs] computes [round(64 * log10(periodNs * REF_FREQ_HZ / 1e9))]
    modulo [2^32]: the code [c] is the one whose bracket holds the period. *)
Lemma encPerNs_spec R p : 1 <= R -> 1 <= p ->
  exists c, encPerNs R p = u32 c /\ code_bracket c (p * R).
Proof.
  intros HR Hp. unfold encPerNs. replace (UNKNOWN_PERIOD =? p) with false by (symmetry; apply Z.eqb_neq; unfold UNKNOWN_PERIOD; lia).
  set (L := log10_floor ((p * R) ^ 128)).
  destruct (log10_floor_spec ((p * R) ^ 128)) as [[Hlo Hhi] H0]; [assert (0 < (p * R) ^ 128) by (apply Z.pow_pos_nonneg; nia); lia|].
  fold L in Hlo, Hhi, H0. exists ((L - 1151) / 2). split; [reflexivity|].
  unfold code_bracket. split; [eapply Z.le_trans; [|exact Hlo]|eapply Z.lt_le_trans; [exact Hhi|]];
    apply Z.pow_le_mono_r; Z.div_mod_to_equations; lia.
Qed.

(** [cvtPerNs] returns a [uint32_t]. *)
Lemma cvtPerNs_range R h : 0 <= cvtPerNs R h < 2 ^ 32.
Proof.
  unfold cvtPerNs. destruct (_ =? 0); [unfold UNKNOWN_PERIOD; lia|apply wrap_range; lia].
Qed.

(** [cvtPerNs] computes [round(10^(raw/64) * 1e9 / REF_FREQ_HZ)] modulo
    [2^32], for a non-zero code [raw]. *)
Lemma cvtPerNs_spec R h : 1 <= R -> getXid h <> 0 ->
  exists d, cvtPerNs R h = u32 d /\ 0 <= d /\ period_bracket R (getXid h) d.
Proof.
  intros HR Hx. unfold cvtPerNs, period_bracket. change (Z.land (Z.shiftr h XID_SHIFT) 255) with (getXid h). apply Z.eqb_neq in Hx. rewrite Hx.
  set (N := 2 ^ 64 * 10 ^ (getXid h + 576)).
  assert (HN : 0 <= N) by (apply Z.mul_nonneg_nonneg; apply Z.pow_nonneg; lia).
  assert (HR64 : 0 < R ^ 64) by (apply Z.pow_pos_nonneg; lia). clearbody N.
  destruct (root2k_spec 6 (N / R ^ 64)) as (H0 & Hlo & Hhi); [apply Z.div_pos; lia|].
  set (r := root2k 6 (N / R ^ 64)) in *. clearbody r. change (2 ^ Z.of_nat 6) with 64 in Hlo, Hhi.
  exists ((r + 1) / 2). split; [reflexivity|]. split; [apply Z.div_pos; lia|].
  rewrite !Z.pow_mul_l. split.
  - apply Z.le_trans with (r ^ 64 * R ^ 64).
    + apply Z.mul_le_mono_nonneg_r; [lia|]. apply Z.pow_le_mono_l. clear - H0. Z.div_mod_to_equations. lia.
    + eapply Z.le_trans; [apply Z.mul_le_mono_nonneg_r; [lia|exact Hlo]|].
      rewrite Z.mul_comm. apply Z.mul_div_le; lia.
  - apply Z.lt_le_trans with ((r + 1) ^ 64 * R ^ 64).
    + eapply Z.lt_le_trans; [apply (Z.mul_succ_div_gt N (R ^ 64) HR64)|].
      rewrite Z.mul_comm. apply Z.mul_le_mono_nonneg_r; lia.
    + apply Z.mul_le_mono_nonneg_r; [lia|]. apply Z.pow_le_mono_l. clear - H0. Z.div_mod_to_equations. lia.
Qed.

Lemma mkQueryReply_value R ws md p :
  0 <= ws <= 16 -> 0 <= md < 2 ^ 16 -> 0 <= p < 2 ^ 8 ->
  mkQueryReply R PVER0 ws md p =
    Ret ((ws - 1) mod 16 + (md + encPerNs R p mod 256 * 2 ^ 16) * 2 ^ 4).
Proof.
  intros Hw Hm Hp. unfold mkQueryReply.
  rewrite Z.eqb_refl. cbn [negb].
  destruct (Z.ltb_spec 16 ws); [lia|]. destruct (Z.leb_spec (2 ^ 16) md); [lia|].
  destruct (Z.leb_spec (2 ^ 8) p); [lia|].
  unfold PVER0, CMD_Q. change 255 with (Z.ones 8). change 65535 with (Z.ones 16).
  change 15 with (Z.ones 4).
  change (Z.lor 0 0) with 0. rewrite Z.lor_0_l, Z.shiftl_0_r.
  rewrite !land_ones_mod, !shiftl_mul by lia.
  rewrite (Z.mod_small md) by lia. unfold u32, wrap.
  rewrite (Z.lor_comm (_ * 2 ^ 20)), (lor_low_high (md * 2 ^ 4) _ 20) by lia.
  rewrite Z.lor_comm. replace (md * 2 ^ 4 + encPerNs R p mod 2 ^ 8 * 2 ^ 20) with
    ((md + encPerNs R p mod 2 ^ 8 * 2 ^ 16) * 2 ^ 4) by lia.
  rewrite lor_low_high by (try apply Z.mod_pos_bound; lia).
  f_equal. rewrite Z.mod_mod_divide; [reflexivity|]. exists (2 ^ 28). reflexivity.
Qed.

Lemma query_fields ws md e :
  0 <= md < 2 ^ 16 -> 0 <= e < 2 ^ 8 ->
  let h := (ws - 1) mod 16 + (md + e * 2 ^ 16) * 2 ^ 4 in
  getCmd h = CMD_Q /\ wordSize h = (ws - 1) mod 16 + 1 /\ memDepth h = md /\ getXid h = e.
Proof.
  intros Hm He h. rewrite getCmd_spec, wordSize_spec, memDepth_spec, getXid_spec.
  unfold CMD_Q, h. repeat split; Z.div_mod_to_equations; lia.
Qed.

Lemma sq_pow x : x ^ 128 = (x ^ 64) ^ 2.
Proof. rewrite <- Z.pow_mul_r by lia. f_equal. Qed.

Lemma pow10_shift c k : 0 <= c -> 0 <= k -> 10 ^ (2 * c + 1151 + k) = 10 ^ k * 10 ^ (2 * c + 1151).
Proof. intros Hc Hk. rewrite Z.add_comm, Z.pow_add_r by lia. reflexivity. Qed.

Lemma cvt_square c : 0 <= c ->
  (2 ^ 64 * 10 ^ (c + 576)) ^ 2 = 2 ^ 128 * 10 * 10 ^ (2 * c + 1151).
Proof.
  intros Hc. rewrite Z.pow_mul_l, <- !Z.pow_mul_r by lia.
  replace ((c + 576) * 2) with (2 * c + 1151 + 1) by lia. rewrite pow10_shift by lia.
  change (64 * 2) with 128. ring.
Qed.

(** Encoding then decoding moves a period by at most the code's half step
    and the rounding to an integer. *)
Lemma quantization R p c d : 1 <= R -> 1 <= p -> 0 <= c -> 0 <= d ->
  code_bracket c (p * R) -> period_bracket R c d -> period_close p d.
Proof.
  intros HR Hp Hc Hd [El Eh] [Cl Ch]. unfold period_close.
  assert (Hm : (2 * d - 1) ^ 128 = Z.max 0 (2 * d - 1) ^ 128 \/ (2 * d - 1) ^ 128 = 1).
  { clear - Hd. destruct (Z.max_spec 0 (2 * d - 1)) as [[_ ->]|[H ->]]; [now left|right].
    replace (2 * d - 1) with (-1) by lia. reflexivity. }
  assert (HR0 : 0 < R ^ 128) by (clear - HR; apply Z.pow_pos_nonneg; lia).
  assert (Hp0 : 1 <= p ^ 128) by (clear - Hp; assert (0 < p ^ 128) by (apply Z.pow_pos_nonneg; lia); lia).
  assert (Sl : ((Z.max 0 (2 * d - 1) * R) ^ 64) ^ 2 <= (2 ^ 64 * 10 ^ (c + 576)) ^ 2).
  { apply Z.pow_le_mono_l. split; [|exact Cl]. apply Z.pow_nonneg. clear - HR. nia. }
  assert (Sh : (2 ^ 64 * 10 ^ (c + 576)) ^ 2 < (((2 * d + 1) * R) ^ 64) ^ 2).
  { apply Z.pow_lt_mono_l; [lia|]. split; [|exact Ch].
    apply Z.mul_nonneg_nonneg; apply Z.pow_nonneg; clear - Hc; lia. }
  assert (HM : 0 <= Z.max 0 (2 * d - 1) ^ 128) by (apply Z.pow_nonneg; clear; lia).
  rewrite <- (sq_pow (Z.max 0 (2 * d - 1) * R)), cvt_square in Sl by exact Hc.
  rewrite <- (sq_pow ((2 * d + 1) * R)), cvt_square in Sh by exact Hc.
  replace (2 * c + 1153) with (2 * c + 1151 + 2) in Eh by (clear - Hc; lia).
  rewrite pow10_shift in Eh by (clear - Hc; lia).
  rewrite !Z.pow_mul_l in *. clear Cl Ch.
  assert (HK : 1 <= 2 ^ 128) by (clear; lia).
  revert Sl Sh El Eh Hm HM HR0 Hp0 HK.
  generalize (R ^ 128) (p ^ 128) (2 ^ 128) (10 ^ (2 * c + 1151))
    (Z.max 0 (2 * d - 1) ^ 128) ((2 * d + 1) ^ 128) ((2 * d - 1) ^ 128).
  intros Rr P K T M N X Sl Sh El Eh Hm HM HR0 Hp0 HK.
  assert (KE : K * T <= K * (P * Rr)) by (apply Z.mul_le_mono_nonneg_l; lia).
  assert (KE' : K * (P * Rr) < K * (100 * T)) by (apply Z.mul_lt_mono_pos_l; lia).
  split.
  - assert (M <= 10 * (K * P)); [|destruct Hm; subst; nia].
    rewrite (Z.mul_le_mono_pos_r _ _ Rr HR0). nia.
  - rewrite (Z.mul_lt_mono_pos_r Rr _ _ HR0). nia.
Qed.

Lemma pow_root_bound a b : 1 <= b -> a ^ 128 <= 10 * b ^ 128 -> a < 2 * b.
Proof.
  intros Hb H. destruct (Z.lt_ge_cases a (2 * b)) as [|Hge]; [assumption|exfalso].
  assert (Hp : (2 * b) ^ 128 <= a ^ 128) by (apply Z.pow_le_mono_l; lia).
  rewrite Z.pow_mul_l in Hp. assert (1 <= b ^ 128) by (assert (0 < b ^ 128) by (apply Z.pow_pos_nonneg; lia); lia).
  revert H Hp H0. generalize (a ^ 128) (b ^ 128). intros A B. lia.
Qed.

Lemma close_bound p d : 1 <= p -> period_close p d -> 2 * d - 1 < 2 * (2 * p).
Proof. intros Hp [Q _]. apply pow_root_bound; [clear Q; lia|exact Q]. Qed.

Lemma enc_code_small c : -576 <= c < 2 ^ 32 -> 1 <= u32 c <= 255 -> u32 c = c.
Proof.
  intros Hc Hu. unfold u32, wrap in *. destruct (Z.lt_ge_cases c 0).
  - rewrite <- (Z.mod_unique c (2 ^ 32) (-1) (c + 2 ^ 32)) in Hu by lia. lia.
  - apply Z.mod_small. lia.
Qed.

Lemma pow10_lt_exp a b : 0 <= b -> 10 ^ a < 10 ^ b -> a < b.
Proof.
  intros Hb H. destruct (Z.lt_ge_cases a b) as [|Hge]; [assumption|exfalso].
  pose proof (Z.pow_le_mono_r 10 _ _ ltac:(lia) Hge) as F.
  revert H F. generalize (10 ^ a) (10 ^ b). intros. lia.
Qed.

Lemma enc_code_upper R p c : 1 <= R <= 10 ^ 9 -> 1 <= p < 2 ^ 8 ->
  code_bracket c (p * R) -> c < 2 ^ 32.
Proof.
  intros HR Hp [H _]. assert (B : 0 <= p * R < 10 ^ 13) by (clear H; nia).
  pose proof (Z.pow_lt_mono_l (p * R) (10 ^ 13) 128 ltac:(lia) B) as Hlt.
  rewrite <- Z.pow_mul_r in Hlt by lia.
  pose proof (Z.le_lt_trans _ _ _ H Hlt) as E.
  apply pow10_lt_exp in E; [|clear; lia]. clear - E. lia.
Qed.

Lemma enc_code_lower R p c : 1 <= R -> 1 <= p -> code_bracket c (p * R) -> -576 <= c.
Proof.
  intros HR Hp [_ H]. destruct (Z.lt_ge_cases (2 * c + 1153) 0) as [Hn|]; [|lia].
  rewrite (Z.pow_neg_r _ _ Hn) in H. assert (0 < (p * R) ^ 128) by (clear H; apply Z.pow_pos_nonneg; nia).
  revert H H0. generalize ((p * R) ^ 128). intros. lia.
Qed.

(** C15: The query reply built by [mkQueryReply] for a word size in
    [1, 16], a memory depth below [2^16] and a period of [1 .. 255] ns whose
    code is in [1, 255] decodes, through [getCmd], [wordSize], [memDepth]
    and [cvtPerNs], to the same command, word size and depth, and to a
    period [d] within the quantisation of the 8-bit code: [d] rounds a value
    within a factor [10^(1/128)] of [p], for every reference frequency up
    to 1 GHz. *)
Theorem mkQueryReply_roundtrip R ws md p :
  1 <= R <= 10 ^ 9 -> 1 <= ws <= 16 -> 0 <= md < 2 ^ 16 -> 1 <= p < 2 ^ 8 ->
  1 <= encPerNs R p <= 255 ->
  exists h, mkQueryReply R PVER0 ws md p = Ret h /\
    getCmd h = CMD_Q /\ wordSize h = ws /\ memDepth h = md /\ getXid h = encPerNs R p /\
    period_close p (cvtPerNs R h).
Proof.
  intros HR Hw Hm Hp He.
  destruct (encPerNs_spec R p) as (c & Ec & El); [lia|lia|].
  pose proof (enc_code_lower R p c ltac:(lia) ltac:(lia) El) as Hlo.
  pose proof (enc_code_upper R p c HR Hp El) as Hhi.
  assert (Hc : encPerNs R p = c) by (rewrite Ec in *; apply enc_code_small; lia).
  rewrite Hc in He |- *. clear Ec.
  exists ((ws - 1) mod 16 + (md + c * 2 ^ 16) * 2 ^ 4).
  rewrite mkQueryReply_value, Hc, (Z.mod_small c) by lia.
  destruct (query_fields ws md c) as (F1 & F2 & F3 & F4); [lia|lia|].
  set (h := (ws - 1) mod 16 + (md + c * 2 ^ 16) * 2 ^ 4) in *.
  destruct (cvtPerNs_spec R h) as (d & Ed & Hd & Cl); [lia|lia|].
  rewrite F4 in Cl.
  pose proof (quantization R p c d ltac:(lia) ltac:(lia) ltac:(lia) Hd El Cl) as Q.
  pose proof (close_bound p d ltac:(lia) Q) as Hd2.
  rewrite Ed. unfold u32. rewrite wrap_small by lia.
  refine (conj eq_refl (conj F1 (conj _ (conj F3 (conj F4 Q))))).
  rewrite F2, Z.mod_small; lia.
Qed.

Lemma code_bracket_unique c c' y : code_bracket c y -> code_bracket c' y -> c = c'.
Proof.
  unfold code_bracket. intros [L1 H1] [L2 H2].
  assert (Gen : forall a b, 10 ^ (2 * a + 1151) <= y ^ 128 -> y ^ 128 < 10 ^ (2 * b + 1153) -> a <= b).
  { intros a b La Hb. destruct (Z.lt_ge_cases (2 * b + 1153) 0) as [Hn|Hn].
    - rewrite (Z.pow_neg_r _ _ Hn) in Hb. pose proof (Z.pow_nonneg 10 (2 * a + 1151)).
      revert La Hb H. generalize (y ^ 128) (10 ^ (2 * a + 1151)). intros. lia.
    - assert (E : 10 ^ (2 * a + 1151) < 10 ^ (2 * b + 1153)) by (revert La Hb; generalize (y ^ 128); intros; lia).
      apply pow10_lt_exp in E; [|exact Hn]. clear - E. lia. }
  pose proof (Gen c c' L1 H2). pose proof (Gen c' c L2 H1). lia.
Qed.

(** C16: A period whose code rounds to 0 (at 200 MHz, 5 ns) is sent
    as the code 0, which the decoder reads as [UNKNOWN_PERIOD]: the
    encoder does not keep the reserved value out of the code space. *)
Theorem mkQueryReply_reserved_code R ws md p :
  1 <= R -> 0 <= ws <= 16 -> 0 <= md < 2 ^ 16 -> 1 <= p < 2 ^ 8 ->
  10 ^ 1151 <= (p * R) ^ 128 < 10 ^ 1153 ->
  exists h, mkQueryReply R PVER0 ws md p = Ret h /\ getXid h = 0 /\ cvtPerNs R h = UNKNOWN_PERIOD.
Proof.
  intros HR Hw Hm Hp H0. change (code_bracket 0 (p * R)) in H0.
  destruct (encPerNs_spec R p) as (c & Ec & El); [lia|lia|].
  rewrite (code_bracket_unique c 0 (p * R) El H0) in Ec. clear El H0.
  exists ((ws - 1) mod 16 + (md + 0 * 2 ^ 16) * 2 ^ 4).
  rewrite mkQueryReply_value, Ec by lia.
  destruct (query_fields ws md 0) as (_ & _ & _ & F4); [lia|lia|].
  split; [reflexivity|]. split; [exact F4|].
  unfold cvtPerNs. change (Z.land (Z.shiftr ?h XID_SHIFT) 255) with (getXid h). rewrite F4. reflexivity.
Qed.

(** C17: [mkQueryReply] returns a header exactly when the protocol
    version is [PVER0], the word size is at most 16, the depth below [2^16]
    and the period (in ns, not its code) below 256; otherwise it throws. *)
Theorem mkQueryReply_accepts R pv ws md p :
  0 <= ws -> 0 <= md -> 0 <= p ->
  (exists h, mkQueryReply R pv ws md p = Ret h) <-> (pv = PVER0 /\ ws <= 16 /\ md < 2 ^ 16 /\ p < 2 ^ 8).
Proof.
  intros Hw Hm Hp. split.
  - intros [h Eh]. unfold mkQueryReply in Eh. bool_cases; cbn in Eh; try discriminate. auto.
  - intros (-> & Hw' & Hm' & Hp'). eexists. apply mkQueryReply_value; lia.
Qed.

(** A word size of 0 is accepted and decodes as 16: [(wordSize - 1)]
    wraps before it is masked. *)
Lemma mkQueryReply_wordSize_zero R md p :
  0 <= md < 2 ^ 16 -> 0 <= p < 2 ^ 8 ->
  exists h, mkQueryReply R PVER0 0 md p = Ret h /\ wordSize h = 16.
Proof.
  intros Hm Hp. eexists. rewrite mkQueryReply_value by lia. split; [reflexivity|].
  destruct (query_fields 0 md (encPerNs R p mod 256)) as (_ & F2 & _); [lia|apply Z.mod_pos_bound; lia|].
  rewrite F2. reflexivity.
Qed.

Lemma root2k_mono k a b : 0 <= a <= b -> root2k k a <= root2k k b.
Proof.
  revert a b. induction k as [|k IH]; intros a b H; cbn [root2k]; [lia|].
  apply IH. split; [apply Z.sqrt_nonneg|apply Z.sqrt_le_mono; lia].
Qed.

(** The argument of the root in [cvtPerNs] is at most [2^64 * 10^575]
    for a reference frequency of at least 10 kHz. *)
Lemma cvt_arg_bound R raw : 10 ^ 4 <= R -> 1 <= raw <= 255 ->
  0 <= 2 ^ 64 * 10 ^ (raw + 576) / R ^ 64 <= 2 ^ 64 * 10 ^ 575.
Proof.
  intros HR Hr.
  assert (P : 0 < R ^ 64) by (apply Z.pow_pos_nonneg; lia).
  assert (Q : 0 < (10 ^ 4) ^ 64) by (apply Z.pow_pos_nonneg; lia).
  split; [apply Z.div_pos; [apply Z.mul_nonneg_nonneg; apply Z.pow_nonneg; lia|exact P]|].
  apply Z.le_trans with (2 ^ 64 * 10 ^ 831 / R ^ 64).
  { apply Z.div_le_mono; [exact P|]. apply Z.mul_le_mono_nonneg_l; [apply Z.pow_nonneg; lia|].
    apply Z.pow_le_mono_r; lia. }
  apply Z.le_trans with (2 ^ 64 * 10 ^ 831 / (10 ^ 4) ^ 64).
  { apply Z.div_le_compat_l; [apply Z.mul_nonneg_nonneg; apply Z.pow_nonneg; lia|].
    split; [exact Q|]. apply Z.pow_le_mono_l. lia. }
  apply Z.leb_le. vm_compute. reflexivity.
Qed.

Lemma cvt_root_small R raw : 10 ^ 4 <= R -> 1 <= raw <= 255 ->
  0 <= root2k 6 (2 ^ 64 * 10 ^ (raw + 576) / R ^ 64) < 2 ^ 32.
Proof.
  intros HR Hr. destruct (cvt_arg_bound R raw HR Hr) as [B0 B1].
  destruct (root2k_spec 6 _ B0) as (H0 & Hlo & _). change (2 ^ Z.of_nat 6) with 64 in Hlo.
  set (n := 2 ^ 64 * 10 ^ (raw + 576) / R ^ 64) in *. set (r := root2k 6 n) in *.
  clearbody r n. split; [exact H0|].
  destruct (Z.lt_ge_cases r (2 ^ 32)) as [Hlt|Hge]; [exact Hlt|exfalso].
  assert (Big : 2 ^ 64 * 10 ^ 575 < (2 ^ 32) ^ 64) by (apply Z.ltb_lt; vm_compute; reflexivity).
  pose proof (Z.pow_le_mono_l (2 ^ 32) r 64 (conj (Z.pow_nonneg 2 32 ltac:(lia)) Hge)) as M.
  apply (Z.lt_irrefl (r ^ 64)). eapply Z.le_lt_trans; [exact Hlo|].
  eapply Z.le_lt_trans; [exact B1|]. eapply Z.lt_le_trans; [exact Big|exact M].
Qed.

(** C18: The decoded period grows with the 8-bit code: [cvtPerNs] is a
    monotone quantization, for every reference frequency of at least
    10 kHz (which keeps the result below [2^32]). *)
Theorem cvtPerNs_monotone R h1 h2 :
  10 ^ 4 <= R -> 1 <= getXid h1 <= getXid h2 -> cvtPerNs R h1 <= cvtPerNs R h2.
Proof.
  intros HR Hx. pose proof (getXid_spec h2) as X2.
  assert (H2 : getXid h2 <= 255) by (rewrite X2; pose proof (Z.mod_pos_bound (h2 / 2 ^ 20) 256); lia).
  clear X2. unfold cvtPerNs.
  change (Z.land (Z.shiftr h1 XID_SHIFT) 255) with (getXid h1).
  change (Z.land (Z.shiftr h2 XID_SHIFT) 255) with (getXid h2).
  rewrite (proj2 (Z.eqb_neq (getXid h1) 0)), (proj2 (Z.eqb_neq (getXid h2) 0)) by lia.
  pose proof (cvt_root_small R (getXid h1) HR ltac:(lia)) as S1.
  pose proof (cvt_root_small R (getXid h2) HR ltac:(lia)) as S2.
  assert (M : root2k 6 (2 ^ 64 * 10 ^ (getXid h1 + 576) / R ^ 64) <=
              root2k 6 (2 ^ 64 * 10 ^ (getXid h2 + 576) / R ^ 64)).
  { apply root2k_mono. split; [apply (cvt_arg_bound R (getXid h1)); lia|].
    apply Z.div_le_mono; [apply Z.pow_pos_nonneg; lia|].
    apply Z.mul_le_mono_nonneg_l; [apply Z.pow_nonneg; lia|]. apply Z.pow_le_mono_r; lia. }
  revert S1 S2 M. generalize (root2k 6 (2 ^ 64 * 10 ^ (getXid h1 + 576) / R ^ 64)),
    (root2k 6 (2 ^ 64 * 10 ^ (getXid h2 + 576) / R ^ 64)). intros r1 r2 S1 S2 M.
  unfold u32. rewrite !wrap_small by (split; [apply Z.div_pos|apply Z.div_lt_upper_bound]; lia).
  apply Z.div_le_mono; lia.
Qed.

(** A 10 ns period at 200 MHz (code 19) goes through the reply. *)
Lemma mkQueryReply_roundtrip_witness :
  exists h, mkQueryReply 200000000 PVER0 4 512 10 = Ret h /\
    getCmd h = CMD_Q /\ wordSize h = 4 /\ memDepth h = 512 /\
    getXid h = encPerNs 200000000 10 /\ period_close 10 (cvtPerNs 200000000 h).
Proof.
  apply mkQueryReply_roundtrip; [lia|lia|lia|lia|vm_compute; split; discriminate].
Defined.

(** A 5 ns period at 200 MHz is reported as unknown. *)
Lemma mkQueryReply_reserved_code_witness :
  exists h, mkQueryReply 200000000 PVER0 4 512 5 = Ret h /\ getXid h = 0 /\
    cvtPerNs 200000000 h = UNKNOWN_PERIOD.
Proof.
  apply mkQueryReply_reserved_code; [lia|lia|lia|lia|vm_compute; split; [discriminate|reflexivity]].
Defined.

Lemma mkQueryReply_accepts_witness :
  (exists h, mkQueryReply 200000000 PVER0 17 512 10 = Ret h) <->
  (PVER0 = PVER0 /\ 17 <= 16 /\ 512 < 2 ^ 16 /\ 10 < 2 ^ 8).
Proof. apply mkQueryReply_accepts; lia. Defined.

Lemma mkQueryReply_wordSize_zero_witness :
  exists h, mkQueryReply 200000000 PVER0 0 512 10 = Ret h /\ wordSize h = 16.
Proof. apply mkQueryReply_wordSize_zero; lia. Defined.

(** Codes 1 and 2 at 200 MHz. *)
Lemma cvtPerNs_monotone_witness :
  cvtPerNs 200000000 (1 * 2 ^ 20) <= cvtPerNs 200000000 (2 * 2 ^ 20).
Proof. apply cvtPerNs_monotone; concrete. Defined.

End Period.

