(* ===== verification/Transport.v ===== *)
(** * The transport interface

    [JtagDriver] (src/xvcSrv/src/xvcSrv.cc lines 38-73) is the base class
    of every driver: it keeps the debug level, the fault-injection counter
    [drop_] and its enable flag [drEn_].  The one operation the protocol
    engine needs from a concrete transport is the virtual [xfer], which
    performs exactly one word-level round trip: it sends [txBytes] bytes,
    writes the reply header into [hdbuf] and at most [size] payload bytes
    into [rxb], and returns the number of payload bytes, or throws.  The
    class [Transport] states this interface; [TransportLaws] states the
    memory contract the engine relies on (the transport writes inside the
    buffers it is given).  [Script] is a simulated peer that replays a
    list of replies and records each request, the test double against
    which the engine's retry behaviour is stated. *)

From Stdlib Require Import ZArith String List Lia.
From S2P Require Import Prelude Header.
Import ListNotations.

Module Jtag.
Open Scope Z_scope.

(** ** The base class [JtagDriver] *)

(** [snif_] (the JTAG state dump of the [-s] option) only prints. *)
Record JtagBase : Type := mkBase {
  debug_ : Z;
  drop_ : Z;
  drEn_ : bool
}.

Definition JtagDriver_new (debug : Z) : JtagBase :=
  {| debug_ := debug; drop_ := 0; drEn_ := false |}.

Definition setDebug (debug : Z) (b : JtagBase) : JtagBase :=
  {| debug_ := debug; drop_ := drop_ b; drEn_ := drEn_ b |}.

Definition setTestMode (flags : Z) (b : JtagBase) : JtagBase :=
  {| debug_ := debug_ b; drop_ := drop_ b; drEn_ := negb (Z.land flags 1 =? 0) |}.

Definition getDebug (b : JtagBase) : Z := Z.land (debug_ b) 255.

Definition getSniff (b : JtagBase) : bool := negb (Z.land (debug_ b) 256 =? 0).

(** ** One transfer *)

(** What [xfer] leaves behind, on success and on a throw alike: the
    base members, the transport's own state, the header buffer and the
    receive buffer (both written through pointers). *)
Record xfer_result (T : Type) : Type := mkXfer {
  xr_base : JtagBase;
  xr_drv : T;
  xr_hd : list Z;
  xr_rx : list Z;
  xr_out : outcome xvc_exn Z
}.
Arguments mkXfer {T}.
Arguments xr_base {T}. Arguments xr_drv {T}. Arguments xr_hd {T}.
Arguments xr_rx {T}. Arguments xr_out {T}.

(** [xfer base drv txb hdbuf hsize rxb size]: [txb] holds exactly the
    [txBytes] bytes sent. *)
Class Transport (T : Type) : Type := {
  xfer : JtagBase -> T -> list Z -> list Z -> nat -> list Z -> nat -> xfer_result T;
  getMaxVectorSize : T -> Z
}.

(** The memory contract: [xfer] writes [hsize] header bytes into a
    header buffer that holds them, writes inside the receive buffer, and
    returns a count of at most [size]. *)
Class TransportLaws (T : Type) `{Transport T} : Prop := {
  xfer_hd_length : forall b d tx hd hs rx sz,
    (hs <= length hd)%nat -> length (xr_hd (xfer b d tx hd hs rx sz)) = length hd;
  xfer_rx_length : forall b d tx hd hs rx sz,
    (sz <= length rx)%nat -> length (xr_rx (xfer b d tx hd hs rx sz)) = length rx;
  xfer_got_bound : forall b d tx hd hs rx sz got,
    xr_out (xfer b d tx hd hs rx sz) = Ret got -> 0 <= got <= Z.of_nat sz
}.

(** ** A scripted peer *)

(** A reply is a header word (sent as [hsize] little-endian bytes,
    zero-padded) and a payload, or a transport exception.  An exhausted
    script times out, like a silent peer. *)
Inductive reply : Type :=
| Reply (hdr : Z) (payload : list Z)
| Fail (e : xvc_exn).

Record Script : Type := mkScript {
  replies : list reply;
  sent : list (list Z)
}.

(** Overwrite the first bytes of [dst] with [src], truncated to [dst]. *)
Definition fill (dst src : list Z) : list Z :=
  firstn (length dst) src ++ skipn (length src) dst.

Definition script_xfer (b : JtagBase) (s : Script) (tx hd : list Z) (hs : nat)
    (rx : list Z) (sz : nat) : xfer_result Script :=
  let s' := {| replies := tl (replies s); sent := sent s ++ [tx] |} in
  match replies s with
  | [] => mkXfer b s' hd rx (Throw (TimeoutErr ""))
  | Fail e :: _ => mkXfer b s' hd rx (Throw e)
  | Reply h p :: _ =>
      let p' := firstn sz p in
      mkXfer b s' (fill hd (le_bytes hs h)) (fill rx p') (Ret (Z.of_nat (length p')))
  end.

Definition is_timeout_reply (r : reply) : Prop :=
  match r with Fail e => is_timeout e = true | Reply _ _ => False end.

#[export] Instance Script_transport : Transport Script := {
  xfer := script_xfer;
  getMaxVectorSize := fun _ => 0
}.

(** ** Facts *)

Lemma length_fill dst src : length (fill dst src) = length dst.
Proof.
  unfold fill. rewrite length_app, length_firstn, length_skipn. lia.
Qed.

Lemma getw32_fill_le_bytes hd hs h :
  (4 <= hs)%nat -> (4 <= length hd)%nat ->
  le_val (firstn 4 (fill hd (le_bytes hs h))) = h mod 2 ^ 32.
Proof.
  intros Hs Hd. unfold fill. rewrite firstn_app, length_firstn, length_le_bytes.
  rewrite firstn_firstn, Nat.min_l by lia.
  replace (4 - Nat.min (length hd) hs)%nat with 0%nat by lia. rewrite firstn_O, app_nil_r.
  replace hs with (4 + (hs - 4))%nat by lia.
  rewrite le_bytes_add, firstn_app, length_le_bytes, Nat.sub_diag, firstn_O, app_nil_r.
  rewrite firstn_all2 by (rewrite length_le_bytes; lia).
  apply le_val_le_bytes.
Qed.

#[export] Instance Script_laws : TransportLaws Script.
Proof.
  split.
  - intros b d tx hd hs rx sz Hhs. simpl. unfold script_xfer.
    destruct (replies d) as [|[h p|e] r]; simpl; auto using length_fill.
  - intros b d tx hd hs rx sz Hsz. simpl. unfold script_xfer.
    destruct (replies d) as [|[h p|e] r]; simpl; auto using length_fill.
  - intros b d tx hd hs rx sz got. simpl. unfold script_xfer.
    destruct (replies d) as [|[h p|e] r]; simpl; try discriminate.
    intros [= <-]. rewrite length_firstn. lia.
Qed.

End Jtag.
