(* ===== verification/Driver.v ===== *)
(** * The protocol engine [JtagDriverAxisToJtag]: members and [xferRel]

    The driver of src/xvcSrv/src/xvcSrv.cc lines 95-340, over any
    transport of the class [Jtag.Transport]: its members as the record
    [state], its member functions as computations of the exception and
    state monad of [Prelude] (a throw keeps the member updates made before
    it).  [xferRel] is the reliable transfer engine: retry on timeout, xid
    matching, error replies.  [wf] is the member invariant the engine
    needs.
    [Negotiation] ([query]) and [Reformatter] ([sendVectors]) build on
    this file. *)

From Stdlib Require Import ZArith String List Lia.
From S2P Require Import Prelude Header Period Transport.
Import ListNotations Codec Period Jtag.

Module AxisToJtag.
Open Scope xvc_scope.
Open Scope Z_scope.

Section Driver.
Context {T : Type} `{Transport T}.

(** ** Members *)

(** [txBuf_] is modelled as the [bufSz_] bytes of its reserved
    storage (the code writes through [&txBuf_[0]] into the capacity);
    [hdBuf_] holds [hdBufMax()] = 16 bytes. *)
Record state : Type := mkState {
  base : JtagBase;
  drv : T;
  wordSize_ : nat;
  memDepth_ : nat;
  retry_ : nat;
  periodNs_ : Z;
  bufSz_ : nat;
  txBuf_ : list Z;
  hdBuf_ : list Z;
  xid_ : Z
}.

Definition M (A : Type) : Type := ESM state xvc_exn A.

Definition hdBufMax : nat := 16.

(** The constructor; [xid_] is not initialised by it, so its first
    value [xid0] is arbitrary. *)
Definition JtagDriverAxisToJtag_new (debug : Z) (d : T) (xid0 : Z) : state :=
  {| base := JtagDriver_new debug; drv := d;
     wordSize_ := HDR_BYTES; memDepth_ := 1; retry_ := 5;
     periodNs_ := UNKNOWN_PERIOD; bufSz_ := 2048;
     txBuf_ := repeat 0%Z 2048; hdBuf_ := repeat 0%Z hdBufMax; xid_ := xid0 |}.

Definition getWordSize (s : state) : nat := wordSize_ s.
Definition getMemDepth (s : state) : nat := memDepth_ s.
Definition getPeriodNs (s : state) : Z := periodNs_ s.

Definition setPeriodNs (requestedPeriod : Z) (s : state) : Z :=
  let currentPeriod := getPeriodNs s in
  if (requestedPeriod =? 0)%Z then currentPeriod
  else if (UNKNOWN_PERIOD =? currentPeriod)%Z then requestedPeriod else currentPeriod.

(** Member updates. *)
Definition after_xfer (s : state) (r : xfer_result T) : state :=
  {| base := xr_base r; drv := xr_drv r; wordSize_ := wordSize_ s;
     memDepth_ := memDepth_ s; retry_ := retry_ s; periodNs_ := periodNs_ s;
     bufSz_ := bufSz_ s; txBuf_ := txBuf_ s; hdBuf_ := xr_hd r; xid_ := xid_ s |}.

Definition set_txBuf (b : list Z) (s : state) : state :=
  {| base := base s; drv := drv s; wordSize_ := wordSize_ s;
     memDepth_ := memDepth_ s; retry_ := retry_ s; periodNs_ := periodNs_ s;
     bufSz_ := bufSz_ s; txBuf_ := b; hdBuf_ := hdBuf_ s; xid_ := xid_ s |}.

Definition set_xid (x : Z) (s : state) : state :=
  {| base := base s; drv := drv s; wordSize_ := wordSize_ s;
     memDepth_ := memDepth_ s; retry_ := retry_ s; periodNs_ := periodNs_ s;
     bufSz_ := bufSz_ s; txBuf_ := txBuf_ s; hdBuf_ := hdBuf_ s; xid_ := x |}.

Definition set_wordSize (w : nat) (s : state) : state :=
  {| base := base s; drv := drv s; wordSize_ := w;
     memDepth_ := memDepth_ s; retry_ := retry_ s; periodNs_ := periodNs_ s;
     bufSz_ := bufSz_ s; txBuf_ := txBuf_ s; hdBuf_ := hdBuf_ s; xid_ := xid_ s |}.

(** [memDepth_], [periodNs_] and [retry_], set in this order by
    [query] with no throw in between. *)
Definition set_params (md : nat) (per : Z) (rt : nat) (s : state) : state :=
  {| base := base s; drv := drv s; wordSize_ := wordSize_ s;
     memDepth_ := md; retry_ := rt; periodNs_ := per;
     bufSz_ := bufSz_ s; txBuf_ := txBuf_ s; hdBuf_ := hdBuf_ s; xid_ := xid_ s |}.

(** [bufSz_ = siz; txBuf_.reserve(bufSz_)]: the storage grows to [siz]
    bytes; the new bytes are indeterminate (modelled as zeros). *)
Definition grow (siz : nat) (s : state) : state :=
  {| base := base s; drv := drv s; wordSize_ := wordSize_ s;
     memDepth_ := memDepth_ s; retry_ := retry_ s; periodNs_ := periodNs_ s;
     bufSz_ := siz; txBuf_ := txBuf_ s ++ repeat 0%Z (siz - length (txBuf_ s));
     hdBuf_ := hdBuf_ s; xid_ := xid_ s |}.

Definition lift_mem {A} (o : option A) : M A :=
  match o with Some a => esm_ret a | None => esm_throw MemFault end.

(** ** [xferRel] *)

Definition errMsg (e : Z) : string :=
  ("Got error response from server -- " ++
   match getMsg e with Some m => m | None => "error " ++ fmt_int e end)%string.

(** [n] attempts are left; the [catch] swallows [TimeoutErr] only. *)
Fixpoint xferRel_loop (n : nat) (xid : Z) (txb rxb : list Z) (sizeBytes : nat)
    : M (Z * Z * list Z) :=
  fun s =>
    match n with
    | O => (s, Throw (TimeoutErr ""))
    | S n' =>
        let r := xfer (base s) (drv s) txb (hdBuf_ s) (getWordSize s) rxb sizeBytes in
        let s1 := after_xfer s r in
        match xr_out r with
        | Throw e =>
            if is_timeout e then xferRel_loop n' xid txb (xr_rx r) sizeBytes s1
            else (s1, Throw e)
        | Ret got =>
            let hdr := getHdr (hdBuf_ s1) in
            let e := getErr hdr in
            if negb (e =? 0)%Z then (s1, Throw (ProtoErr (errMsg e)))
            else if ((xid =? XID_ANY)%Z || (xid =? getXid hdr)%Z)%bool
            then (s1, Ret (got, hdr, xr_rx r))
            else xferRel_loop n' xid txb (xr_rx r) sizeBytes s1
        end
    end.

(** [for (attempt = 0; attempt <= retry_; attempt++)]: [retry_ + 1]
    attempts.  The transport reads [txBytes] bytes of [txb]: a read
    past the buffer is [MemFault].  Returns [got], the reply header and
    the receive buffer. *)
Definition xferRel (txb : list Z) (txBytes : nat) (rxb : list Z) (sizeBytes : nat)
    : M (Z * Z * list Z) :=
  fun s =>
    match slice txb 0 txBytes with
    | None => (s, Throw MemFault)
    | Some tx => xferRel_loop (S (retry_ s)) (getXid (getHdr txb)) tx rxb sizeBytes s
    end.

(** ** The invariant of the members *)

(** The members a transfer leaves alone. *)
Definition frame (s : state) :=
  (wordSize_ s, memDepth_ s, retry_ s, periodNs_ s, bufSz_ s, txBuf_ s, xid_ s).

(** The word size is a valid header size (4 to 16 bytes, so that
    [setHdr] and the header buffer are in bounds), the header buffer
    has its 16 bytes, the transmit storage has [bufSz_] bytes, and it
    holds the largest request the target accepts, and never exceeds
    2 MiB. *)
Definition wf (s : state) : Prop :=
  (4 <= wordSize_ s <= 16)%nat /\ length (hdBuf_ s) = hdBufMax /\
  length (txBuf_ s) = bufSz_ s /\ ((2 * memDepth_ s + 1) * wordSize_ s <= bufSz_ s)%nat /\
  Z.of_nat (bufSz_ s) <= 2 ^ 21.

End Driver.

(** Unfold the member updates and reduce the projections. *)
Ltac simpl_state :=
  unfold wf, grow, set_params, set_wordSize, set_txBuf, set_xid, after_xfer in *;
  simpl in *.

(** One attempt of [xferRel_loop]: case on the transport's outcome and
    on every test of the reply, keeping each test's result. *)
Ltac attempt_cases :=
  repeat match goal with
  | |- context [match xr_out ?r with Ret _ => _ | Throw _ => _ end] => destruct (xr_out r) eqn:?
  | |- context [if ?b then _ else _] =>
      lazymatch b with true => fail | false => fail | _ => destruct b eqn:? end
  end.

(** Turn the results of the reply tests into propositions. *)
Ltac bool_facts :=
  repeat match goal with
  | H : negb _ = false |- _ => apply Bool.negb_false_iff in H
  | H : (_ || _)%bool = true |- _ => apply Bool.orb_true_iff in H
  | H : (_ =? _)%Z = true |- _ => apply Z.eqb_eq in H
  | H : _ = true \/ _ = true |- _ => destruct H as [H|H]
  end.

(** [wf] of a state built from constants. *)
Ltac wf_concrete := unfold wf; cbn; unfold HDR_BYTES, hdBufMax; cbn; repeat split; lia.

(** ** Facts *)

Section Generic.
Context {T : Type} `{Transport T}.

Lemma xferRel_loop_frame n xid tx rx sz s :
  frame (fst (xferRel_loop n xid tx rx sz s)) = frame s.
Proof.
  revert rx s; induction n as [|n IH]; intros rx s; [reflexivity|].
  cbn [xferRel_loop]. attempt_cases; cbn [fst]; rewrite ?IH; reflexivity.
Qed.

Lemma xferRel_loop_wf `{!TransportLaws T} n xid tx rx sz s :
  wf s -> wf (fst (xferRel_loop n xid tx rx sz s)).
Proof.
  revert rx s; induction n as [|n IH]; intros rx s Hwf; [exact Hwf|].
  assert (Hs1 : wf (after_xfer s (xfer (base s) (drv s) tx (hdBuf_ s) (getWordSize s) rx sz))).
  { destruct Hwf as (Hw & Hh & Ht & Hb & Hm). unfold wf; cbn. repeat split; try lia.
    rewrite xfer_hd_length; unfold getWordSize, hdBufMax in *; lia. }
  cbn [xferRel_loop]. attempt_cases; cbn [fst]; first [now apply IH | exact Hs1].
Qed.

(** C1: Every reply [xferRel] returns is error-free, carries the request's
    transaction id unless the request used the wildcard [XID_ANY], and is
    the header [getHdr] reads from the header buffer. *)
Theorem xferRel_accepts tx k rx sz s s' got hdr rx' :
  xferRel tx k rx sz s = (s', Ret (got, hdr, rx')) ->
  getErr hdr = 0 /\ (getXid (getHdr tx) = XID_ANY \/ getXid hdr = getXid (getHdr tx)) /\
  hdr = getHdr (hdBuf_ s').
Proof.
  unfold xferRel. destruct (slice tx 0 k) as [tx'|]; [|discriminate].
  match goal with |- xferRel_loop ?n ?x _ _ _ _ = _ -> _ => generalize n as m; generalize x as xid end.
  intros xid n. revert rx s. induction n as [|n IH]; intros rx s; [discriminate|].
  cbn [xferRel_loop]. attempt_cases; first [apply IH | discriminate | intros [= <- <- <- <-]].
  bool_facts; cbn [after_xfer hdBuf_] in *;
    (split; [assumption|split; [first [left; congruence | right; congruence]|reflexivity]]).
Qed.

Lemma xferRel_wf `{!TransportLaws T} tx k rx sz s :
  wf s -> wf (fst (xferRel tx k rx sz s)).
Proof. unfold xferRel. destruct (slice tx 0 k); [apply xferRel_loop_wf|auto]. Qed.

Lemma xferRel_frame tx k rx sz s : frame (fst (xferRel tx k rx sz s)) = frame s.
Proof. unfold xferRel. destruct (slice tx 0 k); [apply xferRel_loop_frame|reflexivity]. Qed.

Lemma xferRel_in_bounds tx k rx sz s :
  (k <= length tx)%nat ->
  xferRel tx k rx sz s = xferRel_loop (S (retry_ s)) (getXid (getHdr tx)) (firstn k tx) rx sz s.
Proof. intros Hk. unfold xferRel. rewrite slice_Some by lia. now rewrite skipn_O. Qed.

(** A first reply that is error-free ends a wildcard request. *)
Lemma xferRel_first_any tx k rx sz s r got :
  (k <= length tx)%nat -> getXid (getHdr tx) = XID_ANY ->
  xfer (base s) (drv s) (firstn k tx) (hdBuf_ s) (getWordSize s) rx sz = r ->
  xr_out r = Ret got -> getErr (getHdr (xr_hd r)) = 0 ->
  xferRel tx k rx sz s = (after_xfer s r, Ret (got, getHdr (xr_hd r), xr_rx r)).
Proof.
  intros Hk Hx Hr Ho He. rewrite xferRel_in_bounds by exact Hk. cbn [xferRel_loop].
  rewrite Hr, Ho. cbn [after_xfer hdBuf_]. now rewrite He, Hx.
Qed.

(** The constructor's members satisfy the invariant [wf]. *)
Lemma new_wf debug (d : T) x0 : wf (JtagDriverAxisToJtag_new debug d x0).
Proof. unfold wf. cbn [wordSize_ hdBuf_ txBuf_ bufSz_ memDepth_ JtagDriverAxisToJtag_new]. rewrite !repeat_length. unfold hdBufMax, HDR_BYTES. repeat split; lia. Qed.
End Generic.

Section Scripted.
Local Abbreviation sstate := (state (T:=Script)).

Lemma script_step b d tx hd hs rx sz :
  xfer b d tx hd hs rx sz = script_xfer b d tx hd hs rx sz.
Proof. reflexivity. Qed.

(** One attempt against a peer whose next reply is [Reply h p]. *)
Lemma script_attempt tx rx sz (s : sstate) h p rest :
  replies (drv s) = Reply h p :: rest ->
  (4 <= getWordSize s)%nat -> (4 <= length (hdBuf_ s))%nat -> 0 <= h < 2 ^ 32 ->
  let r := xfer (base s) (drv s) tx (hdBuf_ s) (getWordSize s) rx sz in
  xr_out r = Ret (Z.of_nat (length (firstn sz p))) /\ getHdr (hdBuf_ (after_xfer s r)) = h /\
  xr_rx r = fill rx (firstn sz p) /\
  drv (after_xfer s r) = {| replies := rest; sent := sent (drv s) ++ [tx] |} /\
  getWordSize (after_xfer s r) = getWordSize s /\ length (hdBuf_ (after_xfer s r)) = length (hdBuf_ s).
Proof.
  intros Hr Hw Hl Hh r. unfold r. rewrite script_step. unfold script_xfer. rewrite Hr.
  cbn [xr_out xr_rx xr_hd xr_drv after_xfer hdBuf_ drv tl wordSize_ getWordSize].
  unfold getHdr, getw32. rewrite getw32_fill_le_bytes, Z.mod_small, length_fill by assumption.
  repeat split; reflexivity.
Qed.

Lemma loop_timeouts n xid tx rx sz (s : sstate) :
  Forall is_timeout_reply (replies (drv s)) ->
  let '(s', o) := xferRel_loop n xid tx rx sz s in
  o = Throw (TimeoutErr "") /\ sent (drv s') = sent (drv s) ++ repeat tx n /\
  replies (drv s') = skipn n (replies (drv s)).
Proof.
  revert rx s; induction n as [|n IH]; intros rx s Hall.
  - cbn. now rewrite app_nil_r.
  - cbn [xferRel_loop]. rewrite script_step. unfold script_xfer.
    destruct (replies (drv s)) as [|r rest] eqn:Hr.
    + cbn [xr_out is_timeout]. specialize (IH rx (after_xfer s
        (mkXfer (base s) {| replies := tl []; sent := sent (drv s) ++ [tx] |} (hdBuf_ s) rx
           (Throw (TimeoutErr ""))))).
      destruct (xferRel_loop _ _ _ _ _ _) as [s' o].
      destruct IH as (Ho & Hs & Hp); [constructor|]. cbn in Hs, Hp.
      rewrite <- app_assoc in Hs. rewrite skipn_nil in Hp. repeat split; assumption.
    + inversion Hall as [|? ? Hto Hrest]; subst.
      destruct r as [h p|e]; [contradiction|]. cbn [xr_out is_timeout_reply] in *.
      rewrite Hto.
      specialize (IH rx (after_xfer s
        (mkXfer (base s) {| replies := tl (Fail e :: rest); sent := sent (drv s) ++ [tx] |} (hdBuf_ s) rx
           (Throw e)))).
      destruct (xferRel_loop _ _ _ _ _ _) as [s' o].
      destruct IH as (Ho & Hs & Hp); [exact Hrest|]. cbn in Hs, Hp.
      rewrite <- app_assoc in Hs. repeat split; assumption.
Qed.

Lemma script_sent b d tx hd hs rx sz :
  sent (xr_drv (script_xfer b d tx hd hs rx sz)) = sent d ++ [tx].
Proof. unfold script_xfer. destruct (replies d) as [|[h p|e] r]; reflexivity. Qed.

Lemma loop_sent_grows n xid tx rx sz (s : sstate) :
  exists l, sent (drv (fst (xferRel_loop n xid tx rx sz s))) = sent (drv s) ++ l.
Proof.
  revert rx s; induction n as [|n IH]; intros rx s.
  - exists []. now rewrite app_nil_r.
  - cbn [xferRel_loop]. rewrite script_step.
    set (r := script_xfer _ _ _ _ _ _ _).
    assert (E1 : sent (drv (after_xfer s r)) = sent (drv s) ++ [tx]) by apply script_sent.
    destruct (IH (xr_rx r) (after_xfer s r)) as [l Hl].
    assert (Hrec : exists l', sent (drv (fst (xferRel_loop n xid tx (xr_rx r) sz (after_xfer s r))))
                            = sent (drv s) ++ l')
      by (exists ([tx] ++ l); now rewrite Hl, E1, app_assoc).
    attempt_cases; cbn [fst]; solve [exact Hrec | exists [tx]; exact E1].
Qed.

Lemma xferRel_sends_first tx k rx sz (s : sstate) :
  (k <= length tx)%nat ->
  exists rest, sent (drv (fst (xferRel tx k rx sz s))) = sent (drv s) ++ firstn k tx :: rest.
Proof.
  intros Hk. rewrite xferRel_in_bounds by exact Hk. cbn [xferRel_loop]. rewrite script_step.
  set (r := script_xfer _ _ _ _ _ _ _).
  assert (E1 : sent (drv (after_xfer s r)) = sent (drv s) ++ [firstn k tx]) by apply script_sent.
  destruct (loop_sent_grows (retry_ s) (getXid (getHdr tx)) (firstn k tx) (xr_rx r) sz (after_xfer s r))
    as [l Hl].
  assert (Hrec : exists rest, sent (drv (fst (xferRel_loop (retry_ s) (getXid (getHdr tx)) (firstn k tx)
                    (xr_rx r) sz (after_xfer s r)))) = sent (drv s) ++ firstn k tx :: rest)
    by (exists l; now rewrite Hl, E1, <- app_assoc).
  attempt_cases; cbn [fst]; solve [exact Hrec | exists []; exact E1].
Qed.
(** C2: Against a peer that only times out, [xferRel] gives up after
    exactly [retry_ + 1] attempts, each sending the same request, and
    throws [TimeoutErr]. *)
Theorem xferRel_retry_exhaustion tx k rx sz (s : sstate) :
  (k <= length tx)%nat -> Forall is_timeout_reply (replies (drv s)) ->
  let '(s', o) := xferRel tx k rx sz s in
  o = Throw (TimeoutErr "") /\
  sent (drv s') = sent (drv s) ++ repeat (firstn k tx) (S (retry_ s)).
Proof.
  intros Hk Hall. unfold xferRel. rewrite slice_Some, skipn_O by exact Hk.
  pose proof (loop_timeouts (S (retry_ s)) (getXid (getHdr tx)) (firstn k tx) rx sz s Hall) as L.
  destruct (xferRel_loop _ _ _ _ _ _) as [s' o]. tauto.
Qed.

(** C4: An error reply ends [xferRel] at once, without a retry, with a
    [ProtoErr] carrying the message of the error code. *)
Theorem xferRel_error_no_retry tx k rx sz (s : sstate) h p rest :
  (k <= length tx)%nat -> replies (drv s) = Reply h p :: rest -> getErr h <> 0 ->
  (4 <= getWordSize s)%nat -> (4 <= length (hdBuf_ s))%nat -> 0 <= h < 2 ^ 32 ->
  exists s', xferRel tx k rx sz s = (s', Throw (ProtoErr (errMsg (getErr h)))) /\
    sent (drv s') = sent (drv s) ++ [firstn k tx] /\ replies (drv s') = rest.
Proof.
  intros Hk Hr He Hw Hl Hh. rewrite xferRel_in_bounds by exact Hk.
  destruct (script_attempt (firstn k tx) rx sz s h p rest Hr Hw Hl Hh) as (Ho & Hhd & _ & Hd & _).
  cbn [xferRel_loop]. rewrite Ho, Hhd.
  destruct (Z.eqb_spec (getErr h) 0); [contradiction|]. cbn [negb].
  eexists; split; [reflexivity|]. rewrite Hd. split; reflexivity.
Qed.

(** C3: A reply with another transaction id (a stale or duplicated reply)
    is discarded and the request is sent again; the next reply with the
    request's id is returned, with the payload it carries. *)
Theorem xferRel_discards_stale tx k rx sz (s : sstate) h1 p1 h2 p2 rest :
  (k <= length tx)%nat -> replies (drv s) = Reply h1 p1 :: Reply h2 p2 :: rest ->
  getErr h1 = 0 -> getErr h2 = 0 -> getXid (getHdr tx) <> XID_ANY ->
  getXid h1 <> getXid (getHdr tx) -> getXid h2 = getXid (getHdr tx) ->
  (1 <= retry_ s)%nat -> (4 <= getWordSize s)%nat -> (4 <= length (hdBuf_ s))%nat ->
  0 <= h1 < 2 ^ 32 -> 0 <= h2 < 2 ^ 32 ->
  exists s', xferRel tx k rx sz s =
    (s', Ret (Z.of_nat (length (firstn sz p2)), h2, fill (fill rx (firstn sz p1)) (firstn sz p2))) /\
    sent (drv s') = sent (drv s) ++ [firstn k tx; firstn k tx] /\ replies (drv s') = rest.
Proof.
  intros Hk Hr E1 E2 Hany X1 X2 Hrt Hw Hl Hh1 Hh2. rewrite xferRel_in_bounds by exact Hk.
  destruct (script_attempt (firstn k tx) rx sz s h1 p1 (Reply h2 p2 :: rest) Hr Hw Hl Hh1)
    as (Ho1 & Hhd1 & Hrx1 & Hd1 & Hw1 & Hl1).
  cbn [xferRel_loop]. rewrite Ho1, Hhd1, E1. cbn [negb Z.eqb].
  destruct (Z.eqb_spec (getXid (getHdr tx)) XID_ANY); [contradiction|].
  destruct (Z.eqb_spec (getXid (getHdr tx)) (getXid h1)); [congruence|]. cbn [orb]. rewrite Hrx1.
  set (s1 := after_xfer s (xfer _ _ _ _ _ _ _)) in *.
  destruct (retry_ s) as [|r'] eqn:Er; [lia|].
  destruct (script_attempt (firstn k tx) (fill rx (firstn sz p1)) sz s1 h2 p2 rest) as (Ho2 & Hhd2 & Hrx2 & Hd2 & _);
    [rewrite Hd1; reflexivity|lia|lia|exact Hh2|].
  cbn [xferRel_loop]. rewrite Ho2, Hhd2, E2. cbn [negb Z.eqb].
  destruct (Z.eqb_spec (getXid (getHdr tx)) (getXid h2)); [|congruence].
  rewrite Bool.orb_true_r, Hrx2. eexists; split; [reflexivity|].
  rewrite Hd2, Hd1. cbn. now rewrite <- app_assoc.
Qed.

(** A request with the wildcard id accepts the first error-free reply. *)
Lemma xferRel_wildcard_accepts tx k rx sz (s : sstate) h p rest :
  (k <= length tx)%nat -> getXid (getHdr tx) = XID_ANY ->
  replies (drv s) = Reply h p :: rest -> getErr h = 0 ->
  (4 <= getWordSize s)%nat -> (4 <= length (hdBuf_ s))%nat -> 0 <= h < 2 ^ 32 ->
  exists s', xferRel tx k rx sz s =
    (s', Ret (Z.of_nat (length (firstn sz p)), h, fill rx (firstn sz p))) /\
    sent (drv s') = sent (drv s) ++ [firstn k tx].
Proof.
  intros Hk Hany Hr He Hw Hl Hh. rewrite xferRel_in_bounds by exact Hk.
  destruct (script_attempt (firstn k tx) rx sz s h p rest Hr Hw Hl Hh) as (Ho & Hhd & Hrx & Hd & _).
  cbn [xferRel_loop]. rewrite Ho, Hhd, He, Hany, Hrx. cbn [negb Z.eqb orb].
  eexists; split; [reflexivity|]. now rewrite Hd.
Qed.

(** The first attempt against a peer whose next reply is [Reply h p]. *)
Lemma loop_reply n xid tx rx sz (s : sstate) h p rest :
  replies (drv s) = Reply h p :: rest ->
  (4 <= getWordSize s)%nat -> (4 <= length (hdBuf_ s))%nat -> 0 <= h < 2 ^ 32 ->
  let rx1 := fill rx (firstn sz p) in
  let s1 := after_xfer s (mkXfer (base s) {| replies := rest; sent := sent (drv s) ++ [tx] |}
              (fill (hdBuf_ s) (le_bytes (getWordSize s) h)) rx1
              (Ret (Z.of_nat (length (firstn sz p))))) in
  xferRel_loop (S n) xid tx rx sz s =
    if negb (getErr h =? 0) then (s1, Throw (ProtoErr (errMsg (getErr h))))
    else if ((xid =? XID_ANY) || (xid =? getXid h))%bool
    then (s1, Ret (Z.of_nat (length (firstn sz p)), h, rx1))
    else xferRel_loop n xid tx rx1 sz s1.
Proof.
  intros Hr Hw Hl Hh. cbn [xferRel_loop]. rewrite script_step.
  unfold script_xfer. rewrite Hr. cbn [tl xr_out xr_rx xr_hd after_xfer hdBuf_].
  unfold getHdr, getw32. rewrite getw32_fill_le_bytes, Z.mod_small by assumption.
  reflexivity.
Qed.

(** ** Witnesses, over a scripted peer *)

(** A shift request with id 9 and a matching reply. *)
Lemma xferRel_accepts_witness :
  let s := JtagDriverAxisToJtag_new 0 (mkScript [Reply (9 * 2 ^ 20) [7]] []) 0 in
  let tx := le_bytes 4 (9 * 2 ^ 20) in
  exists s' got hdr rx', xferRel tx 4 [0] 1 s = (s', Ret (got, hdr, rx')) /\
    getErr hdr = 0 /\ (getXid (getHdr tx) = XID_ANY \/ getXid hdr = getXid (getHdr tx)) /\
    hdr = getHdr (hdBuf_ s').
Proof.
  intros s tx. do 4 eexists. split; [reflexivity|].
  eapply (xferRel_accepts tx 4 [0] 1 s). reflexivity.
Defined.

Lemma xferRel_retry_exhaustion_witness :
  let s := JtagDriverAxisToJtag_new 0 (mkScript [Fail (TimeoutErr "")] []) 0 in
  let tx := le_bytes 4 (9 * 2 ^ 20) in
  let '(s', o) := xferRel tx 4 [] 0 s in
  o = Throw (TimeoutErr "") /\ sent (drv s') = sent (drv s) ++ repeat (firstn 4 tx) (S (retry_ s)).
Proof. intros s tx. apply xferRel_retry_exhaustion; concrete. Defined.

Lemma xferRel_discards_stale_witness :
  let s := JtagDriverAxisToJtag_new 0 (mkScript [Reply (8 * 2 ^ 20) [1]; Reply (9 * 2 ^ 20) [2]] []) 0 in
  let tx := le_bytes 4 (9 * 2 ^ 20) in
  exists s', xferRel tx 4 [0] 1 s =
    (s', Ret (Z.of_nat (length (firstn 1 [2])), 9 * 2 ^ 20, fill (fill [0] (firstn 1 [1])) (firstn 1 [2]))) /\
    sent (drv s') = sent (drv s) ++ [firstn 4 tx; firstn 4 tx] /\ replies (drv s') = [].
Proof.
  intros s tx. apply (xferRel_discards_stale tx 4 [0] 1 s (8 * 2 ^ 20) [1] (9 * 2 ^ 20) [2] []); concrete.
Defined.

(** An error reply with code [ERR_BAD_COMMAND]. *)
Lemma xferRel_error_no_retry_witness :
  let s := JtagDriverAxisToJtag_new 0 (mkScript [Reply (2 * 2 ^ 28 + 2) []] []) 0 in
  let tx := le_bytes 4 (9 * 2 ^ 20) in
  exists s', xferRel tx 4 [] 0 s = (s', Throw (ProtoErr (errMsg (getErr (2 * 2 ^ 28 + 2))))) /\
    sent (drv s') = sent (drv s) ++ [firstn 4 tx] /\ replies (drv s') = [].
Proof. intros s tx. apply (xferRel_error_no_retry tx 4 [] 0 s (2 * 2 ^ 28 + 2) [] []); concrete. Defined.
End Scripted.

End AxisToJtag.
