(* ===== verification/Negotiation.v ===== *)
(** * Negotiation: [query] and [init]

    [JtagDriverAxisToJtag::query] (src/xvcSrv/src/xvcSrv.cc lines 342-378)
    sends a query word through [xferRel] and takes the word size, the
    memory depth and the clock period from the reply; it sets the retry
    budget and grows the transmit buffer.  [init] (lines 296-301) is
    [query]. *)

From Stdlib Require Import ZArith String List Lia.
From S2P Require Import Prelude Header Period Transport Driver.
Import ListNotations Codec Period Jtag AxisToJtag.

Module Negotiation.
Open Scope xvc_scope.
Open Scope Z_scope.

Section Query.
Context {T : Type} `{Transport T}.
Variable REF_FREQ_HZ : Z.

(** Lines 356-377: the reply header sets the word size (checked after
    it is stored), then the memory depth, the period and the retry
    budget, and grows the transmit buffer. *)
Definition query_reply (hdr : Z) : M (T:=T) Z :=
  let ws := Z.to_nat (wordSize hdr) in
  esm_modify (set_wordSize ws) ;;
  if (ws <? HDR_BYTES)%nat then esm_throw (ProtoErr "Received invalid word size")
  else
    let md := Z.to_nat (memDepth hdr) in
    esm_modify (set_params md (cvtPerNs REF_FREQ_HZ hdr) (if (md =? 0)%nat then 0 else 5)) ;;
    s' <- esm_get ;;
    let siz := ((2 * memDepth_ s' + 1) * wordSize_ s')%nat in
    (if (bufSz_ s' <? siz)%nat then esm_modify (grow siz) else esm_ret tt) ;;
    esm_ret (Z.of_nat (memDepth_ s' * wordSize_ s')).

Definition query : M (T:=T) Z :=
  s <- esm_get ;;
  tx <- lift_mem (setHdr (wordSize_ s) (txBuf_ s) mkQuery) ;;
  esm_modify (set_txBuf tx) ;;
  r <- xferRel tx (getWordSize s) [] 0 ;;
  let '(_, hdr, _) := r in
  query_reply hdr.

(** [init()] calls [query()] and drops its result. *)
Definition init : M (T:=T) unit := _ <- query ;; esm_ret tt.

(** The query word [query] writes into [txBuf_]: the header, zero-filled
    to a whole word. *)
Definition query_tx (s : state (T:=T)) : list Z :=
  le_bytes 4 mkQuery ++ repeat 0%Z (wordSize_ s - 4) ++ skipn (wordSize_ s) (txBuf_ s).

End Query.

(** ** Facts *)

Section Facts.
Context {T : Type} `{Transport T}.
Variable R : Z.

Lemma wordSize_range h : 1 <= wordSize h <= 16.
Proof. rewrite wordSize_spec. pose proof (Z.mod_pos_bound h 16). lia. Qed.

Lemma memDepth_range h : 0 <= memDepth h < 65536.
Proof. rewrite memDepth_spec. apply Z.mod_pos_bound. lia. Qed.

(** A valid reply sets the members and keeps the invariant. *)
Lemma query_reply_ok hdr (s : state (T:=T)) :
  wf s -> (4 <= Z.to_nat (wordSize hdr))%nat ->
  let ws := Z.to_nat (wordSize hdr) in
  let md := Z.to_nat (memDepth hdr) in
  let s' := fst (query_reply R hdr s) in
  snd (query_reply R hdr s) = Ret (Z.of_nat (md * ws)) /\
  wordSize_ s' = ws /\ memDepth_ s' = md /\ periodNs_ s' = cvtPerNs R hdr /\
  retry_ s' = (if (md =? 0)%nat then 0%nat else 5%nat) /\
  bufSz_ s' = Nat.max (bufSz_ s) ((2 * md + 1) * ws) /\ wf s' /\
  base s' = base s /\ drv s' = drv s /\ xid_ s' = xid_ s.
Proof.
  intros Hwf Hws ws md. pose proof (wordSize_range hdr). pose proof (memDepth_range hdr).
  destruct Hwf as (Hw & Hh & Ht & Hb & Hm).
  unfold query_reply, esm_bind, esm_modify, esm_get, esm_ret, esm_throw. fold ws md.
  destruct (Nat.ltb_spec ws HDR_BYTES) as [Hlt|_]; [unfold HDR_BYTES in *; lia|].
  cbn [fst snd set_wordSize set_params memDepth_ wordSize_ bufSz_].
  destruct (Nat.ltb_spec (bufSz_ s) ((2 * md + 1) * ws)) as [Hg|Hg]; simpl_state;
    (repeat split; try reflexivity; try lia).
  - len_lia.
  - assert (Z.of_nat md <= 65535) by (unfold md; lia). assert (Z.of_nat ws <= 16) by (unfold ws; lia).
    change (Z.pow_pos 2 21) with 2097152. nia.
Qed.
Lemma query_reply_bad hdr (s : state (T:=T)) :
  (Z.to_nat (wordSize hdr) < 4)%nat ->
  query_reply R hdr s = (set_wordSize (Z.to_nat (wordSize hdr)) s,
                         Throw (ProtoErr "Received invalid word size")).
Proof.
  intros Hws. unfold query_reply, esm_bind, esm_modify, esm_throw.
  destruct (Nat.ltb_spec (Z.to_nat (wordSize hdr)) HDR_BYTES); [reflexivity|].
  unfold HDR_BYTES in *. lia.
Qed.

Lemma query_unfold (s : state (T:=T)) :
  wf s ->
  query R s =
    match xferRel (query_tx s) (getWordSize s) [] 0 (set_txBuf (query_tx s) s) with
    | (s1, Ret r) => (let '(_, hdr, _) := r in query_reply R hdr) s1
    | (s1, Throw e) => (s1, Throw e)
    end.
Proof.
  intros (Hw & Hh & Ht & Hb & Hm). unfold query, esm_bind, esm_get, esm_modify, esm_ret, lift_mem.
  rewrite setHdr_layout by nia. reflexivity.
Qed.

Lemma length_query_tx (s : state (T:=T)) :
  wf s -> length (query_tx s) = length (txBuf_ s).
Proof.
  intros (Hw & Hh & Ht & Hb & Hm). unfold query_tx.
  rewrite !length_app, length_le_bytes, repeat_length, length_skipn. nia.
Qed.

Lemma query_tx_wf (s : state (T:=T)) : wf s -> wf (set_txBuf (query_tx s) s).
Proof.
  intros Hwf. pose proof (length_query_tx s Hwf) as E. revert E.
  generalize (query_tx s). intros l E. destruct Hwf as (Hw & Hh & Ht & Hb & Hm).
  simpl_state. repeat split; lia.
Qed.
Lemma query_wf_cases `{!TransportLaws T} (s : state (T:=T)) s' o :
  wf s -> query R s = (s', o) ->
  wf s' \/ (o = Throw (ProtoErr "Received invalid word size") /\ (wordSize_ s' < 4)%nat).
Proof.
  intros Hwf. rewrite query_unfold by exact Hwf.
  pose proof (xferRel_wf (query_tx s) (getWordSize s) [] 0 _ (query_tx_wf s Hwf)) as Hw1.
  destruct (xferRel _ _ _ _ _) as [s1 [[[g hdr] rx]|e]]; cbn [fst] in Hw1.
  - destruct (Nat.lt_ge_cases (Z.to_nat (wordSize hdr)) 4) as [Hlt|Hge].
    + rewrite query_reply_bad by exact Hlt. intros [= <- <-]. right. split; [reflexivity|]. exact Hlt.
    + destruct (query_reply_ok hdr s1 Hw1 Hge) as (Ho & _ & _ & _ & _ & _ & Hw' & _).
      destruct (query_reply R hdr s1). intros [= <- <-]. left. exact Hw'.
  - intros [= <- <-]. left. exact Hw1.
Qed.

Lemma query_tx_fits (s : state (T:=T)) : wf s -> (getWordSize s <= length (query_tx s))%nat.
Proof.
  intros Hwf. rewrite (length_query_tx s Hwf). destruct Hwf as (? & ? & ? & ? & ?).
  unfold getWordSize. nia.
Qed.

Lemma getXid_query_tx (s : state (T:=T)) :
  getXid (getHdr (query_tx s)) = XID_ANY.
Proof.
  unfold query_tx, getHdr, getw32. rewrite firstn_app, length_le_bytes, Nat.sub_diag, firstn_O, app_nil_r.
  reflexivity.
Qed.

(** Over any transport, a first reply that is error-free answers the
    query. *)
Lemma query_first_reply (s : state (T:=T)) r got :
  wf s ->
  xfer (base s) (drv s) (firstn (getWordSize s) (query_tx s)) (hdBuf_ s) (getWordSize s) [] 0 = r ->
  xr_out r = Ret got -> getErr (getHdr (xr_hd r)) = 0 ->
  query R s = query_reply R (getHdr (xr_hd r)) (after_xfer (set_txBuf (query_tx s) s) r).
Proof.
  intros Hwf Hr Ho He. rewrite query_unfold by exact Hwf.
  rewrite (xferRel_first_any (query_tx s) (getWordSize s) [] 0 (set_txBuf (query_tx s) s) r got (query_tx_fits s Hwf)
             (getXid_query_tx s) Hr Ho He).
  reflexivity.
Qed.

(** Over any transport that keeps its memory contract, a valid first
    reply negotiates the members. *)
Lemma query_first_ok `{!TransportLaws T} (s : state (T:=T)) r got h :
  wf s ->
  xfer (base s) (drv s) (firstn (getWordSize s) (query_tx s)) (hdBuf_ s) (getWordSize s) [] 0 = r ->
  xr_out r = Ret got -> getHdr (xr_hd r) = h -> getErr h = 0 -> (4 <= Z.to_nat (wordSize h))%nat ->
  let ws := Z.to_nat (wordSize h) in
  let md := Z.to_nat (memDepth h) in
  exists s', query R s = (s', Ret (Z.of_nat (md * ws))) /\
    wordSize_ s' = ws /\ memDepth_ s' = md /\ periodNs_ s' = cvtPerNs R h /\
    retry_ s' = (if (md =? 0)%nat then 0%nat else 5%nat) /\
    bufSz_ s' = Nat.max (bufSz_ s) ((2 * md + 1) * ws) /\ wf s' /\
    base s' = xr_base r /\ drv s' = xr_drv r.
Proof.
  intros Hwf Hr Ho Hh He Hws ws md. subst h.
  rewrite (query_first_reply s r got Hwf Hr Ho He).
  pose proof (xferRel_wf (query_tx s) (getWordSize s) [] 0 _ (query_tx_wf s Hwf)) as W1.
  rewrite (xferRel_first_any (query_tx s) (getWordSize s) [] 0 (set_txBuf (query_tx s) s) r got
             (query_tx_fits s Hwf) (getXid_query_tx s) Hr Ho He) in W1.
  destruct (query_reply_ok _ _ W1 Hws) as (Ho' & Hw' & Hm' & Hp & Hrt & Hb & Hwf' & Hbase & Hdrv & _).
  destruct (query_reply R _ _) as [s' o]. cbn [fst snd] in *. subst o.
  exists s'. split; [reflexivity|]. repeat (split; [assumption|]). exact Hdrv.
Qed.

(** C6: [query] keeps the member invariant [wf], except when it throws
    for a word size below the header size, which it stores first. *)
Theorem query_wf `{!TransportLaws T} (s : state (T:=T)) s' o :
  wf s -> query R s = (s', o) ->
  wf s' \/ (o = Throw (ProtoErr "Received invalid word size") /\ (wordSize_ s' < 4)%nat).
Proof. apply query_wf_cases. Qed.

Lemma firstn_query_tx (s : state (T:=T)) :
  wf s -> firstn (getWordSize s) (query_tx s) = le_bytes 4 mkQuery ++ repeat 0 (wordSize_ s - 4).
Proof.
  intros (Hw & Hh & Ht & Hb & Hm). unfold query_tx, getWordSize.
  rewrite firstn_app, length_le_bytes, firstn_all2 by (rewrite length_le_bytes; lia).
  rewrite firstn_app, repeat_length, firstn_all2 by (rewrite repeat_length; lia).
  replace (wordSize_ s - 4 - (wordSize_ s - 4))%nat with 0%nat by lia.
  now rewrite firstn_O, app_nil_r.
Qed.

End Facts.

Section Scripted.
Variable R : Z.

(** C5: Against a peer that answers the query with a valid reply, [query]
    sends one query word (the [mkQuery] header, zero-filled to the word
    size), takes the word size, depth and period from the reply, sets the
    retry budget (none when the target has no memory), grows the transmit
    buffer to hold two vectors of the target's depth and a header, keeps
    [wf], and returns the target's memory in bytes. *)
Theorem query_negotiates (s : state (T:=Script)) h p rest :
  wf s -> replies (drv s) = Reply h p :: rest -> 0 <= h < 2 ^ 32 -> getErr h = 0 ->
  (4 <= Z.to_nat (wordSize h))%nat ->
  let ws := Z.to_nat (wordSize h) in
  let md := Z.to_nat (memDepth h) in
  exists s', query R s = (s', Ret (Z.of_nat (md * ws))) /\
    wordSize_ s' = ws /\ memDepth_ s' = md /\ periodNs_ s' = cvtPerNs R h /\
    retry_ s' = (if (md =? 0)%nat then 0%nat else 5%nat) /\
    bufSz_ s' = Nat.max (bufSz_ s) ((2 * md + 1) * ws) /\ wf s' /\
    sent (drv s') = sent (drv s) ++ [le_bytes 4 mkQuery ++ repeat 0 (wordSize_ s - 4)].
Proof.
  intros Hwf Hr Hh He Hws ws md. pose proof Hwf as (Hw & Hl & _).
  assert (Hx : xr_out (xfer (base s) (drv s) (firstn (getWordSize s) (query_tx s)) (hdBuf_ s)
                 (getWordSize s) [] 0) = Ret 0 /\
               getHdr (xr_hd (xfer (base s) (drv s) (firstn (getWordSize s) (query_tx s)) (hdBuf_ s)
                 (getWordSize s) [] 0)) = h).
  { cbn [xfer Script_transport]. unfold script_xfer. rewrite Hr. split; [reflexivity|].
    unfold getHdr, getw32. cbn [xr_hd].
    rewrite getw32_fill_le_bytes by (unfold getWordSize, hdBufMax in *; lia). apply Z.mod_small, Hh. }
  destruct Hx as [Ho Hhd].
  destruct (query_first_ok R s _ 0 h Hwf eq_refl Ho Hhd He Hws)
    as (s' & E & Hw' & Hm' & Hp & Hrt & Hb & Hwf' & _ & Hd).
  exists s'. do 7 (split; [assumption|]).
  rewrite Hd. cbn [xfer Script_transport]. unfold script_xfer. rewrite Hr. cbn [sent xr_drv].
  now rewrite firstn_query_tx.
Qed.
(** C7: A reply announcing a word size below 4 makes [query] throw, but
    [wordSize_] already holds the bad size: the invariant is broken and the
    next [query] faults in [setHdr], whose [memset] count wraps. *)
Theorem query_bad_word_size_poisons (s : state (T:=Script)) h p rest :
  wf s -> replies (drv s) = Reply h p :: rest -> 0 <= h < 2 ^ 32 -> getErr h = 0 ->
  (Z.to_nat (wordSize h) < 4)%nat ->
  exists s', query R s = (s', Throw (ProtoErr "Received invalid word size")) /\
    wordSize_ s' = Z.to_nat (wordSize h) /\ ~ wf s' /\ query R s' = (s', Throw MemFault).
Proof.
  intros Hwf Hr Hh He Hws. rewrite query_unfold by exact Hwf.
  pose proof (length_query_tx s Hwf) as Hlen.
  pose proof (query_tx_wf s Hwf) as Hwf1.
  pose proof (xferRel_frame (query_tx s) (getWordSize s) [] 0 (set_txBuf (query_tx s) s)) as Hf.
  destruct Hwf1 as (Hw & Hl & _).
  assert (Hl4 : (4 <= length (hdBuf_ (set_txBuf (query_tx s) s)))%nat) by (unfold hdBufMax in *; lia).
  pose proof (query_tx_fits s Hwf) as Hk.
  destruct (xferRel_wildcard_accepts (query_tx s) (getWordSize s) [] 0 (set_txBuf (query_tx s) s) h p rest
    Hk (getXid_query_tx s) Hr He (proj1 Hw) Hl4 Hh) as (s1 & E & _).
  rewrite E in *. cbn iota beta. rewrite query_reply_bad by exact Hws.
  eexists; split; [reflexivity|]. split; [reflexivity|]. split.
  - intros (Hw' & _). simpl in Hw'. lia.
  - unfold query, esm_bind, esm_get, lift_mem. rewrite setHdr_short_word; [reflexivity|exact Hws|].
    unfold frame in Hf. cbn [fst] in Hf. injection Hf as _ _ _ _ _ Ht _.
    simpl. rewrite Ht, (length_query_tx s Hwf).
    destruct Hwf as (_ & _ & Htx & _ & Hm). lia.
Qed.

End Scripted.

(** ** Witnesses: a target of word size 4, depth 512 and unknown period *)

Lemma query_negotiates_witness :
  let s := JtagDriverAxisToJtag_new 0 (mkScript [Reply (3 + 512 * 16) []] []) 0 in
  let h := 3 + 512 * 16 in
  let ws := Z.to_nat (wordSize h) in
  let md := Z.to_nat (memDepth h) in
  exists s', query 200000000 s = (s', Ret (Z.of_nat (md * ws))) /\
    wordSize_ s' = ws /\ memDepth_ s' = md /\ periodNs_ s' = cvtPerNs 200000000 h /\
    retry_ s' = (if (md =? 0)%nat then 0%nat else 5%nat) /\
    bufSz_ s' = Nat.max (bufSz_ s) ((2 * md + 1) * ws) /\ wf s' /\
    sent (drv s') = sent (drv s) ++ [le_bytes 4 mkQuery ++ repeat 0 (wordSize_ s - 4)].
Proof.
  intros s h ws md. apply (query_negotiates 200000000 s h [] []);
    [wf_concrete|concrete..].
Defined.

Lemma query_wf_witness :
  let s := JtagDriverAxisToJtag_new 0 (mkScript [Reply (3 + 512 * 16) []] []) 0 in
  exists s' o, query 200000000 s = (s', o) /\
    (wf s' \/ (o = Throw (ProtoErr "Received invalid word size") /\ (wordSize_ s' < 4)%nat)).
Proof.
  intros s. destruct (query 200000000 s) as [s' o] eqn:E. exists s', o. split; [reflexivity|].
  apply (query_wf 200000000 s s' o); [wf_concrete|exact E].
Defined.

(** A reply announcing a word size of 1. *)
Lemma query_bad_word_size_poisons_witness :
  let s := JtagDriverAxisToJtag_new 0 (mkScript [Reply (0 + 512 * 16) []] []) 0 in
  let h := 0 + 512 * 16 in
  exists s', query 200000000 s = (s', Throw (ProtoErr "Received invalid word size")) /\
    wordSize_ s' = Z.to_nat (wordSize h) /\ ~ wf s' /\ query 200000000 s' = (s', Throw MemFault).
Proof.
  intros s h. apply (query_bad_word_size_poisons 200000000 s h [] []);
    [wf_concrete|concrete..].
Defined.

End Negotiation.
