(* ===== verification/TmemFifo.v ===== *)
(** * The TMEM FIFO transport

    [JtagDriverTmemFifo] (src/xvcSrv/src/xvcDrvAxisTmem.cc) drives the
    AXI-stream-to-JTAG firmware through a memory-mapped FIFO: a data
    register [FIFO_DAT_IDX] that takes and gives 32-bit words and a
    control register [FIFO_CSR_IDX] that closes a frame ([FIFO_CSR_EOFO]),
    reports an empty receive FIFO ([FIFO_CSR_EMPI]) and the number of
    words it holds.  [xfer] (lines 158-240) is the [Transport] instance
    the protocol engine of [Driver] runs over.

    The device is a record: the words written since the last end of
    frame, the frames closed so far, the receive FIFO, and the firmware,
    a function from a request frame to its reply.  The firmware answers
    every frame with at least one word (its type is [Z * list Z]): the
    polling loop [while (csr & FIFO_CSR_EMPI) wait();] therefore exits at
    its first read, and is not a loop of the model.  A firmware that never
    answers makes the driver spin forever; the model leaves it out.

    Words go through [memcpy] between the byte buffers and a [uint32_t],
    so their value depends on the host byte order, a field of the device;
    [__builtin_bswap32] is [bswap32].  The bytes of a FIFO word as the
    stream carries them are its big-endian bytes ([stream_bytes]). *)

From Stdlib Require Import ZArith String List Lia.
From S2P Require Import Prelude Header Transport.
Import ListNotations Codec Jtag.

Module TmemFifo.
Open Scope Z_scope.

(** ** Words and bytes *)

(** [l] read most significant byte first. *)
Definition be_val (l : list Z) : Z := le_val (rev l).

(** [__builtin_bswap32]. *)
Definition bswap32 (w : Z) : Z := be_val (le_bytes 4 w).

(** The bytes of FIFO words in stream order, most significant first. *)
Definition stream_bytes (ws : list Z) : list Z :=
  flat_map (fun w => rev (le_bytes 4 w)) ws.

(** ** The device *)

#[projections(primitive)]
Record dev : Type := mkDev {
  host_le : bool;                (** the host is little-endian *)
  wrdSiz_ : Z;                   (** member [wrdSiz_] *)
  maxVec_ : Z;                   (** member [maxVec_] *)
  fw : list Z -> Z * list Z;     (** the firmware's reply to a frame *)
  outq : list Z;                 (** words written since the last EOF *)
  frames : list (list Z);        (** the frames closed so far *)
  inq : list Z                   (** the receive FIFO *)
}.

Definition set_queues (o : list Z) (f : list (list Z)) (i : list Z) (d : dev) : dev :=
  {| host_le := host_le d; wrdSiz_ := wrdSiz_ d; maxVec_ := maxVec_ d; fw := fw d;
     outq := o; frames := f; inq := i |}.

(** [memcpy(&w, p, 4)] and [memcpy(p, &w, 4)]. *)
Definition load32 (d : dev) (b : list Z) : Z :=
  if host_le d then le_val b else be_val b.

Definition store32 (d : dev) (w : Z) : list Z :=
  if host_le d then le_bytes 4 w else rev (le_bytes 4 w).

(** [o32(FIFO_DAT_IDX, v)]. *)
Definition push_dat (v : Z) (d : dev) : dev :=
  set_queues (outq d ++ [v]) (frames d) (inq d) d.

(** [o32(FIFO_CSR_IDX, i32(FIFO_CSR_IDX) | FIFO_CSR_EOFO)]: the frame is
    closed and the firmware's reply enters the receive FIFO. *)
Definition eof (d : dev) : dev :=
  let '(w, ws) := fw d (outq d) in
  set_queues [] (frames d ++ [outq d]) (inq d ++ w :: ws) d.

(** [i32(FIFO_DAT_IDX)]: the next received word.  An empty FIFO gives a
    value the driver never uses (it throws right after); it is 0 here. *)
Definition pop_dat (d : dev) : Z * dev :=
  match inq d with
  | [] => (0, d)
  | w :: q => (w, set_queues (outq d) (frames d) q d)
  end.

(** The word count of [i32(FIFO_CSR_IDX)]. *)
Definition csr_nwords (d : dev) : Z := Z.of_nat (length (inq d)).

(** [reset()] (lines 129-139): [FIFO_CSR_RST] empties both FIFOs. *)
Definition reset (d : dev) : dev := set_queues [] (frames d) [] d.

(** [maxVec_] from the FIFO size field [maxw] of the CSR (lines 73-80):
    one header word and two vectors fit; [unsigned long] arithmetic.
    The shift [<< 10] is done in the type of [FIFO_CSR_MAXWM], declared
    in a header outside the sources; it is not wrapped here, which is
    exact for the fields below [2^22] a 32-bit shift keeps. *)
Definition maxVecOf (maxw : Z) : Z :=
  let wrdSiz := 4 in
  let maxWords := (maxw * 2 ^ 10) / wrdSiz in
  let maxBytes := wrap 64 ((maxWords - 1) * wrdSiz) in
  maxBytes / 2.

(** ** [xfer] *)

(** Lines 175-178: the whole words of the request. *)
Fixpoint send_full (n i : nat) (tx : list Z) (d : dev) : dev * outcome xvc_exn unit :=
  match n with
  | O => (d, Ret tt)
  | S n' =>
      match slice tx (4 * i) 4 with
      | None => (d, Throw MemFault)
      | Some b => send_full n' (S i) tx (push_dat (bswap32 (load32 d b)) d)
      end
  end.

(** Lines 161-183: [txWords], [lastBytes] and the zero-padded last word. *)
Definition send_tx (tx : list Z) (d : dev) : dev * outcome xvc_exn unit :=
  let txBytes := Z.of_nat (length tx) in
  let txWords0 := u32 (txBytes + 3) / 4 in
  let lastBytes := u32 (txBytes - 4 * (txWords0 - 1)) in
  let txWords := if lastBytes =? 0 then txWords0 else u32 (txWords0 - 1) in
  match send_full (Z.to_nat txWords) 0 tx d with
  | (d1, Throw e) => (d1, Throw e)
  | (d1, Ret _) =>
      if lastBytes =? 0 then (d1, Ret tt)
      else match slice tx (4 * Z.to_nat txWords) (Z.to_nat lastBytes) with
           | None => (d1, Throw MemFault)
           | Some b =>
               (push_dat (bswap32 (load32 d1 (b ++ repeat 0 (4 - Z.to_nat lastBytes)))) d1,
                Ret tt)
           end
  end.

(** Lines 197-205: the header words; [got] counts the bytes left. *)
Fixpoint recv_hdr (n i : nat) (got : Z) (hd : list Z) (d : dev)
    : dev * list Z * outcome xvc_exn Z :=
  match n with
  | O => (d, hd, Ret got)
  | S n' =>
      let '(w, d1) := pop_dat d in
      if got <? 4 then (d1, hd, Throw (ProtoErr "Didn't receive enough data for header"))
      else match write_at hd i (store32 d1 (bswap32 w)) with
           | None => (d1, hd, Throw MemFault)
           | Some hd' => recv_hdr n' (i + 4) (got - 4) hd' d1
           end
  end.

(** Lines 214-218: whole payload words. *)
Fixpoint recv_words (n i : nat) (rx : list Z) (d : dev) : dev * list Z * outcome xvc_exn unit :=
  match n with
  | O => (d, rx, Ret tt)
  | S n' =>
      let '(w, d1) := pop_dat d in
      match write_at rx i (store32 d1 (bswap32 w)) with
      | None => (d1, rx, Throw MemFault)
      | Some rx' => recv_words n' (i + 4) rx' d1
      end
  end.

(** Lines 228-231: [while (i < got)] reads and drops a word; [i] grows by
    4 at each step, so [got] steps are enough fuel for [got >= 0]. *)
Fixpoint discard (fuel : nat) (i got : Z) (d : dev) : dev :=
  match fuel with
  | O => d
  | S f => if i <? got then discard f (i + 4) got (snd (pop_dat d)) else d
  end.

(** Lines 206-231: the payload, [min(got, size)] bytes, then the excess
    words are discarded. *)
Definition recv_payload (got : Z) (size : nat) (rx : list Z) (d : dev)
    : dev * list Z * outcome xvc_exn Z :=
  let mn := Z.min got (Z.of_nat size) in
  let minw := mn / 4 in
  match recv_words (Z.to_nat minw) 0 rx d with
  | (d1, rx1, Throw e) => (d1, rx1, Throw e)
  | (d1, rx1, Ret _) =>
      let i := 4 * minw in
      let rem := mn - i in
      if rem =? 0 then (discard (Z.to_nat got) i got d1, rx1, Ret mn)
      else
        let '(w, d2) := pop_dat d1 in
        match write_at rx1 (Z.to_nat i) (firstn (Z.to_nat rem) (store32 d2 (bswap32 w))) with
        | None => (d2, rx1, Throw MemFault)
        | Some rx2 => (discard (Z.to_nat got) (i + 4) got d2, rx2, Ret mn)
        end
  end.

(** Lines 233-237: [drEn_ && 0 == ((++drop_) & 0xff)]. *)
Definition drop_check (b : JtagBase) : JtagBase * bool :=
  if drEn_ b then
    let dr := u32 (drop_ b + 1) in
    ({| debug_ := debug_ b; drop_ := dr; drEn_ := drEn_ b |}, Z.land dr 255 =? 0)
  else (b, false).

Definition tmem_xfer (b : JtagBase) (d : dev) (tx hd : list Z) (hsize : nat)
    (rx : list Z) (size : nat) : xfer_result dev :=
  if negb (Nat.eqb (hsize mod 4) 0) then
    mkXfer b d hd rx
      (Throw (RuntimeErr "AXIS2TMEM FIFO only supports word-lengths that are a multiple of 4"))
  else
    match send_tx tx d with
    | (d1, Throw e) => mkXfer b d1 hd rx (Throw e)
    | (d1, Ret _) =>
        let d2 := eof d1 in
        let got := u32 (csr_nwords d2 * wrdSiz_ d2) in
        if got =? 0 then mkXfer b d2 hd rx (Throw (ProtoErr "Didn't receive enough data for header"))
        else
          match recv_hdr (hsize / 4) 0 got hd d2 with
          | (d3, hd1, Throw e) => mkXfer b d3 hd1 rx (Throw e)
          | (d3, hd1, Ret got1) =>
              match recv_payload got1 size rx d3 with
              | (d4, rx1, Throw e) => mkXfer b d4 hd1 rx1 (Throw e)
              | (d4, rx1, Ret mn) =>
                  let '(b1, dropped) := drop_check b in
                  if dropped then mkXfer b1 d4 hd1 rx1 (Throw (TimeoutErr ""))
                  else mkXfer b1 d4 hd1 rx1 (Ret mn)
              end
          end
    end.

#[export] Instance Tmem_transport : Transport dev := {
  xfer := tmem_xfer;
  getMaxVectorSize := maxVec_
}.

(** The receive FIFO after [n] reads. *)
Definition drop_words (n : nat) (d : dev) : dev :=
  set_queues (outq d) (frames d) (skipn n (inq d)) d.

(** ** Facts *)

Lemma le_bytes_bswap32 w : le_bytes 4 (bswap32 w) = rev (le_bytes 4 w).
Proof.
  unfold bswap32, be_val. rewrite <- (length_le_bytes 4 w) at 1.
  rewrite <- length_rev. apply le_bytes_le_val. apply Forall_rev, le_bytes_ok.
Qed.

Lemma store32_bswap d w : host_le d = true -> store32 d (bswap32 w) = rev (le_bytes 4 w).
Proof. intros H. unfold store32. rewrite H. apply le_bytes_bswap32. Qed.

Lemma length_stream_bytes ws : length (stream_bytes ws) = (4 * length ws)%nat.
Proof.
  induction ws as [|w ws IH]; [reflexivity|]. cbn [stream_bytes flat_map length].
  rewrite length_app, length_rev, length_le_bytes. fold (stream_bytes ws). lia.
Qed.

Lemma pop_dat_cons d w q : inq d = w :: q -> pop_dat d = (w, set_queues (outq d) (frames d) q d).
Proof. intros H. unfold pop_dat. now rewrite H. Qed.

Lemma recv_hdr_spec ws rest i got hd hd' d :
  host_le d = true -> inq d = ws ++ rest -> 4 * Z.of_nat (length ws) <= got ->
  write_at hd i (stream_bytes ws) = Some hd' ->
  recv_hdr (length ws) i got hd d =
    (set_queues (outq d) (frames d) rest d, hd', Ret (got - 4 * Z.of_nat (length ws))).
Proof.
  revert i got hd d. induction ws as [|w ws IH]; intros i got hd d Hle Hq Hg Hw.
  - cbn in Hq, Hw |- *. unfold write_at in Hw. cbn in Hw.
    destruct (Nat.leb_spec (i + 0) (length hd)); [|discriminate]. injection Hw as <-.
    rewrite Nat.add_0_r, firstn_skipn, Z.sub_0_r. destruct d; cbn in *; now subst.
  - cbn [length recv_hdr] in Hg |- *. rewrite Nat2Z.inj_succ in Hg |- *.
    rewrite (pop_dat_cons _ w (ws ++ rest)) by exact Hq.
    cbn [stream_bytes flat_map] in Hw. fold (stream_bytes ws) in Hw.
    apply write_at_app in Hw as (m & Hm & Hr).
    destruct (Z.ltb_spec got 4) as [|_]; [lia|].
    rewrite store32_bswap by exact Hle. rewrite Hm.
    rewrite length_rev, length_le_bytes in Hr. rewrite (IH (i + 4)%nat (got - 4) m (set_queues (outq d) (frames d) (ws ++ rest) d) Hle eq_refl)
      by (try exact Hr; lia).
    replace (got - 4 - 4 * Z.of_nat (length ws)) with (got - 4 * Z.succ (Z.of_nat (length ws))) by lia.
    reflexivity.
Qed.

Lemma set_queues_id d : set_queues (outq d) (frames d) (inq d) d = d.
Proof. reflexivity. Qed.

Lemma recv_words_spec ws rest i rx rx' d :
  host_le d = true -> inq d = ws ++ rest -> write_at rx i (stream_bytes ws) = Some rx' ->
  recv_words (length ws) i rx d = (set_queues (outq d) (frames d) rest d, rx', Ret tt).
Proof.
  revert i rx d. induction ws as [|w ws IH]; intros i rx d Hle Hq Hw.
  - cbn in Hq, Hw |- *. unfold write_at in Hw. cbn in Hw.
    destruct (Nat.leb_spec (i + 0) (length rx)); [|discriminate]. injection Hw as <-.
    rewrite Nat.add_0_r, firstn_skipn, <- Hq. reflexivity.
  - cbn [length recv_words]. rewrite (pop_dat_cons _ w (ws ++ rest)) by exact Hq.
    cbn [stream_bytes flat_map] in Hw. fold (stream_bytes ws) in Hw.
    apply write_at_app in Hw as (m & Hm & Hr).
    rewrite store32_bswap by exact Hle. rewrite Hm.
    rewrite length_rev, length_le_bytes in Hr.
    exact (IH (i + 4)%nat m (set_queues (outq d) (frames d) (ws ++ rest) d) Hle eq_refl Hr).
Qed.

Lemma discard_spec m fuel i got d :
  (m <= fuel)%nat -> got - i = 4 * Z.of_nat m -> (m <= length (inq d))%nat ->
  discard fuel i got d = drop_words m d.
Proof.
  revert fuel i d. induction m as [|m IH]; intros fuel i d Hf Hg Hl.
  - destruct fuel; cbn; [reflexivity|]. destruct (Z.ltb_spec i got); [lia|reflexivity].
  - rewrite Nat2Z.inj_succ in Hg.
    destruct fuel as [|fuel]; [lia|]. cbn [discard]. destruct (Z.ltb_spec i got); [|lia].
    destruct (inq d) as [|w q] eqn:Hq; [cbn in Hl; lia|]. cbn [length] in Hl.
    rewrite (pop_dat_cons _ w q Hq). cbn [snd]. rewrite IH; [|lia|lia|exact (le_S_n _ _ Hl)].
    unfold drop_words. cbn. rewrite Hq. reflexivity.
Qed.

Lemma stream_word b : Forall byte_ok b -> length b = 4%nat ->
  rev (le_bytes 4 (bswap32 (le_val b))) = b.
Proof.
  intros Hb Hl. rewrite le_bytes_bswap32, rev_involutive, <- Hl. now apply le_bytes_le_val.
Qed.

Lemma stream_bytes_app ws ws' : stream_bytes (ws ++ ws') = stream_bytes ws ++ stream_bytes ws'.
Proof. apply flat_map_app. Qed.

Lemma send_full_spec n i tx d :
  host_le d = true -> Forall byte_ok tx -> (4 * (i + n) <= length tx)%nat ->
  exists ws, send_full n i tx d = (set_queues (outq d ++ ws) (frames d) (inq d) d, Ret tt) /\
    stream_bytes ws = firstn (4 * n) (skipn (4 * i) tx).
Proof.
  revert i d. induction n as [|n IH]; intros i d Hle Hb Hl.
  - exists []. rewrite app_nil_r. split; reflexivity.
  - cbn [send_full]. rewrite slice_Some by lia.
    set (b := firstn 4 (skipn (4 * i) tx)).
    assert (Hbl : length b = 4%nat) by (unfold b; rewrite length_firstn, length_skipn; lia).
    assert (Hbo : Forall byte_ok b) by (apply Forall_firstn_Z, Forall_skipn_Z, Hb).
    destruct (IH (S i) (push_dat (bswap32 (load32 d b)) d)) as (ws & E & Hs); [exact Hle|exact Hb|lia|].
    exists (bswap32 (le_val b) :: ws). split.
    + rewrite E. unfold load32. rewrite Hle. cbn. now rewrite <- app_assoc.
    + cbn [stream_bytes flat_map]. fold (stream_bytes ws). rewrite Hs, stream_word by assumption.
      unfold b. replace (4 * S n)%nat with (4 + 4 * n)%nat by lia.
      rewrite firstn_add, skipn_skipn. do 3 f_equal. lia.
Qed.

(** The arithmetic of [txWords] and [lastBytes] for [1 <= txBytes]. *)
Lemma tx_split L : 1 <= L -> L + 3 < 2 ^ 32 ->
  let txWords0 := u32 (L + 3) / 4 in
  let lastBytes := u32 (L - 4 * (txWords0 - 1)) in
  lastBytes <> 0 /\ u32 (txWords0 - 1) = (L + 3) / 4 - 1 /\
  L = 4 * ((L + 3) / 4 - 1) + lastBytes /\ 1 <= lastBytes <= 4.
Proof.
  intros HL HU txWords0 lastBytes. unfold lastBytes, txWords0, u32.
  rewrite (wrap_small 32 (L + 3)) by lia.
  rewrite !wrap_small by (Z.div_mod_to_equations; lia).
  Z.div_mod_to_equations. lia.
Qed.

Lemma send_tx_spec tx d :
  host_le d = true -> Forall byte_ok tx -> (1 <= length tx)%nat -> Z.of_nat (length tx) + 3 < 2 ^ 32 ->
  exists ws, send_tx tx d = (set_queues (outq d ++ ws) (frames d) (inq d) d, Ret tt) /\
    stream_bytes ws = tx ++ repeat 0 ((4 - length tx mod 4) mod 4).
Proof.
  intros Hle Hb H1 HU. unfold send_tx.
  destruct (tx_split (Z.of_nat (length tx))) as (Hlb & Hw & HL & Hr); [lia|exact HU|].
  set (lb := u32 (Z.of_nat (length tx) - 4 * (u32 (Z.of_nat (length tx) + 3) / 4 - 1))) in *.
  apply Z.eqb_neq in Hlb. rewrite Hlb, Hw.
  set (n := Z.to_nat ((Z.of_nat (length tx) + 3) / 4 - 1)).
  destruct (send_full_spec n 0 tx d Hle Hb) as (ws & E & Hs); [lia|]. rewrite E.
  rewrite slice_Some by lia. set (b := firstn (Z.to_nat lb) (skipn (4 * n) tx)).
  assert (Hbl : length b = Z.to_nat lb) by (unfold b; rewrite length_firstn, length_skipn; lia).
  set (b4 := b ++ repeat 0 (4 - Z.to_nat lb)).
  assert (Hb4 : Forall byte_ok b4 /\ length b4 = 4%nat).
  { split; [apply Forall_app; split; [apply Forall_firstn_Z, Forall_skipn_Z, Hb|]|].
    - apply Forall_forall. intros x Hx. apply repeat_spec in Hx. subst. unfold byte_ok. lia.
    - unfold b4. len_lia. }
  exists (ws ++ [bswap32 (le_val b4)]). split.
  - unfold push_dat, load32, set_queues. cbn [outq frames inq host_le]. rewrite Hle.
    fold b b4. rewrite <- app_assoc. reflexivity.
  - rewrite stream_bytes_app, Hs. cbn [stream_bytes flat_map]. rewrite app_nil_r.
    rewrite stream_word by apply Hb4. unfold b4, b. rewrite app_assoc. f_equal.
    + rewrite <- (firstn_skipn (4 * n) tx) at 3. f_equal. rewrite firstn_all2 by (rewrite length_skipn; lia). reflexivity.
    + f_equal. clearbody lb. clear - HL Hr.
      pose proof (Nat.div_mod (length tx) 4 ltac:(lia)). pose proof (Nat.mod_upper_bound (length tx) 4 ltac:(lia)).
      destruct (Nat.eq_dec (length tx mod 4) 0) as [E0|E0].
      * rewrite E0 in *. change ((4 - 0) mod 4)%nat with 0%nat. lia.
      * rewrite Nat.mod_small by lia. lia.
Qed.

Lemma write_at_prefix rx s :
  (length s <= length rx)%nat -> write_at rx 0 s = Some (s ++ skipn (length s) rx).
Proof. intros H. rewrite write_at_Some by (cbn; lia). reflexivity. Qed.

Lemma drop_words_all d ws : inq d = ws -> drop_words (length ws) d = set_queues (outq d) (frames d) [] d.
Proof. intros H. unfold drop_words. rewrite H, skipn_all. reflexivity. Qed.

Lemma firstn_stream_bytes k ws : firstn (4 * k) (stream_bytes ws) = stream_bytes (firstn k ws).
Proof.
  revert ws. induction k as [|k IH]; intros [|w ws]; try reflexivity.
  cbn [firstn stream_bytes flat_map]. fold (stream_bytes ws) (stream_bytes (firstn k ws)).
  rewrite firstn_app, length_rev, length_le_bytes, firstn_all2 by (rewrite length_rev, length_le_bytes; lia).
  replace (4 * S k - 4)%nat with (4 * k)%nat by lia. now rewrite IH.
Qed.

Lemma recv_payload_spec ws size rx d :
  host_le d = true -> inq d = ws ->
  let mn := Z.min (4 * Z.of_nat (length ws)) (Z.of_nat size) in
  (Z.to_nat mn <= length rx)%nat ->
  recv_payload (4 * Z.of_nat (length ws)) size rx d =
    (set_queues (outq d) (frames d) [] d,
     firstn (Z.to_nat mn) (stream_bytes ws) ++ skipn (Z.to_nat mn) rx, Ret mn).
Proof.
  intros Hle Hq mn Hrx. unfold recv_payload. fold mn.
  set (minw := Z.to_nat (mn / 4)).
  assert (Hmw : (minw <= length ws)%nat) by (unfold minw, mn; Z.div_mod_to_equations; lia).
  rewrite <- (firstn_skipn minw ws) in Hq.
  assert (Hl1 : length (firstn minw ws) = minw) by (rewrite length_firstn; lia).
  pose proof (write_at_prefix rx (stream_bytes (firstn minw ws))) as W.
  rewrite length_stream_bytes, Hl1 in W.
  rewrite <- Hl1 at 1. rewrite (recv_words_spec _ _ 0 rx _ d Hle Hq (W ltac:(unfold minw, mn in *; Z.div_mod_to_equations; lia))).
  set (d1 := set_queues (outq d) (frames d) (skipn minw ws) d).
  replace (4 * (mn / 4)) with (4 * Z.of_nat minw) by (unfold minw; Z.div_mod_to_equations; lia).
  destruct (Z.eqb_spec (mn - 4 * Z.of_nat minw) 0) as [R0|R0].
  - rewrite (discard_spec (length ws - minw)); [|lia|lia|unfold d1; cbn [inq set_queues]; rewrite length_skipn; lia].
    replace (length ws - minw)%nat with (length (skipn minw ws)) by (rewrite length_skipn; lia).
    rewrite drop_words_all by reflexivity. f_equal. f_equal.
    replace (Z.to_nat mn) with (4 * minw)%nat by lia. now rewrite firstn_stream_bytes.
  - destruct (skipn minw ws) as [|w ws3] eqn:Hs.
    { exfalso. pose proof (length_skipn minw ws) as L. rewrite Hs in L. cbn in L.
      unfold minw, mn in *. Z.div_mod_to_equations. lia. }
    rewrite (pop_dat_cons d1 w ws3) by reflexivity.
    rewrite store32_bswap by exact Hle.
    set (rem := Z.to_nat (mn - 4 * Z.of_nat minw)).
    assert (Hrem : (rem < 4 /\ 4 * minw + rem = Z.to_nat mn)%nat) by (unfold rem, minw, mn in *; Z.div_mod_to_equations; lia).
    pose proof (length_skipn minw ws) as L. rewrite Hs in L. cbn [length] in L.
    assert (LS : length (stream_bytes (firstn minw ws)) = (4 * minw)%nat) by (rewrite length_stream_bytes; lia).
    rewrite write_at_Some
      by (rewrite length_app, LS, length_skipn, length_firstn, length_rev, length_le_bytes; lia).
    rewrite (discard_spec (length ws3)); [|lia|lia|apply le_n].
    rewrite drop_words_all by reflexivity. f_equal. f_equal.
    replace (Z.to_nat (4 * Z.of_nat minw)) with (4 * minw)%nat by lia.
    replace (stream_bytes ws) with (stream_bytes (firstn minw ws) ++ rev (le_bytes 4 w) ++ stream_bytes ws3)
      by (change (rev (le_bytes 4 w) ++ stream_bytes ws3) with (stream_bytes (w :: ws3));
          rewrite <- Hs, <- stream_bytes_app, firstn_skipn; reflexivity).
    rewrite <- (proj2 Hrem). apply splice_partial; [exact LS|len_lia|lia].
Qed.

Lemma skipn_stream_bytes k ws : skipn (4 * k) (stream_bytes ws) = stream_bytes (skipn k ws).
Proof.
  rewrite <- (firstn_skipn k ws) at 1. rewrite stream_bytes_app.
  destruct (Nat.le_gt_cases k (length ws)).
  - rewrite <- (Nat.add_0_r (4 * k)). rewrite skipn_app_exact; [reflexivity|].
    rewrite length_stream_bytes, length_firstn. lia.
  - rewrite skipn_all2 by (rewrite length_app, !length_stream_bytes, length_firstn, length_skipn; lia).
    now rewrite (skipn_all2 ws) by lia.
Qed.

Lemma tmem_xfer_correct b d tx hd k rx size :
  host_le d = true -> wrdSiz_ d = 4 -> outq d = [] -> inq d = [] ->
  Forall byte_ok tx -> (1 <= length tx)%nat -> Z.of_nat (length tx) + 3 < 2 ^ 32 ->
  (4 * k <= length hd)%nat ->
  exists ws, stream_bytes ws = tx ++ repeat 0 ((4 - length tx mod 4) mod 4) /\
  forall w wr, fw d ws = (w, wr) ->
    let R := w :: wr in
    let mn := Nat.min (4 * (length R - k)) size in
    (k <= length R)%nat -> 4 * Z.of_nat (length R) < 2 ^ 32 -> (mn <= length rx)%nat ->
    let r := tmem_xfer b d tx hd (4 * k) rx size in
    xr_drv r = set_queues [] (frames d ++ [ws]) [] d /\
    xr_hd r = firstn (4 * k) (stream_bytes R) ++ skipn (4 * k) hd /\
    xr_rx r = firstn mn (skipn (4 * k) (stream_bytes R)) ++ skipn mn rx /\
    xr_base r = fst (drop_check b) /\
    xr_out r = if snd (drop_check b) then Throw (TimeoutErr "") else Ret (Z.of_nat mn).
Proof.
  intros Hle Hw Ho Hi Hb H1 HU Hk.
  destruct (send_tx_spec tx d Hle Hb H1 HU) as (ws & E & Hs).
  exists ws. split; [exact Hs|]. intros w wr Hf R mn HkR HR Hrx r.
  assert (Eeof : eof (set_queues (outq d ++ ws) (frames d) (inq d) d) = set_queues [] (frames d ++ [ws]) R d).
  { unfold eof. cbn [outq frames inq set_queues fw]. rewrite Ho. cbn [app]. rewrite Hf, Hi. reflexivity. }
  set (d2 := set_queues [] (frames d ++ [ws]) R d) in *.
  assert (Hgot : u32 (csr_nwords d2 * wrdSiz_ d2) = 4 * Z.of_nat (length R)).
  { unfold csr_nwords, d2, u32. cbn [inq wrdSiz_ set_queues]. rewrite Hw, wrap_small; lia. }
  assert (Hsplit : inq d2 = firstn k R ++ skipn k R) by (symmetry; apply firstn_skipn).
  assert (Lk : length (firstn k R) = k) by (rewrite length_firstn; lia).
  assert (Wh : write_at hd 0 (stream_bytes (firstn k R)) = Some (firstn (4 * k) (stream_bytes R) ++ skipn (4 * k) hd)).
  { rewrite write_at_Some by (rewrite length_stream_bytes; lia). rewrite length_stream_bytes, Lk, firstn_stream_bytes. reflexivity. }
  unfold r, tmem_xfer.
  replace ((4 * k) mod 4)%nat with 0%nat by (rewrite Nat.mul_comm; symmetry; apply Nat.Div0.mod_mul).
  replace (4 * k / 4)%nat with k by (rewrite Nat.mul_comm, Nat.div_mul; lia).
  cbn [Nat.eqb negb]. rewrite E.
  cbv beta iota zeta. rewrite Eeof, Hgot.
  destruct (Z.eqb_spec (4 * Z.of_nat (length R)) 0) as [|_]; [cbn in *; lia|].
  pose proof (recv_hdr_spec _ _ 0 (4 * Z.of_nat (length R)) hd _ d2 Hle Hsplit ltac:(rewrite Lk; lia) Wh) as RH.
  rewrite Lk in RH. rewrite RH. clear RH.
  replace (4 * Z.of_nat (length R) - 4 * Z.of_nat k) with (4 * Z.of_nat (length (skipn k R)))
    by (rewrite length_skipn; lia).
  set (d3 := set_queues (outq d2) (frames d2) (skipn k R) d2).
  rewrite (recv_payload_spec (skipn k R) size rx d3 Hle eq_refl) by (rewrite length_skipn; lia).
  replace (Z.to_nat (Z.min (4 * Z.of_nat (length (skipn k R))) (Z.of_nat size))) with mn
    by (unfold mn; rewrite length_skipn; lia).
  replace (Z.min (4 * Z.of_nat (length (skipn k R))) (Z.of_nat size)) with (Z.of_nat mn)
    by (unfold mn; rewrite length_skipn; lia).
  rewrite <- skipn_stream_bytes. destruct (drop_check b) as [b1 []]; cbn; repeat split.
Qed.

(** C19: On a little-endian host, with an idle FIFO, [xfer] sends the
    request bytes in stream order, zero-padded to whole words, as one
    frame; it fills the header buffer with the first [hsize] bytes of the
    reply, the receive buffer with the next [min(got, size)] bytes, leaves
    the receive FIFO empty and returns that count, unless the fault
    injection of [drop_] turns the transfer into a timeout. *)
Theorem tmem_xfer_spec b d tx hd k rx size :
  host_le d = true -> wrdSiz_ d = 4 -> outq d = [] -> inq d = [] ->
  Forall byte_ok tx -> (1 <= length tx)%nat -> Z.of_nat (length tx) + 3 < 2 ^ 32 ->
  (4 * k <= length hd)%nat ->
  exists ws, stream_bytes ws = tx ++ repeat 0 ((4 - length tx mod 4) mod 4) /\
  forall w wr, fw d ws = (w, wr) ->
    let R := w :: wr in
    let mn := Nat.min (4 * (length R - k)) size in
    (k <= length R)%nat -> 4 * Z.of_nat (length R) < 2 ^ 32 -> (mn <= length rx)%nat ->
    let r := tmem_xfer b d tx hd (4 * k) rx size in
    xr_drv r = set_queues [] (frames d ++ [ws]) [] d /\
    xr_hd r = firstn (4 * k) (stream_bytes R) ++ skipn (4 * k) hd /\
    xr_rx r = firstn mn (skipn (4 * k) (stream_bytes R)) ++ skipn mn rx /\
    xr_base r = fst (drop_check b) /\
    xr_out r = if snd (drop_check b) then Throw (TimeoutErr "") else Ret (Z.of_nat mn).
Proof. exact (tmem_xfer_correct b d tx hd k rx size). Qed.

Lemma send_full_nil n i d : send_full (S n) i [] d = (d, Throw MemFault).
Proof. cbn [send_full]. unfold slice. cbn [length]. destruct (Nat.leb_spec (4 * i + 4) 0); [lia|reflexivity]. Qed.

Lemma to_nat_word_max : Z.to_nat (2 ^ 32 - 1) = S (Z.to_nat (2 ^ 32 - 2)).
Proof. rewrite <- Z2Nat.inj_succ by lia. f_equal. Qed.

(** An empty request makes [txWords - 1] wrap to [2^32 - 1] and
    [xfer] reads the request buffer out of bounds. *)
Lemma tmem_xfer_empty_tx b d hd hsize rx size :
  (hsize mod 4 = 0)%nat ->
  tmem_xfer b d [] hd hsize rx size = mkXfer b d hd rx (Throw MemFault).
Proof.
  intros Hm. unfold tmem_xfer. rewrite Hm. cbn [Nat.eqb negb].
  unfold send_tx. cbn [length Z.of_nat].
  replace (u32 (0 + 3) / 4) with 0 by reflexivity.
  replace (u32 (0 - 4 * (0 - 1))) with 4 by reflexivity. cbn [Z.eqb].
  replace (u32 (0 - 1)) with (2 ^ 32 - 1) by reflexivity.
  rewrite to_nat_word_max, send_full_nil. reflexivity.
Qed.

(** On a big-endian host the unconditional [__builtin_bswap32] sends
    the bytes of each request word in reverse stream order. *)
Lemma tmem_send_big_endian tx d :
  host_le d = false -> Forall byte_ok tx -> length tx = 4%nat ->
  exists w, send_tx tx d = (push_dat w d, Ret tt) /\ stream_bytes [w] = rev tx.
Proof.
  intros Hbe Hb Hl. exists (bswap32 (be_val tx)). split.
  - unfold send_tx. rewrite Hl.
    replace (u32 (Z.of_nat 4 + 3) / 4) with 1 by reflexivity.
    replace (u32 (Z.of_nat 4 - 4 * (1 - 1))) with 4 by reflexivity.
    replace (u32 (1 - 1)) with 0 by reflexivity. replace (Z.to_nat 4) with 4%nat by reflexivity.
    cbn [Z.to_nat Z.eqb send_full Nat.mul Nat.add Nat.sub repeat]. rewrite slice_Some by lia.
    cbn [skipn]. rewrite firstn_all2, app_nil_r by lia. unfold load32. rewrite Hbe. reflexivity.
  - unfold stream_bytes, flat_map. rewrite app_nil_r. unfold be_val.
    apply stream_word; [now apply Forall_rev|now rewrite length_rev].
Qed.

(** [maxVec_] is the largest vector length such that a header
    word and two vectors (TMS and TDI) fill the FIFO exactly. *)
Lemma maxVecOf_fits maxw : 1 <= maxw < 2 ^ 50 -> 4 + 2 * maxVecOf maxw = maxw * 2 ^ 10.
Proof.
  intros H. unfold maxVecOf, wrap. rewrite Z.mod_small by (Z.div_mod_to_equations; lia).
  Z.div_mod_to_equations. lia.
Qed.

Lemma maxVecOf_empty : maxVecOf 0 = 2 ^ 63 - 2.
Proof. reflexivity. Qed.

Lemma recv_hdr_inv n i got hd d d' hd' o :
  recv_hdr n i got hd d = (d', hd', o) ->
  length hd' = length hd /\ (0 <= got -> forall g, o = Ret g -> 0 <= g).
Proof.
  revert i got hd d. induction n as [|n IH]; intros i got hd d E; cbn [recv_hdr] in E.
  - injection E as <- <- <-. split; [reflexivity|]. intros Hg g [= <-]. exact Hg.
  - destruct (pop_dat d) as [w d1]. destruct (Z.ltb_spec got 4).
    + injection E as <- <- <-. split; [reflexivity|discriminate].
    + destruct (write_at hd i _) as [hm|] eqn:W; [|injection E as <- <- <-; split; [reflexivity|discriminate]].
      destruct (IH _ _ _ _ E) as [L G]. split; [rewrite L; exact (length_write_at _ _ _ _ W)|].
      intros _. apply G. lia.
Qed.

Lemma recv_words_length n i rx d d' rx' o :
  recv_words n i rx d = (d', rx', o) -> length rx' = length rx.
Proof.
  revert i rx d. induction n as [|n IH]; intros i rx d E; cbn [recv_words] in E.
  - now injection E as <- <- <-.
  - destruct (pop_dat d) as [w d1]. destruct (write_at rx i _) as [rm|] eqn:W; [|now injection E as <- <- <-].
    rewrite (IH _ _ _ E). exact (length_write_at _ _ _ _ W).
Qed.

Lemma recv_payload_inv got size rx d d' rx' o :
  recv_payload got size rx d = (d', rx', o) ->
  length rx' = length rx /\ forall m, o = Ret m -> m = Z.min got (Z.of_nat size).
Proof.
  unfold recv_payload. destruct (recv_words _ _ _ _) as [[d1 rx1] [u|e]] eqn:E;
    pose proof (recv_words_length _ _ _ _ _ _ _ E) as L.
  - destruct (Z.eqb _ 0).
    + intros [= <- <- <-]. split; [exact L|]. intros m [= <-]. reflexivity.
    + destruct (pop_dat d1) as [w d2]. destruct (write_at rx1 _ _) as [r2|] eqn:W.
      * intros [= <- <- <-]. split; [rewrite (length_write_at _ _ _ _ W); exact L|]. intros m [= <-]. reflexivity.
      * intros [= <- <- <-]. split; [exact L|discriminate].
  - intros [= <- <- <-]. split; [exact L|discriminate].
Qed.

(** Every result of [tmem_xfer]: a throw before the header with both
    buffers untouched, or the buffers [recv_hdr] and [recv_payload] leave. *)
Lemma tmem_xfer_shape b d tx hd hs rx sz :
  let r := tmem_xfer b d tx hd hs rx sz in
  (xr_hd r = hd /\ xr_rx r = rx /\ exists e, xr_out r = Throw e) \/
  (exists n got d' d3 o, recv_hdr n 0 got hd d' = (d3, xr_hd r, o) /\ 0 <= got /\
     ((xr_rx r = rx /\ exists e, xr_out r = Throw e) \/
      exists g o', o = Ret g /\ recv_payload g sz rx d3 = (xr_drv r, xr_rx r, o') /\
        (forall m, xr_out r = Ret m -> o' = Ret m))).
Proof.
  cbv zeta. unfold tmem_xfer.
  destruct (negb _); [left; cbn; eauto|].
  destruct (send_tx tx d) as [d1 [u|e]]; [|left; cbn; eauto].
  destruct (Z.eqb _ 0); [left; cbn; eauto|].
  set (got := u32 _). assert (0 <= got) by (apply wrap_range; lia).
  destruct (recv_hdr _ _ _ _ _) as [[d3 hd1] [g|e]] eqn:H3.
  - right. exists (hs / 4)%nat, got, (eof d1), d3, (Ret g).
    destruct (recv_payload _ _ _ _) as [[d4 rx1] [m|e]] eqn:H4.
    + destruct (drop_check b) as [b1 []]; cbn; (split; [exact H3|split; [assumption|right]]);
        exists g, (Ret m); (split; [reflexivity|split; [exact H4|]]); intros m' E; [discriminate|exact E].
    + cbn. split; [exact H3|split; [assumption|right]]. exists g, (Throw e).
      split; [reflexivity|split; [exact H4|discriminate]].
  - right. exists (hs / 4)%nat, got, (eof d1), d3, (Throw e). cbn. split; [exact H3|]. split; [assumption|left; eauto].
Qed.

#[export] Instance Tmem_laws : TransportLaws dev.
Proof.
  split; intros b d tx hd hs rx sz; cbn [xfer Tmem_transport];
    destruct (tmem_xfer_shape b d tx hd hs rx sz) as [(Eh & Er & e & Eo)|(n & got & d' & d3 & o & H3 & Hg & Hp)].
  - intros _. now rewrite Eh.
  - intros _. destruct (recv_hdr_inv _ _ _ _ _ _ _ _ H3) as [L _]. exact L.
  - intros _. now rewrite Er.
  - intros _. destruct Hp as [(Er & _)|(g & o' & _ & H4 & _)]; [now rewrite Er|].
    exact (proj1 (recv_payload_inv _ _ _ _ _ _ _ H4)).
  - intros got' E. rewrite Eo in E. discriminate.
  - intros got' E. destruct Hp as [(_ & e & Eo)|(g & o' & Og & H4 & Hm)];
      [rewrite Eo in E; discriminate|].
    destruct (recv_hdr_inv _ _ _ _ _ _ _ _ H3) as [_ G]. pose proof (G Hg g Og).
    rewrite (proj2 (recv_payload_inv _ _ _ _ _ _ _ H4) got' (Hm got' E)). lia.
Qed.

(** A seven-byte request over a firmware that echoes the frame. *)
Lemma tmem_xfer_spec_witness :
  let d := mkDev true 4 510 (fun ws => (hd 0 ws, tl ws)) [] [] [] in
  exists ws, stream_bytes ws = [1; 2; 3; 4; 5; 6; 7] ++ repeat 0 ((4 - length [1; 2; 3; 4; 5; 6; 7] mod 4) mod 4) /\
  forall w wr, fw d ws = (w, wr) ->
    let R := w :: wr in
    let mn := Nat.min (4 * (length R - 1)) 10 in
    (1 <= length R)%nat -> 4 * Z.of_nat (length R) < 2 ^ 32 -> (mn <= length (repeat 0%Z 10))%nat ->
    let r := tmem_xfer (JtagDriver_new 0) d [1; 2; 3; 4; 5; 6; 7] [0; 0; 0; 0] (4 * 1) (repeat 0 10) 10 in
    xr_drv r = set_queues [] (frames d ++ [ws]) [] d /\
    xr_hd r = firstn (4 * 1) (stream_bytes R) ++ skipn (4 * 1) [0; 0; 0; 0] /\
    xr_rx r = firstn mn (skipn (4 * 1) (stream_bytes R)) ++ skipn mn (repeat 0 10) /\
    xr_base r = fst (drop_check (JtagDriver_new 0)) /\
    xr_out r = if snd (drop_check (JtagDriver_new 0)) then Throw (TimeoutErr "") else Ret (Z.of_nat mn).
Proof.
  intros d. apply tmem_xfer_spec; try reflexivity; try (cbn; lia).
  repeat constructor; unfold byte_ok; lia.
Defined.

Lemma tmem_xfer_empty_tx_witness :
  let d := mkDev true 4 510 (fun ws => (0, [])) [] [] [] in
  tmem_xfer (JtagDriver_new 0) d [] [0; 0; 0; 0] 4 [] 0 =
    mkXfer (JtagDriver_new 0) d [0; 0; 0; 0] [] (Throw MemFault).
Proof. intros d. apply tmem_xfer_empty_tx. reflexivity. Defined.

Lemma tmem_send_big_endian_witness :
  let d := mkDev false 4 510 (fun ws => (0, [])) [] [] [] in
  exists w, send_tx [1; 2; 3; 4] d = (push_dat w d, Ret tt) /\ stream_bytes [w] = rev [1; 2; 3; 4].
Proof.
  intros d. apply tmem_send_big_endian; [reflexivity| |reflexivity].
  repeat constructor; unfold byte_ok; lia.
Defined.

Lemma maxVecOf_fits_witness : 4 + 2 * maxVecOf 1 = 1 * 2 ^ 10.
Proof. apply maxVecOf_fits. lia. Defined.

End TmemFifo.
