(* ===== verification/TmemCtor.v ===== *)
(** * The constructor of the TMEM FIFO driver

    [JtagDriverTmemFifo::JtagDriverTmemFifo] (src/xvcSrv/src/xvcDrvAxisTmem.cc
    lines 29-85): after the base constructor it parses the target
    "<tosca_addr_space>:<numerical_base_address>", reads the driver
    options ([-i <irq_file_name>]), resets the FIFO, checks the magic
    word and the firmware version in the CSR, sets the word size to 4
    and computes [maxVec_], and opens the interrupt descriptor.

    The register layout ([MAGIC], the CSR masks and shifts, the
    supported version) is declared in xvcDrvAxisTmem.h, outside the
    sources: the constants are section variables, and so are the
    library calls [toscaStrToAddrSpace], [strtoul] and [open], and the
    two register values the constructor reads.  The default [debug] of
    the base constructor is a parameter.  The file also holds the
    interrupt handshake [wait], the outcomes of its [write] and [read]
    being parameters, and the driver's [usage] text. *)

From Stdlib Require Import ZArith Ascii String List Lia.
From S2P Require Import Prelude Header Transport Driver TmemFifo.
Import ListNotations Codec Jtag AxisToJtag TmemFifo.

Module TmemCtor.
Open Scope Z_scope.

(** The members of [JtagDriverTmemFifo] besides the FIFO device;
    [irqFd_ >= 0] is [irq]. *)
Record tosca : Type := mkTosca {
  toscaSpace_ : Z;
  toscaBase_ : Z;
  irq : bool
}.

(** [(csr & mask) >> shift]. *)
Definition csr_field (csr mask shift : Z) : Z := Z.shiftr (Z.land csr mask) shift.

Section Ctor.
(** [toscaStrToAddrSpace(devnam, &basp)]: the address space (0 for
    none) and the text after it. *)
Variable toscaStrToAddrSpace : string -> Z * string.
(** [strtoul(basp, &endp, 0)]: [None] when no digit is read
    ([endp == basp]). *)
Variable strtoul0 : string -> option Z.
(** [open(irqfn, O_RDWR) >= 0]. *)
Variable open_ok : string -> bool.
Variables MAGIC FIFO_CSR_VERSM FIFO_CSR_VERSS SUPPORTED_VERS FIFO_CSR_MAXWM FIFO_CSR_MAXWS : Z.
(** [i32(FIFO_MAGIC_IDX)] and [i32(FIFO_CSR_IDX)] after the reset. *)
Variables magic_reg csr_reg : Z.

(** Lines 50-57: [getopt(argc, argv, "i:")]. *)
Fixpoint drv_opts (items : list (ascii * string)) (irqfn : option string)
    : outcome xvc_exn (option string) :=
  match items with
  | [] => Ret irqfn
  | (opt, optarg) :: rest =>
      if (opt =? "i")%char then drv_opts rest (Some optarg)
      else Throw (RuntimeErr "Unknown driver option")
  end.

Definition JtagDriverTmemFifo_new (debug xid0 : Z) (devnam : string)
    (items : list (ascii * string)) (d : dev) : outcome xvc_exn (state (T:=dev) * tosca) :=
  let '(space, basp) := toscaStrToAddrSpace devnam in
  match strtoul0 basp with
  | None => Throw (RuntimeErr "Invalid <target>")
  | Some base =>
      if space =? 0 then Throw (RuntimeErr "Invalid <target>")
      else
        match drv_opts items None with
        | Throw e => Throw e
        | Ret irqfn =>
            let d1 := TmemFifo.reset d in
            if negb (MAGIC =? magic_reg) then Throw (RuntimeErr "TMEM Device not found")
            else if negb (csr_field csr_reg FIFO_CSR_VERSM FIFO_CSR_VERSS =? SUPPORTED_VERS)
            then Throw (RuntimeErr "TMEM Device wrong FW version")
            else
              let d2 := {| host_le := host_le d1; wrdSiz_ := 4;
                           maxVec_ := maxVecOf (csr_field csr_reg FIFO_CSR_MAXWM FIFO_CSR_MAXWS);
                           fw := fw d1; outq := outq d1; frames := frames d1; inq := inq d1 |} in
              let fd := match irqfn with Some f => open_ok f | None => false end in
              Ret (JtagDriverAxisToJtag_new debug d2 xid0,
                   {| toscaSpace_ := space; toscaBase_ := base; irq := fd |})
        end
  end.
End Ctor.

(** ** The interrupt handshake and the driver's usage *)

Section Irq.
(** What [write] and [read] on the interrupt descriptor return: the
    byte counts, and the word [read] stores into [evs]. *)
Variable write_ret read_ret : Z.
Variable read_val : Z.

(** [JtagDriverTmemFifo::wait] (lines 113-127): with a descriptor, one
    word written to enable the interrupt and one read to wait for it;
    without one, a busy wait returning 0. *)
Definition wait (t : tosca) : outcome xvc_exn Z :=
  if irq t then
    if negb (write_ret =? 4) then Throw (SysErr "Unable to write to IRQ descriptor")
    else if negb (read_ret =? 4) then Throw (SysErr "Unable to read from IRQ descriptor")
    else Ret (u32 read_val)
  else Ret 0.
End Irq.

(** [JtagDriverTmemFifo::usage] (lines 242-248): the lines it prints. *)
Definition tmem_usage : list string :=
  map (fun l => (l ++ String "010" EmptyString)%string)
    ["  Axi Stream <-> TMEM Fifo Driver options: [-i]";
     "  -t <aspace>:<base_address>, e.g., -t USER2:0x200000";
     "  -i <irq_file_name>        , e.g., -i /dev/toscauserevent1.13 (defaults to polled mode)"]%string.

(** ** Facts *)

Lemma drv_opts_unknown items irqfn :
  (exists it, In it items /\ fst it <> "i"%char) ->
  drv_opts items irqfn = Throw (RuntimeErr "Unknown driver option").
Proof.
  revert irqfn. induction items as [|[o a] items IH]; intros irqfn [it [Hin Hit]]; [destruct Hin|].
  cbn [drv_opts]. destruct (Ascii.eqb_spec o "i") as [->|Ho]; [|reflexivity].
  apply IH. destruct Hin as [<-|Hin]; [contradiction|]. exists it. auto.
Qed.

Lemma drv_opts_ok items irqfn :
  Forall (fun it => fst it = "i"%char) items -> exists irq', drv_opts items irqfn = Ret irq'.
Proof.
  revert irqfn. induction items as [|[o a] items IH]; intros irqfn Hall; [eexists; reflexivity|].
  inversion Hall as [|? ? Ho Hr]; subst. cbn [fst] in Ho. subst o. cbn [drv_opts Ascii.eqb Bool.eqb andb].
  now apply IH.
Qed.

Section Facts.
Variable toscaStrToAddrSpace : string -> Z * string.
Variable strtoul0 : string -> option Z.
Variable open_ok : string -> bool.
Variables MAGIC FIFO_CSR_VERSM FIFO_CSR_VERSS SUPPORTED_VERS FIFO_CSR_MAXWM FIFO_CSR_MAXWS : Z.
Variables magic_reg csr_reg : Z.

(** C20: A constructed TMEM driver found the magic word and a supported
    firmware; its members satisfy [wf] with a word size of 4, fault
    injection is off, its FIFO device has word size 4, the [maxVec_] of
    the CSR's size field and empty queues, on the same host and
    firmware: what [JtagDriverTmemFifo::init] needs to negotiate. *)
Theorem tmem_new_ok debug xid0 devnam items d s t :
  JtagDriverTmemFifo_new toscaStrToAddrSpace strtoul0 open_ok MAGIC FIFO_CSR_VERSM FIFO_CSR_VERSS
    SUPPORTED_VERS FIFO_CSR_MAXWM FIFO_CSR_MAXWS magic_reg csr_reg debug xid0 devnam items d = Ret (s, t) ->
  magic_reg = MAGIC /\ csr_field csr_reg FIFO_CSR_VERSM FIFO_CSR_VERSS = SUPPORTED_VERS /\
  wf s /\ wordSize_ s = 4%nat /\ drEn_ (base s) = false /\
  wrdSiz_ (drv s) = 4 /\ maxVec_ (drv s) = maxVecOf (csr_field csr_reg FIFO_CSR_MAXWM FIFO_CSR_MAXWS) /\
  outq (drv s) = [] /\ inq (drv s) = [] /\ host_le (drv s) = host_le d /\ fw (drv s) = fw d.
Proof.
  unfold JtagDriverTmemFifo_new. destruct (toscaStrToAddrSpace devnam) as [space basp].
  destruct (strtoul0 basp) as [b|]; [|discriminate]. destruct (space =? 0); [discriminate|].
  destruct (drv_opts items None) as [irqfn|e]; [|discriminate].
  destruct (Z.eqb_spec MAGIC magic_reg) as [Hm|]; [|discriminate].
  destruct (Z.eqb_spec (csr_field csr_reg FIFO_CSR_VERSM FIFO_CSR_VERSS) SUPPORTED_VERS) as [Hv|];
    [|discriminate].
  cbn [negb]. intros [= <- <-].
  split; [auto|]. split; [exact Hv|]. split; [wf_concrete|]. repeat split.
Qed.

(** C21: With a valid target, an option other than [-i] is rejected
    before the device is probed, whatever it holds; with valid options a
    missing magic word is "TMEM Device not found". *)
Theorem tmem_new_rejects debug xid0 devnam items d space basp b :
  toscaStrToAddrSpace devnam = (space, basp) -> space <> 0 -> strtoul0 basp = Some b ->
  ((exists it, In it items /\ fst it <> "i"%char) ->
     JtagDriverTmemFifo_new toscaStrToAddrSpace strtoul0 open_ok MAGIC FIFO_CSR_VERSM FIFO_CSR_VERSS
       SUPPORTED_VERS FIFO_CSR_MAXWM FIFO_CSR_MAXWS magic_reg csr_reg debug xid0 devnam items d = Throw (RuntimeErr "Unknown driver option")) /\
  (Forall (fun it => fst it = "i"%char) items -> magic_reg <> MAGIC ->
     JtagDriverTmemFifo_new toscaStrToAddrSpace strtoul0 open_ok MAGIC FIFO_CSR_VERSM FIFO_CSR_VERSS
       SUPPORTED_VERS FIFO_CSR_MAXWM FIFO_CSR_MAXWS magic_reg csr_reg debug xid0 devnam items d = Throw (RuntimeErr "TMEM Device not found")).
Proof.
  intros Ht Hs Hb. unfold JtagDriverTmemFifo_new. rewrite Ht, Hb.
  destruct (Z.eqb_spec space 0) as [|_]; [contradiction|]. split.
  - intros Hu. now rewrite (drv_opts_unknown items None Hu).
  - intros Hall Hm. destruct (drv_opts_ok items None Hall) as [irq' ->].
    destruct (Z.eqb_spec MAGIC magic_reg); [congruence|reflexivity].
Qed.
End Facts.

(** ** Witnesses: target "USER2:0x200000", a CSR of version 1 and a
    FIFO size field of 1 *)

(** A device with stale words in both directions. *)
Definition dev_ex : dev :=
  {| host_le := true; wrdSiz_ := 0; maxVec_ := 0; fw := fun _ => (0, []);
     outq := [9]; frames := []; inq := [7; 7] |}.

Definition ex_new (magic : Z) (items : list (ascii * string)) :=
  JtagDriverTmemFifo_new (fun _ => (2, "0x200000"%string)) (fun _ => Some 2097152) (fun _ => true)
    1234 (15 * 2 ^ 28) 28 1 (255 * 2 ^ 4) 4 magic (2 ^ 28 + 2 ^ 4) 0 0 "USER2:0x200000"
    items dev_ex.

Lemma tmem_new_ok_witness :
  exists s t, ex_new 1234 [("i"%char, "/dev/toscauserevent1.13"%string)] = Ret (s, t) /\
    wf s /\ maxVec_ (drv s) = 510 /\ inq (drv s) = [] /\ outq (drv s) = [].
Proof.
  destruct (ex_new 1234 [("i"%char, "/dev/toscauserevent1.13"%string)]) as [[s t]|e] eqn:E;
    [|vm_compute in E; discriminate].
  destruct (tmem_new_ok _ _ _ _ _ _ _ _ _ _ _ _ _ _ _ _ _ _ E) as (_ & _ & W & _ & _ & _ & Hm & Ho & Hi & _).
  exists s, t. split; [reflexivity|]. split; [exact W|]. rewrite Hm, Ho, Hi. split; [reflexivity|split; reflexivity].
Defined.

Lemma tmem_new_rejects_witness :
  ex_new 0 [("x"%char, ""%string)] = Throw (RuntimeErr "Unknown driver option") /\
  ex_new 0 [] = Throw (RuntimeErr "TMEM Device not found").
Proof.
  unfold ex_new. split.
  - apply (tmem_new_rejects (fun _ => (2, "0x200000"%string)) (fun _ => Some 2097152) (fun _ => true)
             1234 (15 * 2 ^ 28) 28 1 (255 * 2 ^ 4) 4 0 (2 ^ 28 + 2 ^ 4) 0 0 "USER2:0x200000"
             [("x"%char, ""%string)] dev_ex 2 "0x200000"%string 2097152); [reflexivity|lia|reflexivity|].
    exists ("x"%char, ""%string). split; [left; reflexivity|discriminate].
  - apply (tmem_new_rejects (fun _ => (2, "0x200000"%string)) (fun _ => Some 2097152) (fun _ => true)
             1234 (15 * 2 ^ 28) 28 1 (255 * 2 ^ 4) 4 0 (2 ^ 28 + 2 ^ 4) 0 0 "USER2:0x200000"
             [] dev_ex 2 "0x200000"%string 2097152); [reflexivity|lia|reflexivity|constructor|lia].
Defined.

End TmemCtor.
