(* ===== verification/Reformatter.v ===== *)
(** * The vector reformatter: [sendVectors]

    [JtagDriverAxisToJtag::sendVectors] (src/xvcSrv/src/xvcSrv.cc lines
    423-485) packs a TMS/TDI bit-vector pair of [bits] bits into a
    header word and word-interleaved TMS and TDI words, sends it through
    [xferRel] and receives the TDO bytes into the caller's buffer.
    [fmtVectors] is the buffer-filling part (lines 444-460), [pack_words]
    its loop over whole words.  The debug printing ([prwrds]) and the
    JTAG sniffer are output only.  The byte counts are the source's
    locals at their widths ([unsigned long] [bytesCeil], [unsigned] for
    the others): up to [2 ^ 33 - 8] bits nothing wraps and the request
    is the header and a TMS/TDI word pair per word begun
    ([frame_bytes]); beyond, the counts wrap modulo [2 ^ 32]
    ([sendVectors_wraps]). *)

From Stdlib Require Import ZArith String List Lia.
From S2P Require Import Prelude Header Period Transport Driver Negotiation.
Import ListNotations Codec Jtag AxisToJtag Negotiation.

Module Reformatter.
Open Scope xvc_scope.
Open Scope nat_scope.

Section Vectors.
Context {T : Type} `{Transport T}.

(** The loop [for (idx = 0; idx < wholeWordBytes; idx += wsz)] runs
    [wholeWords] times: one TMS word then one TDI word per pass. *)
Fixpoint pack_words (n wsz idx wp : nat) (tms tdi buf : list Z) : option (list Z) :=
  match n with
  | O => Some buf
  | S n' =>
      a <-? slice tms idx wsz ;;
      buf1 <-? write_at buf wp a ;;
      b <-? slice tdi idx wsz ;;
      buf2 <-? write_at buf1 (wp + wsz) b ;;
      pack_words n' wsz (idx + wsz) (wp + 2 * wsz) tms tdi buf2
  end.

(** The locals of lines 425-433 for the word size [wsz]: [bits] and
    [bytesCeil] are [unsigned long] (64 bits), the others [unsigned] (32
    bits).  [wordCeilBytes] and [bytesLeft] are computed in [unsigned
    long], where they cannot wrap ([bytesCeil < 2 ^ 61]), then stored in
    an [unsigned]. *)
Definition bytesCeil (bits : Z) : Z := wrap 64 (bits + 8 - 1) / 8.

Definition wholeWords (wsz bits : Z) : Z := u32 (bytesCeil bits / wsz).

Definition wholeWordBytes (wsz bits : Z) : Z := u32 (wholeWords wsz bits * wsz).

Definition wordCeilBytes (wsz bits : Z) : Z := u32 ((bytesCeil bits + wsz - 1) / wsz * wsz).

Definition bytesLeft (wsz bits : Z) : Z := u32 (bytesCeil bits - wholeWordBytes wsz bits).

(** The request size. *)
Definition bytesTot (wsz bits : Z) : Z := u32 (wsz + 2 * wordCeilBytes wsz bits).

(** The passes of [for (idx = 0; idx < wholeWordBytes; idx += wsz)]:
    [idx] runs through the multiples of [wsz] below [wholeWordBytes]. *)
Definition passes (wsz W : Z) : Z := (W + wsz - 1) / wsz.

(** Lines 444-460: the header, the whole words, then the remaining
    [bytesLeft] bytes of each vector at the start of the next TMS and
    TDI word slots, from the [idx] the loop ends with.  When the
    [unsigned] [idx] wraps before it reaches [wholeWordBytes] the loop
    never ends and its copies run past the buffer: [None]. *)
Definition fmtVectors (wsz : nat) (txBuf : list Z) (hdr bits : Z)
    (tms tdi : list Z) : option (list Z) :=
  let w := Z.of_nat wsz in
  let n := passes w (wholeWordBytes w bits) in
  let left := Z.to_nat (bytesLeft w bits) in
  buf1 <-? setHdr wsz txBuf hdr ;;
  if (2 ^ 32 <=? n * w)%Z then None
  else
    buf2 <-? pack_words (Z.to_nat n) wsz 0 wsz tms tdi buf1 ;;
    let idx := (Z.to_nat n * wsz)%nat in
    let wp := (wsz + 2 * idx)%nat in
    if (left =? 0)%nat then Some buf2
    else
      a <-? slice tms idx left ;;
      buf3 <-? write_at buf2 wp a ;;
      b <-? slice tdi idx left ;;
      write_at buf3 (wp + wsz) b.

(** [mkShift] takes an [unsigned]: the [unsigned long] bit count is
    truncated to 32 bits, and so is [bytesCeil] as the [unsigned]
    [sizeBytes] of [xferRel].  The caller's [tdo] buffer is returned as
    [xferRel] left it. *)
Definition sendVectors (bits : Z) (tms tdi tdo : list Z) : M (T:=T) (list Z) :=
  s <- esm_get ;;
  let wsz := getWordSize s in
  let '(xid', hdr) := mkShift (xid_ s) (u32 bits) in
  esm_modify (set_xid xid') ;;
  buf <- lift_mem (fmtVectors wsz (txBuf_ s) hdr bits tms tdi) ;;
  esm_modify (set_txBuf buf) ;;
  r <- xferRel buf (Z.to_nat (bytesTot (Z.of_nat wsz) bits)) tdo (Z.to_nat (u32 (bytesCeil bits))) ;;
  let '(_, _, tdo') := r in
  esm_ret tdo'.

End Vectors.

(** ** The peer's reading of a request *)

(** Byte [i] of a vector is byte [i mod wsz] of its word [i / wsz]; the
    TMS word [k] is at [2 * wsz * k] of the body, the TDI word follows. *)
Definition tms_pos (wsz i : nat) : nat := 2 * wsz * (i / wsz) + i mod wsz.

Definition unpack (wsz off : nat) (body : list Z) (n : nat) : list Z :=
  map (fun i => nth (tms_pos wsz i + off) body 0%Z) (seq 0 n).


(** ** Facts *)

Lemma tms_pos_small wsz i : i < wsz -> tms_pos wsz i = i.
Proof. intros H. unfold tms_pos. rewrite Nat.div_small, Nat.mod_small by lia. lia. Qed.

Lemma tms_pos_shift wsz i : 0 < wsz -> tms_pos wsz (wsz + i) = 2 * wsz + tms_pos wsz i.
Proof.
  intros H. unfold tms_pos. replace (wsz + i) with (i + 1 * wsz) by lia.
  rewrite Nat.div_add, Nat.Div0.mod_add by lia. lia.
Qed.

Lemma tms_pos_lt wsz i n : 0 < wsz -> i < wsz * n -> tms_pos wsz i + wsz < 2 * wsz * n.
Proof.
  intros H Hi. unfold tms_pos.
  assert (i / wsz < n) by (apply Nat.Div0.div_lt_upper_bound; lia).
  pose proof (Nat.mod_upper_bound i wsz ltac:(lia)). nia.
Qed.

Lemma tms_pos_last wsz k r : r < wsz -> tms_pos wsz (k * wsz + r) = 2 * wsz * k + r.
Proof.
  intros H. unfold tms_pos. rewrite (Nat.add_comm (k * wsz)).
  rewrite Nat.div_add, Nat.Div0.mod_add, Nat.div_small, Nat.mod_small by lia. lia.
Qed.

(** One pass of the copy: [n] bytes of each vector from [idx], the TMS
    bytes at [wp] and the TDI bytes one word later. *)
Lemma write_pair n wsz idx wp (tms tdi buf : list Z) :
  n <= wsz -> wp + wsz + n <= length buf -> idx + n <= length tms -> idx + n <= length tdi ->
  exists a b buf1 buf2,
    slice tms idx n = Some a /\ write_at buf wp a = Some buf1 /\
    slice tdi idx n = Some b /\ write_at buf1 (wp + wsz) b = Some buf2 /\
    length buf2 = length buf /\
    (forall j, (j < wp \/ wp + n <= j) -> (j < wp + wsz \/ wp + wsz + n <= j) ->
       nth j buf2 0%Z = nth j buf 0%Z) /\
    (forall i, i < n -> nth (wp + i) buf2 0%Z = nth (idx + i) tms 0%Z /\
                        nth (wp + wsz + i) buf2 0%Z = nth (idx + i) tdi 0%Z).
Proof.
  intros Hn Hb Hm Hd.
  destruct (slice tms idx n) as [a|] eqn:Sa; [|rewrite slice_Some in Sa by lia; discriminate].
  destruct (slice tdi idx n) as [b|] eqn:Sb; [|rewrite slice_Some in Sb by lia; discriminate].
  pose proof (length_slice _ _ _ _ Sa) as La. pose proof (length_slice _ _ _ _ Sb) as Lb.
  destruct (write_at buf wp a) as [buf1|] eqn:W1; [|rewrite write_at_Some in W1 by lia; discriminate].
  pose proof (length_write_at _ _ _ _ W1) as L1.
  destruct (write_at buf1 (wp + wsz) b) as [buf2|] eqn:W2;
    [|rewrite write_at_Some in W2 by lia; discriminate].
  exists a, b, buf1, buf2. do 4 (split; [first [reflexivity|assumption]|]).
  split; [rewrite (length_write_at _ _ _ _ W2); lia|]. split.
  - intros j Hj1 Hj2. rewrite (nth_write_at_out _ _ _ _ _ _ W2) by lia.
    apply (nth_write_at_out _ _ _ _ _ _ W1). lia.
  - intros i Hi. rewrite (nth_write_at_out _ _ _ _ _ _ W2) by lia.
    rewrite (nth_write_at_in _ _ _ _ _ _ W1), (nth_write_at_in _ _ _ _ _ _ W2) by lia.
    rewrite (nth_slice _ _ _ _ _ _ Sa), (nth_slice _ _ _ _ _ _ Sb) by lia.
    split; f_equal; lia.
Qed.

Lemma pack_words_spec n wsz idx wp tms tdi buf :
  0 < wsz -> wp + 2 * wsz * n <= length buf ->
  idx + wsz * n <= length tms -> idx + wsz * n <= length tdi ->
  exists buf', pack_words n wsz idx wp tms tdi buf = Some buf' /\
    length buf' = length buf /\
    (forall j, j < wp \/ wp + 2 * wsz * n <= j -> nth j buf' 0%Z = nth j buf 0%Z) /\
    (forall i, i < wsz * n ->
       nth (wp + tms_pos wsz i) buf' 0%Z = nth (idx + i) tms 0%Z /\
       nth (wp + tms_pos wsz i + wsz) buf' 0%Z = nth (idx + i) tdi 0%Z).
Proof.
  intros Hw. revert idx wp buf; induction n as [|n IH]; intros idx wp buf Hb Hm Hd.
  - exists buf. split; [reflexivity|]. split; [reflexivity|]. split; [auto|]. intros i0 Hi0. lia.
  - destruct (write_pair wsz wsz idx wp tms tdi buf) as (a & b & buf1 & buf2 & Sa & W1 & Sb & W2 & L2 & Out2 & In2);
      try lia.
    cbn [pack_words]. rewrite Sa. cbv beta iota. rewrite W1. cbv beta iota. rewrite Sb. cbv beta iota.
    rewrite W2. cbv beta iota.
    destruct (IH (idx + wsz) (wp + 2 * wsz) buf2) as (buf' & E & L' & Out & In); try lia.
    exists buf'. split; [exact E|]. split; [lia|]. split.
    + intros j Hj. rewrite Out, Out2 by lia. reflexivity.
    + intros i Hi. destruct (Nat.lt_ge_cases i wsz) as [Hs|Hs].
      * rewrite tms_pos_small by exact Hs. rewrite !Out by lia.
        replace (wp + i + wsz) with (wp + wsz + i) by lia. apply In2, Hs.
      * replace i with (wsz + (i - wsz)) by lia. rewrite tms_pos_shift by lia.
        destruct (In (i - wsz)) as [I1 I2]; [lia|].
        replace (wp + (2 * wsz + tms_pos wsz (i - wsz))) with (wp + 2 * wsz + tms_pos wsz (i - wsz)) by lia.
        rewrite I1, I2. split; f_equal; lia.
Qed.

(** *** The counts in the range where nothing wraps *)

(** The size of a request for [bc] vector bytes: the header word and a
    TMS/TDI word pair for every word begun. *)
Definition frame_bytes (wsz bc : nat) : nat :=
  wsz + 2 * wsz * (bc / wsz) + (if bc - bc / wsz * wsz =? 0 then 0 else 2 * wsz).

Lemma bytesCeil_small bits :
  (0 <= bits <= 2 ^ 33 - 8)%Z -> bytesCeil bits = ((bits + 7) / 8)%Z /\ (0 <= bytesCeil bits <= 2 ^ 30)%Z.
Proof.
  intros H. unfold bytesCeil. rewrite wrap_small by lia.
  replace (bits + 8 - 1)%Z with (bits + 7)%Z by lia. split; [reflexivity|].
  split; [apply Z.div_pos; lia|apply Z.div_le_upper_bound; lia].
Qed.

(** Up to [2 ^ 33 - 8] bits no count wraps: the loop makes [bytesCeil /
    wsz] passes and [bytesTot] is the header and the word pairs. *)
Lemma counts_exact w bits :
  (1 <= w <= 16)%Z -> (0 <= bits <= 2 ^ 33 - 8)%Z ->
  let B := bytesCeil bits in
  passes w (wholeWordBytes w bits) = (B / w)%Z /\ (B / w * w < 2 ^ 32)%Z /\
  bytesLeft w bits = (B mod w)%Z /\
  bytesTot w bits = (w + 2 * w * (B / w) + (if B mod w =? 0 then 0 else 2 * w))%Z /\
  u32 B = B.
Proof.
  intros Hw Hb B. destruct (bytesCeil_small bits Hb) as [_ HB]. fold B in HB.
  pose proof (Z.div_mod B w ltac:(lia)) as Ed. pose proof (Z.mod_pos_bound B w ltac:(lia)) as Em.
  unfold passes, bytesLeft, bytesTot, wordCeilBytes, wholeWordBytes, wholeWords, u32. fold B.
  set (q := (B / w)%Z) in *. set (r := (B mod w)%Z) in *.
  assert (Hq : (0 <= q <= B)%Z) by nia.
  assert (Hc : ((B + w - 1) / w = q + (if r =? 0 then 0 else 1))%Z).
  { symmetry. destruct (Z.eqb_spec r 0) as [R|R].
    - apply (Z.div_unique_pos _ _ _ (w - 1)); lia.
    - apply (Z.div_unique_pos _ _ _ (r - 1)); lia. }
  rewrite Hc, (wrap_small 32 q), (wrap_small 32 (q * w)), (wrap_small 32 (B - q * w)) by nia.
  rewrite (wrap_small 32 ((q + _) * w)) by (destruct (r =? 0)%Z; nia).
  rewrite (wrap_small 32 B) by lia.
  rewrite wrap_small by (destruct (r =? 0)%Z; nia).
  split; [symmetry; apply (Z.div_unique_pos _ _ _ (w - 1)); lia|].
  split; [lia|]. split; [lia|]. split; [destruct (r =? 0)%Z; lia|reflexivity].
Qed.

Lemma counts_nat wsz bits :
  1 <= wsz <= 16 -> (0 <= bits <= 2 ^ 33 - 8)%Z ->
  let bc := Z.to_nat (bytesCeil bits) in
  let w := Z.of_nat wsz in
  Z.to_nat (passes w (wholeWordBytes w bits)) = bc / wsz /\
  (2 ^ 32 <=? passes w (wholeWordBytes w bits) * w)%Z = false /\
  Z.to_nat (bytesLeft w bits) = bc - bc / wsz * wsz /\
  Z.to_nat (bytesTot w bits) = frame_bytes wsz bc /\
  Z.to_nat (u32 (bytesCeil bits)) = bc /\ (Z.of_nat bc <= 2 ^ 30)%Z.
Proof.
  intros Hw Hb bc w.
  destruct (counts_exact w bits ltac:(lia) Hb) as (E1 & E2 & E3 & E4 & E5).
  destruct (bytesCeil_small bits Hb) as [_ HB].
  assert (Hbc : Z.of_nat bc = bytesCeil bits) by (apply Z2Nat.id; lia).
  assert (Hq : Z.of_nat (bc / wsz) = (bytesCeil bits / w)%Z) by (rewrite Nat2Z.inj_div, Hbc; reflexivity).
  pose proof (Nat.div_mod bc wsz ltac:(lia)) as Ed.
  assert (Hr : Z.of_nat (bc - bc / wsz * wsz) = (bytesCeil bits mod w)%Z).
  { rewrite Zmod_eq_full by lia. rewrite <- Hq, <- Hbc. lia. }
  rewrite E1, E3, E4, E5. split; [lia|]. split; [apply Z.leb_gt; exact E2|].
  split; [lia|]. split; [|split; lia].
  unfold frame_bytes. rewrite <- Hr.
  destruct (Nat.eqb_spec (bc - bc / wsz * wsz) 0) as [R|R];
    [rewrite R; cbn [Z.of_nat Z.eqb]|destruct (Z.eqb_spec (Z.of_nat (bc - bc / wsz * wsz)) 0); [lia|]];
    rewrite <- Hq; lia.
Qed.

Lemma frame_bytes_split wsz bc : 0 < wsz ->
  bc = bc / wsz * wsz + (bc - bc / wsz * wsz) /\ bc - bc / wsz * wsz < wsz.
Proof.
  intros H. pose proof (Nat.div_mod bc wsz ltac:(lia)).
  pose proof (Nat.mod_upper_bound bc wsz ltac:(lia)). nia.
Qed.

Lemma fmtVectors_nth wsz txBuf hdr bits tms tdi :
  4 <= wsz <= 16 -> (0 <= bits <= 2 ^ 33 - 8)%Z ->
  let bc := Z.to_nat (bytesCeil bits) in
  frame_bytes wsz bc <= length txBuf -> bc <= length tms -> bc <= length tdi ->
  exists buf, fmtVectors wsz txBuf hdr bits tms tdi = Some buf /\ length buf = length txBuf /\
    (forall j, j < wsz -> nth j buf 0%Z = nth j (le_bytes 4 hdr ++ repeat 0%Z (wsz - 4)) 0%Z) /\
    (forall i, i < bc ->
       nth (wsz + tms_pos wsz i) buf 0%Z = nth i tms 0%Z /\
       nth (wsz + tms_pos wsz i + wsz) buf 0%Z = nth i tdi 0%Z).
Proof.
  intros Hw Hb bc Htot Hm Hd.
  destruct (counts_nat wsz bits ltac:(lia) Hb) as (En & Ew & El & _ & _ & _). fold bc in En, El.
  destruct (frame_bytes_split wsz bc ltac:(lia)) as [Ebc Lleft].
  unfold frame_bytes in Htot.
  unfold fmtVectors. rewrite En, Ew, El.
  set (ww := bc / wsz) in *. set (left := bc - ww * wsz) in *.
  assert (Hhd : wsz <= length txBuf) by lia.
  rewrite setHdr_layout by lia.
  set (buf1 := le_bytes 4 hdr ++ repeat 0%Z (wsz - 4) ++ skipn wsz txBuf).
  assert (L1 : length buf1 = length txBuf)
    by (unfold buf1; len_lia).
  assert (H1 : forall j, j < wsz -> nth j buf1 0%Z = nth j (le_bytes 4 hdr ++ repeat 0%Z (wsz - 4)) 0%Z).
  { intros j Hj. unfold buf1. rewrite app_assoc, app_nth1; [reflexivity|].
    len_lia. }
  destruct (pack_words_spec ww wsz 0 wsz tms tdi buf1) as (buf2 & E2 & L2 & Out2 & In2);
    try (destruct (Nat.eqb_spec left 0); nia).
  rewrite E2.
  destruct (Nat.eqb_spec left 0) as [Z0|Z0].
  - exists buf2. split; [reflexivity|]. split; [lia|]. split.
    + intros j Hj. rewrite Out2 by lia. apply H1, Hj.
    + intros i Hi. apply (In2 i). nia.
  - destruct (write_pair left wsz (ww * wsz) (wsz + 2 * (ww * wsz)) tms tdi buf2)
      as (a & b & buf3 & buf4 & Sa & W3 & Sb & W4 & L4 & Out4 & In4); try nia.
    rewrite Sa. cbv beta iota. rewrite W3. cbv beta iota. rewrite Sb. cbv beta iota.
    exists buf4. split; [exact W4|]. split; [lia|]. split.
    + intros j Hj. rewrite Out4, Out2 by lia. apply H1, Hj.
    + intros i Hi. destruct (Nat.lt_ge_cases i (ww * wsz)) as [Hlo|Hhi].
      * pose proof (tms_pos_lt wsz i ww ltac:(lia) ltac:(lia)).
        rewrite !Out4 by lia. apply (In2 i). nia.
      * replace i with (ww * wsz + (i - ww * wsz)) by lia. rewrite tms_pos_last by lia.
        destruct (In4 (i - ww * wsz)) as [I1 I2]; [lia|].
        replace (wsz + (2 * wsz * ww + (i - ww * wsz))) with (wsz + 2 * (ww * wsz) + (i - ww * wsz)) by lia.
        rewrite I1. replace (wsz + 2 * (ww * wsz) + (i - ww * wsz) + wsz)
          with (wsz + 2 * (ww * wsz) + wsz + (i - ww * wsz)) by lia.
        now rewrite I2.
Qed.

(** [fmtVectors] writes the header word and interleaves the vectors so
    that the peer's reading [unpack] recovers both. *)
Lemma fmtVectors_correct wsz txBuf hdr bits tms tdi :
  4 <= wsz <= 16 -> (0 <= bits <= 2 ^ 33 - 8)%Z ->
  let bc := Z.to_nat (bytesCeil bits) in
  frame_bytes wsz bc <= length txBuf -> bc <= length tms -> bc <= length tdi -> (0 <= hdr < 2 ^ 32)%Z ->
  exists buf, fmtVectors wsz txBuf hdr bits tms tdi = Some buf /\ length buf = length txBuf /\
    getHdr buf = hdr /\ (forall j, 4 <= j < wsz -> nth j buf 0%Z = 0%Z) /\
    unpack wsz 0 (skipn wsz buf) bc = firstn bc tms /\
    unpack wsz wsz (skipn wsz buf) bc = firstn bc tdi.
Proof.
  intros Hw Hb bc Htot Hm Hd Hh.
  destruct (fmtVectors_nth wsz txBuf hdr bits tms tdi Hw Hb Htot Hm Hd) as (buf & E & L & Hhd & Hv).
  fold bc in Hv.
  assert (Hws : wsz <= length txBuf) by (unfold frame_bytes in Htot; lia).
  exists buf. split; [exact E|]. split; [exact L|]. split; [|split; [|split]].
  - unfold getHdr, getw32. rewrite firstn_as_map by lia.
    erewrite map_ext_in; [|intros j Hj; apply in_seq in Hj; apply Hhd; lia].
    rewrite <- firstn_as_map by len_lia.
    fold (getw32 (le_bytes 4 hdr ++ repeat 0%Z (wsz - 4))).
    now apply getHdr_le_bytes.
  - intros j Hj. rewrite Hhd by lia. rewrite app_nth2 by (rewrite length_le_bytes; lia).
    apply nth_repeat.
  - unfold unpack. rewrite firstn_as_map by lia. apply map_ext_in.
    intros i Hi. apply in_seq in Hi. rewrite nth_skipn, Nat.add_0_r. apply Hv. lia.
  - unfold unpack. rewrite firstn_as_map by lia. apply map_ext_in.
    intros i Hi. apply in_seq in Hi. rewrite nth_skipn, Nat.add_assoc. apply Hv. lia.
Qed.

Lemma setHdr_length ws buf h buf' : setHdr ws buf h = Some buf' -> length buf' = length buf.
Proof.
  unfold setHdr, setw32. destruct (write_at buf 0 _) as [b1|] eqn:W1; [|discriminate].
  intros W2. rewrite (length_write_at _ _ _ _ W2). exact (length_write_at _ _ _ _ W1).
Qed.

Lemma pack_words_length n wsz idx wp tms tdi buf buf' :
  pack_words n wsz idx wp tms tdi buf = Some buf' -> length buf' = length buf.
Proof.
  revert idx wp buf; induction n as [|n IH]; intros idx wp buf; cbn [pack_words].
  - now intros [= <-].
  - destruct (slice tms idx wsz) as [a|]; [|discriminate].
    destruct (write_at buf wp a) as [b1|] eqn:W1; [|discriminate].
    destruct (slice tdi idx wsz) as [b|]; [|discriminate].
    destruct (write_at b1 (wp + wsz) b) as [b2|] eqn:W2; [|discriminate].
    intros E. rewrite (IH _ _ _ E), (length_write_at _ _ _ _ W2). exact (length_write_at _ _ _ _ W1).
Qed.

Lemma fmtVectors_length wsz txBuf hdr bits tms tdi buf :
  fmtVectors wsz txBuf hdr bits tms tdi = Some buf -> length buf = length txBuf.
Proof.
  unfold fmtVectors.
  destruct (setHdr wsz txBuf hdr) as [b1|] eqn:E1; [|discriminate].
  destruct (2 ^ 32 <=? _)%Z; [discriminate|].
  destruct (pack_words _ _ _ _ _ _ b1) as [b2|] eqn:E2; [|discriminate].
  rewrite <- (setHdr_length _ _ _ _ E1), <- (pack_words_length _ _ _ _ _ _ _ _ E2).
  destruct (_ =? 0); [now intros [= <-]|].
  destruct (slice tms _ _) as [a|]; [|discriminate].
  destruct (write_at b2 _ a) as [b3|] eqn:W3; [|discriminate].
  destruct (slice tdi _ _) as [b|]; [|discriminate].
  intros W4. rewrite (length_write_at _ _ _ _ W4). exact (length_write_at _ _ _ _ W3).
Qed.

(** The reformatting copies bytes only. *)
Lemma pack_words_bytes n wsz idx wp tms tdi buf buf' :
  Forall byte_ok tms -> Forall byte_ok tdi -> Forall byte_ok buf ->
  pack_words n wsz idx wp tms tdi buf = Some buf' -> Forall byte_ok buf'.
Proof.
  intros Ht Hd. revert idx wp buf; induction n as [|n IH]; intros idx wp buf Hb; cbn [pack_words].
  - now intros [= <-].
  - destruct (slice tms idx wsz) as [a|] eqn:S1; [|discriminate].
    destruct (write_at buf wp a) as [b1|] eqn:W1; [|discriminate].
    destruct (slice tdi idx wsz) as [b|] eqn:S2; [|discriminate].
    destruct (write_at b1 (wp + wsz) b) as [b2|] eqn:W2; [|discriminate].
    apply IH. eapply Forall_write_at; [|eapply Forall_slice; [exact Hd|exact S2]|exact W2].
    eapply Forall_write_at; [exact Hb|eapply Forall_slice; [exact Ht|exact S1]|exact W1].
Qed.

Lemma fmtVectors_bytes wsz txBuf hdr bits tms tdi buf :
  Forall byte_ok tms -> Forall byte_ok tdi -> Forall byte_ok txBuf ->
  fmtVectors wsz txBuf hdr bits tms tdi = Some buf -> Forall byte_ok buf.
Proof.
  intros Ht Hd Hb. unfold fmtVectors.
  destruct (setHdr wsz txBuf hdr) as [b1|] eqn:E1; [|discriminate].
  destruct (2 ^ 32 <=? _)%Z; [discriminate|].
  destruct (pack_words _ _ _ _ _ _ b1) as [b2|] eqn:E2; [|discriminate].
  pose proof (pack_words_bytes _ _ _ _ _ _ _ _ Ht Hd (setHdr_bytes _ _ _ _ Hb E1) E2) as B2.
  destruct (_ =? 0); [now intros [= <-]|].
  destruct (slice tms _ _) as [a|] eqn:S1; [|discriminate].
  destruct (write_at b2 _ a) as [b3|] eqn:W3; [|discriminate].
  destruct (slice tdi _ _) as [b|] eqn:S2; [|discriminate].
  intros W4. eapply Forall_write_at; [|eapply Forall_slice; [exact Hd|exact S2]|exact W4].
  eapply Forall_write_at; [exact B2|eapply Forall_slice; [exact Ht|exact S1]|exact W3].
Qed.

(** [fmtVectors] reads [bits] through [wholeWordBytes] and [bytesLeft]
    only. *)
Lemma fmtVectors_cong wsz txBuf hdr b1 b2 tms tdi :
  wholeWordBytes (Z.of_nat wsz) b1 = wholeWordBytes (Z.of_nat wsz) b2 ->
  bytesLeft (Z.of_nat wsz) b1 = bytesLeft (Z.of_nat wsz) b2 ->
  fmtVectors wsz txBuf hdr b1 tms tdi = fmtVectors wsz txBuf hdr b2 tms tdi.
Proof. intros E1 E2. unfold fmtVectors. cbv zeta. now rewrite E1, E2. Qed.

(** *** The counts modulo [2 ^ 32] *)

(** For a word size dividing [2 ^ 32], [u32 ((x + c) / w * w)] depends
    on [x] modulo [2 ^ 32] only. *)
Lemma u32_div_mul_cong w m x y c :
  (2 ^ 32 = m * w)%Z -> (0 < w)%Z -> u32 x = u32 y -> u32 ((x + c) / w * w) = u32 ((y + c) / w * w).
Proof.
  intros Hm Hw E. unfold u32, wrap in *.
  assert (Ex : x = (y + 2 ^ 32 * (x / 2 ^ 32 - y / 2 ^ 32))%Z)
    by (pose proof (Z.div_mod x (2 ^ 32)); pose proof (Z.div_mod y (2 ^ 32)); lia).
  set (t := (x / 2 ^ 32 - y / 2 ^ 32)%Z) in Ex. rewrite Ex.
  replace (y + 2 ^ 32 * t + c)%Z with (y + c + m * t * w)%Z by (rewrite Hm; ring).
  rewrite Z.div_add by lia.
  replace (((y + c) / w + m * t) * w)%Z with ((y + c) / w * w + t * 2 ^ 32)%Z by (rewrite Hm; ring).
  apply Z.mod_add. lia.
Qed.

(** [bytesCeil] modulo [2 ^ 32] sees [bits] modulo [2 ^ 35] only, for
    every [unsigned long] [bits]. *)
Lemma bytesCeil_wraps bits :
  (0 <= bits < 2 ^ 64)%Z -> u32 (bytesCeil bits) = u32 (bytesCeil (bits mod 2 ^ 35)).
Proof.
  intros Hb. unfold bytesCeil, u32, wrap.
  pose proof (Z.mod_pos_bound bits (2 ^ 35) ltac:(lia)) as Hr.
  pose proof (Z.div_mod bits (2 ^ 35) ltac:(lia)) as Ed.
  pose proof (Z.div_mod (bits + 8 - 1) (2 ^ 64) ltac:(lia)) as Ew.
  rewrite (Z.mod_small (bits mod 2 ^ 35 + 8 - 1) (2 ^ 64)) by lia.
  set (r := (bits mod 2 ^ 35)%Z) in *. set (k := (bits / 2 ^ 35)%Z) in *.
  set (j := ((bits + 8 - 1) / 2 ^ 64)%Z) in *.
  replace ((bits + 8 - 1) mod 2 ^ 64)%Z with (r + 8 - 1 + (2 ^ 32 * k - 2 ^ 61 * j) * 8)%Z by lia.
  rewrite Z.div_add by lia.
  replace ((r + 8 - 1) / 8 + (2 ^ 32 * k - 2 ^ 61 * j))%Z
    with ((r + 8 - 1) / 8 + (k - 2 ^ 29 * j) * 2 ^ 32)%Z by ring.
  apply Z.mod_add. lia.
Qed.

Lemma counts_u32 w m b1 b2 :
  (2 ^ 32 = m * w)%Z -> (0 < w)%Z -> u32 (bytesCeil b1) = u32 (bytesCeil b2) ->
  wholeWordBytes w b1 = wholeWordBytes w b2 /\ bytesLeft w b1 = bytesLeft w b2 /\
  bytesTot w b1 = bytesTot w b2.
Proof.
  intros Hm Hw E.
  assert (EW : wholeWordBytes w b1 = wholeWordBytes w b2).
  { pose proof (u32_div_mul_cong w m _ _ 0 Hm Hw E) as C. rewrite !Z.add_0_r in C.
    unfold wholeWordBytes, wholeWords. unfold u32, wrap in *. rewrite !Zmult_mod_idemp_l. exact C. }
  split; [exact EW|split].
  - unfold bytesLeft. rewrite EW. unfold u32, wrap in *.
    rewrite Zminus_mod, E, <- Zminus_mod. reflexivity.
  - assert (EC : wordCeilBytes w b1 = wordCeilBytes w b2).
    { unfold wordCeilBytes. rewrite <- !Z.add_sub_assoc. exact (u32_div_mul_cong w m _ _ (w - 1) Hm Hw E). }
    unfold bytesTot. now rewrite EC.
Qed.

Section Generic.
Context {T : Type} `{Transport T}.

Lemma sendVectors_step (s : state (T:=T)) bits tms tdi tdo :
  let '(x', h) := mkShift (xid_ s) (u32 bits) in
  sendVectors bits tms tdi tdo s =
    match fmtVectors (wordSize_ s) (txBuf_ s) h bits tms tdi with
    | None => (set_xid x' s, Throw MemFault)
    | Some buf =>
        match xferRel buf (Z.to_nat (bytesTot (Z.of_nat (wordSize_ s)) bits)) tdo
                (Z.to_nat (u32 (bytesCeil bits))) (set_txBuf buf (set_xid x' s)) with
        | (s1, Ret (_, _, tdo')) => (s1, Ret tdo')
        | (s1, Throw e) => (s1, Throw e)
        end
    end.
Proof.
  destruct (mkShift (xid_ s) (u32 bits)) as [x' h] eqn:Em.
  unfold sendVectors, lift_mem, esm_bind, esm_get, esm_modify, esm_ret, esm_throw.
  rewrite Em. cbn [set_xid txBuf_ wordSize_ getWordSize].
  destruct (fmtVectors _ _ _ _ _ _) as [buf|]; [|reflexivity].
  destruct (xferRel _ _ _ _ _) as [s1 [[[g hd] r]|e]]; reflexivity.
Qed.

(** C11: [sendVectors] does not check the request size [bytesTot] (as
    the [unsigned] it computes) against the transmit buffer: a request
    longer than [bufSz_] is a read past the buffer ([MemFault]), not an
    error the caller can handle. *)
Theorem sendVectors_overflow (s : state (T:=T)) bits tms tdi tdo :
  wf s -> (Z.of_nat (bufSz_ s) < bytesTot (Z.of_nat (wordSize_ s)) bits)%Z ->
  snd (sendVectors bits tms tdi tdo s) = Throw MemFault.
Proof.
  intros (Hw & Hh & Ht & Hb & Hm) Hover. pose proof (sendVectors_step s bits tms tdi tdo) as E.
  destruct (mkShift _ _) as [x' h]. rewrite E.
  destruct (fmtVectors _ _ _ _ _ _) as [buf|] eqn:Ef; [|reflexivity].
  pose proof (fmtVectors_length _ _ _ _ _ _ _ Ef) as L.
  unfold xferRel, slice. destruct (Nat.leb_spec (0 + Z.to_nat (bytesTot (Z.of_nat (wordSize_ s)) bits)) (length buf));
    [lia|reflexivity].
Qed.

(** C10: the counts of [sendVectors] are [unsigned]: for a word size
    dividing [2 ^ 32] (every power of two up to 16) a shift of [bits]
    bits behaves exactly as a shift of [bits mod 2 ^ 35] bits, the
    request, the header's length field and the TDO bytes received
    included; a shift of [2 ^ 35] bits sends a header alone. *)
Theorem sendVectors_wraps (s : state (T:=T)) bits tms tdi tdo :
  (Z.of_nat (wordSize_ s) | 2 ^ 32)%Z -> (0 <= bits < 2 ^ 64)%Z ->
  sendVectors bits tms tdi tdo s = sendVectors (bits mod 2 ^ 35) tms tdi tdo s.
Proof.
  intros [m Hm] Hb.
  assert (Hw : (0 < Z.of_nat (wordSize_ s))%Z)
    by (destruct (wordSize_ s); [rewrite Z.mul_0_r in Hm; discriminate|lia]).
  pose proof (bytesCeil_wraps bits Hb) as EB.
  destruct (counts_u32 _ m _ _ Hm Hw EB) as (E1 & E2 & E3).
  assert (Eu : u32 bits = u32 (bits mod 2 ^ 35)).
  { unfold u32, wrap. rewrite Z.mod_mod_divide; [reflexivity|]. exists 8%Z. reflexivity. }
  pose proof (sendVectors_step s bits tms tdi tdo) as S1.
  pose proof (sendVectors_step s (bits mod 2 ^ 35) tms tdi tdo) as S2.
  rewrite Eu in S1. destruct (mkShift _ _) as [x' h]. rewrite S1, S2.
  rewrite (fmtVectors_cong _ _ _ _ _ _ _ E1 E2), E3, EB. reflexivity.
Qed.

Lemma sendVectors_fst_ok (s : state (T:=T)) bits tms tdi tdo x' h buf :
  mkShift (xid_ s) (u32 bits) = (x', h) ->
  fmtVectors (wordSize_ s) (txBuf_ s) h bits tms tdi = Some buf ->
  sendVectors bits tms tdi tdo s =
    match xferRel buf (Z.to_nat (bytesTot (Z.of_nat (wordSize_ s)) bits)) tdo
            (Z.to_nat (u32 (bytesCeil bits))) (set_txBuf buf (set_xid x' s)) with
    | (s1, Ret (_, _, tdo')) => (s1, Ret tdo')
    | (s1, Throw e) => (s1, Throw e)
    end.
Proof.
  intros Em Ef. pose proof (sendVectors_step s bits tms tdi tdo) as E. rewrite Em in E.
  now rewrite E, Ef.
Qed.
End Generic.

Lemma frame_bytes_le wsz bc md :
  0 < wsz -> bc <= md * wsz -> frame_bytes wsz bc <= (2 * md + 1) * wsz.
Proof.
  intros Hw Hb. unfold frame_bytes.
  destruct (frame_bytes_split wsz bc Hw) as [E L].
  set (ww := bc / wsz) in *. set (left := bc - ww * wsz) in *.
  destruct (Nat.eqb_spec left 0) as [Z0|Z0]; cbv iota.
  - assert (ww <= md) by (apply (Nat.mul_le_mono_pos_r _ _ wsz); lia). nia.
  - assert (ww < md) by (apply (Nat.mul_lt_mono_pos_r wsz); lia). nia.
Qed.

Lemma unpack_firstn wsz off body n c m :
  0 < wsz -> off <= wsz -> n <= wsz * c -> 2 * wsz * c <= m ->
  unpack wsz off (firstn m body) n = unpack wsz off body n.
Proof.
  intros Hw Ho Hn Hm. unfold unpack. apply map_ext_in. intros i Hi. apply in_seq in Hi.
  pose proof (tms_pos_lt wsz i c Hw ltac:(lia)).
  rewrite nth_firstn. destruct (Nat.ltb_spec (tms_pos wsz i + off) m); [reflexivity|lia].
Qed.

(** The header of a request is read from its first four bytes. *)
Lemma getHdr_firstn k (b : list Z) : 4 <= k -> getHdr (firstn k b) = getHdr b.
Proof. intros Hk. unfold getHdr, getw32. rewrite firstn_firstn, Nat.min_l by lia. reflexivity. Qed.

(** The peer reads the vectors within the [frame_bytes] of the request. *)
Lemma unpack_request wsz n off (body : list Z) :
  0 < wsz -> off <= wsz ->
  unpack wsz off (skipn wsz (firstn (frame_bytes wsz n) body)) n = unpack wsz off (skipn wsz body) n.
Proof.
  intros Hw Ho. destruct (frame_bytes_split wsz n Hw) as [Ebc Lleft].
  set (c := n / wsz + (if n - n / wsz * wsz =? 0 then 0 else 1)).
  assert (Hc1 : n <= wsz * c)
    by (unfold c; destruct (Nat.eqb_spec (n - n / wsz * wsz) 0); cbv iota; nia).
  assert (Hc2 : frame_bytes wsz n = wsz + 2 * wsz * c)
    by (unfold frame_bytes, c; destruct (Nat.eqb_spec (n - n / wsz * wsz) 0); cbv iota; nia).
  rewrite skipn_firstn_comm, Hc2, Nat.add_comm, Nat.add_sub.
  apply unpack_firstn with (c := c); lia.
Qed.

(** A shift that fits the target: the request is formatted in place,
    its header is the fresh shift word. *)
Lemma sendVectors_formats {T} `{Transport T} (s : state (T:=T)) bits tms tdi :
  wf s -> (1 <= bits <= 2 ^ 20)%Z ->
  let n := Z.to_nat (bytesCeil bits) in
  n <= memDepth_ s * wordSize_ s -> n <= length tms -> n <= length tdi ->
  exists x' h buf, mkShift (xid_ s) (u32 bits) = (x', h) /\
    fmtVectors (wordSize_ s) (txBuf_ s) h bits tms tdi = Some buf /\
    length buf = length (txBuf_ s) /\ getHdr buf = h /\
    getLen h = Ret bits /\ getXid h = x' /\ x' <> XID_ANY /\
    Z.to_nat (bytesTot (Z.of_nat (wordSize_ s)) bits) = frame_bytes (wordSize_ s) n /\
    Z.to_nat (u32 (bytesCeil bits)) = n /\ frame_bytes (wordSize_ s) n <= length (txBuf_ s) /\
    unpack (wordSize_ s) 0 (skipn (wordSize_ s) buf) n = firstn n tms /\
    unpack (wordSize_ s) (wordSize_ s) (skipn (wordSize_ s) buf) n = firstn n tdi.
Proof.
  intros Hwf Hb n Hfit Hm Hd.
  pose proof Hwf as (Hw & Hh & Ht & Hbf & Hmx).
  destruct (counts_nat (wordSize_ s) bits ltac:(lia) ltac:(lia)) as (_ & _ & _ & Etot & Eu & Hn).
  fold n in Etot, Eu, Hn.
  assert (Hbt : frame_bytes (wordSize_ s) n <= length (txBuf_ s))
    by (pose proof (frame_bytes_le (wordSize_ s) n (memDepth_ s) ltac:(lia) Hfit); nia).
  assert (Hlen : (1 <= u32 bits <= 2 ^ 20)%Z) by (unfold u32; rewrite wrap_small; lia).
  assert (Hu : u32 bits = bits) by (unfold u32; apply wrap_small; lia).
  pose proof (mkShift_fields (xid_ s) _ Hlen) as Hrt.
  pose proof (mkShift_value (xid_ s) _ Hlen) as Hv. pose proof (newXid_range (xid_ s)) as Hx.
  assert (Hx' : fst (mkShift (xid_ s) (u32 bits)) = fst (newXid (xid_ s)))
    by (unfold mkShift; now destruct (newXid (xid_ s))).
  destruct (mkShift (xid_ s) (u32 bits)) as [x' h] eqn:Em. cbn [fst snd] in *.
  destruct (fmtVectors_correct (wordSize_ s) (txBuf_ s) h bits tms tdi ltac:(lia) ltac:(lia) Hbt Hm Hd
              ltac:(lia)) as (buf & Ef & Lf & Hgh & _ & U1 & U2).
  rewrite Hu in Hrt. destruct Hrt as (Hl & Hxi & _ & _ & Hany).
  exists x', h, buf. repeat split; assumption.
Qed.

(** C8: [sendVectors] sends, as its first new request, a frame of
    [bytesTot] bytes whose header reads back as a shift of [bits] bits
    with a fresh non-wildcard id, and from whose body the peer's layout
    [unpack] recovers the TMS and TDI vectors byte for byte. *)
Theorem sendVectors_request (s : state (T:=Script)) bits tms tdi tdo :
  wf s -> (1 <= bits <= 2 ^ 20)%Z ->
  let n := Z.to_nat (bytesCeil bits) in
  n <= memDepth_ s * wordSize_ s -> n <= length tms -> n <= length tdi ->
  let s' := fst (sendVectors bits tms tdi tdo s) in
  let ws := wordSize_ s in
  let req := firstn (Z.to_nat (bytesTot (Z.of_nat ws) bits)) (txBuf_ s') in
  (exists rest, sent (drv s') = sent (drv s) ++ req :: rest) /\
  Z.of_nat (length req) = bytesTot (Z.of_nat ws) bits /\
  getLen (getHdr req) = Ret bits /\ getXid (getHdr req) = xid_ s' /\ xid_ s' <> XID_ANY /\
  unpack ws 0 (skipn ws req) n = firstn n tms /\
  unpack ws ws (skipn ws req) n = firstn n tdi.
Proof.
  intros Hwf Hb n Hfit Hm Hd. cbv zeta.
  pose proof Hwf as (Hw & Hh & Ht & Hbf & Hmx).
  destruct (sendVectors_formats s bits tms tdi Hwf Hb Hfit Hm Hd)
    as (x' & h & buf & Em & Ef & Lf & Hgh & Hl & Hxi & Hany & Etot & Eu & Hbt & U1 & U2).
  fold n in Etot, Eu, Hbt, U1, U2.
  assert (Hpos : (0 <= bytesTot (Z.of_nat (wordSize_ s)) bits)%Z) by (unfold bytesTot, u32; apply wrap_range; lia).
  set (tot := Z.to_nat (bytesTot (Z.of_nat (wordSize_ s)) bits)) in *.
  assert (Hs1 : fst (sendVectors bits tms tdi tdo s) =
                fst (xferRel buf tot tdo (Z.to_nat (u32 (bytesCeil bits))) (set_txBuf buf (set_xid x' s)))).
  { rewrite (sendVectors_fst_ok s bits tms tdi tdo x' h buf Em Ef).
    destruct (xferRel _ _ _ _ _) as [s1 [[[? ?] ?]|?]]; reflexivity. }
  rewrite Hs1.
  pose proof (xferRel_frame buf tot tdo (Z.to_nat (u32 (bytesCeil bits))) (set_txBuf buf (set_xid x' s))) as Hf.
  destruct (xferRel_sends_first buf tot tdo (Z.to_nat (u32 (bytesCeil bits))) (set_txBuf buf (set_xid x' s)) ltac:(cbn; lia))
    as [rest Hs].
  unfold frame in Hf. injection Hf as _ _ _ _ _ Htx Hxid. simpl in Htx, Hxid. rewrite Htx, Hxid.
  assert (Hhd : getHdr (firstn tot buf) = h) by (rewrite Etot; unfold frame_bytes; rewrite getHdr_firstn by lia; exact Hgh).
  split; [exists rest; exact Hs|]. split; [rewrite length_firstn; lia|].
  rewrite Hhd. split; [exact Hl|]. split; [exact Hxi|]. split; [exact Hany|].
  rewrite Etot, !unpack_request by lia. split; assumption.
Qed.

(** C9: the TDO bytes [sendVectors] returns are the payload of the reply
    that carries the request's id, truncated to the vector's [bytesCeil]
    bytes and written over the start of the caller's TDO buffer, whose
    other bytes are kept. *)
Theorem sendVectors_tdo (s : state (T:=Script)) bits tms tdi tdo h p rest :
  wf s -> (1 <= bits <= 2 ^ 20)%Z ->
  let n := Z.to_nat (bytesCeil bits) in
  n <= memDepth_ s * wordSize_ s -> n <= length tms -> n <= length tdi ->
  replies (drv s) = Reply h p :: rest -> (0 <= h < 2 ^ 32)%Z -> getErr h = 0%Z ->
  getXid h = fst (newXid (xid_ s)) ->
  snd (sendVectors bits tms tdi tdo s) = Ret (fill tdo (firstn n p)).
Proof.
  intros Hwf Hb n Hfit Hm Hd Hr Hh He Hx.
  pose proof Hwf as (Hw & Hhd & Ht & Hbf & Hmx).
  destruct (sendVectors_formats s bits tms tdi Hwf Hb Hfit Hm Hd)
    as (x' & h0 & buf & Em & Ef & Lf & Hgh & _ & Hxi & _ & Etot & Eu & Hbt & _ & _).
  assert (Hx' : fst (mkShift (xid_ s) (u32 bits)) = fst (newXid (xid_ s)))
    by (unfold mkShift; now destruct (newXid (xid_ s))).
  rewrite Em in Hx'. cbn [fst] in Hx'.
  rewrite (sendVectors_fst_ok s bits tms tdi tdo x' h0 buf Em Ef), Etot, Eu.
  rewrite xferRel_in_bounds by (cbn [length]; lia).
  rewrite (loop_reply _ _ _ _ _ _ h p rest) by (cbn; first [exact Hr | lia | unfold hdBufMax in *; lia]).
  cbv zeta. rewrite He, Hgh, Hxi, Hx', <- Hx, !Z.eqb_refl, Bool.orb_true_r. reflexivity.
Qed.

Local Open Scope Z_scope.

(** ** Witnesses: one byte of TMS and TDI *)

Lemma sendVectors_request_witness :
  let s := JtagDriverAxisToJtag_new 0 (mkScript [Reply (1 * 2 ^ 28 + 1 * 2 ^ 20) [5]] []) 0 in
  let n := Z.to_nat (bytesCeil 8) in
  let s' := fst (sendVectors 8 [1] [2] [0] s) in
  let ws := wordSize_ s in
  let req := firstn (Z.to_nat (bytesTot (Z.of_nat ws) 8)) (txBuf_ s') in
  (exists rest, sent (drv s') = sent (drv s) ++ req :: rest) /\
  Z.of_nat (length req) = bytesTot (Z.of_nat ws) 8 /\
  getLen (getHdr req) = Ret 8 /\ getXid (getHdr req) = xid_ s' /\ xid_ s' <> XID_ANY /\
  unpack ws 0 (skipn ws req) n = firstn n [1] /\
  unpack ws ws (skipn ws req) n = firstn n [2].
Proof. intros s. apply sendVectors_request; [wf_concrete|concrete..]. Defined.

(** The reply [5] to the first shift, id 1, comes back as the TDO byte. *)
Lemma sendVectors_tdo_witness :
  snd (sendVectors 8 [1] [2] [0]
         (JtagDriverAxisToJtag_new 0 (mkScript [Reply (1 * 2 ^ 28 + 1 * 2 ^ 20) [5; 6]] []) 0)) = Ret [5].
Proof.
  exact (sendVectors_tdo (JtagDriverAxisToJtag_new 0 (mkScript [Reply (1 * 2 ^ 28 + 1 * 2 ^ 20) [5; 6]] []) 0)
    8 [1] [2] [0] (1 * 2 ^ 28 + 1 * 2 ^ 20) [5; 6] [] ltac:(wf_concrete) ltac:(lia)
    ltac:(concrete) ltac:(concrete) ltac:(concrete) eq_refl ltac:(lia) eq_refl eq_refl).
Defined.

(** A 16-byte transmit buffer and a 64-bit vector, which needs 20 bytes. *)
Lemma sendVectors_overflow_witness :
  let s := {| base := JtagDriver_new 0; drv := mkScript [] []; wordSize_ := 4; memDepth_ := 1;
              retry_ := 5; periodNs_ := 0; bufSz_ := 16; txBuf_ := repeat 0%Z 16;
              hdBuf_ := repeat 0%Z 16; xid_ := 0 |} in
  snd (sendVectors 64 [] [] [] s) = Throw MemFault.
Proof. intros s. apply sendVectors_overflow; [wf_concrete|concrete]. Defined.

(** A shift of [2 ^ 35 + 8] bits is the shift of one byte. *)
Lemma sendVectors_wraps_witness :
  let s := JtagDriverAxisToJtag_new 0 (mkScript [] []) 0 in
  sendVectors (2 ^ 35 + 8) [1] [2] [0] s = sendVectors 8 [1] [2] [0] s.
Proof.
  intros s. exact (sendVectors_wraps s (2 ^ 35 + 8) [1] [2] [0] (ex_intro _ (2 ^ 30) eq_refl) ltac:(lia)).
Defined.

End Reformatter.
