(* ===== verification/Trace.v ===== *)
(** * Debug output: [prwrds] and [dumpInfo]

    [prwrds] (src/xvcSrv/src/xvcSrv.cc lines 397-421) prints a TMS/TDI
    (or TDO) word pair as VHDL hex literals; [sendVectors] calls it for
    each word it sends and receives when the debug level exceeds 1.
    [JtagDriverAxisToJtag::dumpInfo] (lines 487-494) prints the
    negotiated parameters.  Output is a list of writes, each tagged with
    the stream it goes to, so that the writes [prwrds] sends to [stderr]
    whatever its [FILE *f] are visible.  [hex_vec] is the digit loops of
    [prwrds] as written; [hex_fixed], the fixed-width hex of a number, is
    the reference they are proved equal to. *)

From Stdlib Require Import ZArith String Ascii List Lia HexString.
From S2P Require Import Prelude Header Transport Driver.
Import ListNotations Jtag AxisToJtag.

Module Trace.
Open Scope Z_scope.

(** ** Streams and formats *)

(** A [FILE *]: [stderr], or another stream. *)
Inductive sink : Type :=
| Stderr
| Stream (id : nat).

Definition sink_eqb (a b : sink) : bool :=
  match a, b with
  | Stderr, Stderr => true
  | Stream x, Stream y => Nat.eqb x y
  | _, _ => false
  end.

(** [stdout]. *)
Definition stdout : sink := Stream 1.

(** A double quote. *)
Definition dq : string := String (ascii_of_nat 34) EmptyString.

(** A newline. *)
Definition nl : string := String "010" EmptyString.

(** A lowercase hex digit, as [printf("%x")] writes it. *)
Definition hex_digit (d : Z) : ascii :=
  ascii_of_nat (if d <? 10 then 48 + Z.to_nat d else 87 + Z.to_nat d).

(** [printf("%02x", b)] of a [uint8_t]. *)
Definition hex2 (b : Z) : string :=
  String (hex_digit (b / 16)) (String (hex_digit (b mod 16)) EmptyString).

(** ** [prwrds] *)

(** [for ( i = wsz; i > nbytes; i-- ) fprintf(f, "00")]: the final [i]
    and the text written; [fuel] bounds the passes. *)
Fixpoint pad_loop (fuel : nat) (i nbytes : Z) : Z * string :=
  match fuel with
  | O => (i, EmptyString)
  | S f =>
      if nbytes <? i then
        let '(i', s) := pad_loop f (i - 1) nbytes in (i', ("00" ++ s)%string)
      else (i, EmptyString)
  end.

(** [while ( --i >= 0 ) fprintf(f, "%02x", v[i])]. *)
Fixpoint digit_loop (fuel : nat) (i : Z) (v : list Z) : string :=
  match fuel with
  | O => EmptyString
  | S f =>
      if 0 <=? i - 1 then (hex2 (nth (Z.to_nat (i - 1)) v 0) ++ digit_loop f (i - 1) v)%string
      else EmptyString
  end.

(** The two loops for one vector; [wsz + 1] passes are enough for each
    when [0 <= nbytes]. *)
Definition hex_vec (wsz nbytes : Z) (v : list Z) : string :=
  let fuel := S (Z.to_nat wsz) in
  let '(i, zs) := pad_loop fuel wsz nbytes in
  (zs ++ digit_loop fuel i v)%string.

(** [prwrds(f, tms, tdi, wsz, nbits)] with [tdi] a null pointer
    ([None]) or a vector: the writes in order, with their streams. *)
Definition prwrds (f : sink) (tms : list Z) (tdi : option (list Z)) (wsz nbits : Z)
    : list (sink * string) :=
  let nbytes := Z.quot (nbits + 7) 8 in
  let pre := match tdi with Some _ => "TMS"%string | None => "TDO"%string end in
  [(f, ("( " ++ pre ++ " => x" ++ dq ++ hex_vec wsz nbytes tms)%string)] ++
  match tdi with
  | Some v => [(Stderr, (dq ++ ", TDI => x" ++ dq)%string); (f, hex_vec wsz nbytes v)]
  | None => []
  end ++
  [(Stderr, (dq ++ ", nbits => " ++ fmt_int nbits ++ ")," ++ nl)%string)].

(** What one stream receives. *)
Definition output_to (f : sink) (ws : list (sink * string)) : string :=
  fold_right (fun w acc => if sink_eqb (fst w) f then (snd w ++ acc)%string else acc) EmptyString ws.

(** ** The reference: fixed-width hex *)

(** The last [n] hex digits of [v], most significant first. *)
Fixpoint hex_fixed (n : nat) (v : Z) : string :=
  match n with
  | O => EmptyString
  | S k => (hex_fixed k (v / 16) ++ String (hex_digit (v mod 16)) EmptyString)%string
  end.

(** Reading hex digits back, with the Standard Library's digit reader. *)
Fixpoint read_hex (acc : Z) (s : string) : option Z :=
  match s with
  | EmptyString => Some acc
  | String c s' =>
      match HexString.ascii_to_digit c with
      | Some d => read_hex (16 * acc + Z.of_N d) s'
      | None => None
      end
  end.

(** ** [dumpInfo] *)

Section Dump.
Context {T : Type} `{Transport T}.

(** [JtagDriverAxisToJtag::dumpInfo(f)] (lines 487-494); the word size
    and depth are printed with [%d], the vector size and period with
    [%ld]. *)
Definition dumpInfo (f : sink) (s : state (T:=T)) : list (sink * string) :=
  [(f, ("Word size:                  " ++ fmt_int (Z.of_nat (getWordSize s)) ++ nl)%string);
   (f, ("Target Memory Depth (bytes) " ++ fmt_int (Z.of_nat (getWordSize s * getMemDepth s)) ++ nl)%string);
   (f, ("Max. Vector Length  (bytes) " ++ fmt_int (getMaxVectorSize (drv s)) ++ nl)%string);
   (f, ("TCK Period             (ns) " ++ fmt_int (getPeriodNs s) ++ nl)%string)].
End Dump.

(** ** Facts *)

Lemma str_app_assoc (a b c : string) : ((a ++ b) ++ c = a ++ b ++ c)%string.
Proof. induction a as [|x a IH]; cbn; [reflexivity|now rewrite IH]. Qed.

Lemma str_app_nil (a : string) : (a ++ EmptyString)%string = a.
Proof. induction a as [|x a IH]; cbn; [reflexivity|now rewrite IH]. Qed.

Lemma pow16_pos n : 0 < 16 ^ Z.of_nat n.
Proof. apply Z.pow_pos_nonneg; lia. Qed.

(** The digits of a wider field: the high part, then the low [b] digits. *)
Lemma hex_fixed_add a b v :
  hex_fixed (a + b) v = (hex_fixed a (v / 16 ^ Z.of_nat b) ++ hex_fixed b v)%string.
Proof.
  revert v; induction b as [|b IH]; intros v.
  - rewrite Nat.add_0_r, Z.div_1_r. cbn. now rewrite str_app_nil.
  - rewrite Nat.add_succ_r. cbn [hex_fixed]. rewrite IH, str_app_assoc, Z.div_div by (lia || apply pow16_pos).
    do 3 f_equal. rewrite Nat2Z.inj_succ, Z.pow_succ_r by lia. ring.
Qed.

(** [n] digits depend on the value modulo [16^n] only. *)
Lemma hex_fixed_mod n v : hex_fixed n v = hex_fixed n (v mod 16 ^ Z.of_nat n).
Proof.
  revert v; induction n as [|n IH]; intros v; [reflexivity|]. cbn [hex_fixed].
  assert (E : v mod 16 ^ Z.of_nat (S n) = v mod 16 + 16 * ((v / 16) mod 16 ^ Z.of_nat n)).
  { rewrite Nat2Z.inj_succ, Z.pow_succ_r by lia. apply Z.rem_mul_r; [lia|apply pow16_pos]. }
  pose proof (Z.mod_pos_bound v 16). pose proof (Z.mod_pos_bound (v / 16) _ (pow16_pos n)).
  rewrite E, (IH (v / 16)), (IH ((v mod 16 + _) / 16)).
  rewrite Z.mul_comm, Z.div_add, Z.mod_add, (Z.div_small (v mod 16)), Z.add_0_l, Z.mod_mod by lia.
  now rewrite (Z.mod_small (v mod 16)) by lia.
Qed.

Lemma hex_fixed_2 b : byte_ok b -> hex_fixed 2 b = hex2 b.
Proof.
  unfold byte_ok, hex2. intros Hb. cbn [hex_fixed append].
  assert (0 <= b / 16 < 16) by (split; [apply Z.div_pos | apply Z.div_lt_upper_bound]; lia).
  now rewrite (Z.mod_small (b / 16)) by lia.
Qed.

Lemma le_val_bound l : Forall byte_ok l -> 0 <= le_val l < 256 ^ Z.of_nat (length l).
Proof.
  induction 1 as [|b l Hb Hl IH]; cbn [le_val length]; [cbn; lia|]. unfold byte_ok in Hb.
  rewrite Nat2Z.inj_succ, Z.pow_succ_r by lia. nia.
Qed.

Lemma le_val_snoc l b : le_val (l ++ [b]) = le_val l + 256 ^ Z.of_nat (length l) * b.
Proof.
  induction l as [|x l IH]; cbn [le_val app length]; [change (256 ^ Z.of_nat 0) with 1; lia|].
  rewrite IH, Nat2Z.inj_succ, Z.pow_succ_r by lia. ring.
Qed.

Lemma pow256 n : 256 ^ Z.of_nat n = 16 ^ Z.of_nat (2 * n).
Proof. rewrite Nat2Z.inj_mul, Z.pow_mul_r by lia. reflexivity. Qed.

(** The padding loop writes [i - nbytes] pairs of zeros and stops at
    [min i nbytes]. *)
Lemma pad_loop_spec fuel i nb :
  (Z.to_nat (i - nb) <= fuel)%nat ->
  pad_loop fuel i nb = (Z.min i nb, hex_fixed (2 * Z.to_nat (i - nb)) 0).
Proof.
  revert i; induction fuel as [|f IH]; intros i Hf; cbn [pad_loop].
  - replace (Z.to_nat (i - nb)) with 0%nat by lia. f_equal. lia.
  - destruct (Z.ltb_spec nb i) as [Hlt|Hge].
    + rewrite IH by lia. replace (Z.to_nat (i - nb)) with (S (Z.to_nat (i - 1 - nb))) by lia.
      replace (2 * S (Z.to_nat (i - 1 - nb)))%nat with (2 + 2 * Z.to_nat (i - 1 - nb))%nat by lia.
      rewrite hex_fixed_add, Zdiv_0_l. f_equal. lia.
    + replace (Z.to_nat (i - nb)) with 0%nat by lia. f_equal. lia.
Qed.

(** The digit loop writes the first [i] bytes, last byte first: the
    [2 i]-digit hex of their little-endian value. *)
Lemma digit_loop_spec fuel i v :
  (i <= length v)%nat -> (i <= fuel)%nat -> Forall byte_ok (firstn i v) ->
  digit_loop fuel (Z.of_nat i) v = hex_fixed (2 * i) (le_val (firstn i v)).
Proof.
  revert fuel; induction i as [|i IH]; intros fuel Hl Hf Hb; [destruct fuel; reflexivity|].
  destruct fuel as [|f]; [lia|]. cbn [digit_loop].
  destruct (Z.leb_spec 0 (Z.of_nat (S i) - 1)); [|lia].
  replace (Z.of_nat (S i) - 1) with (Z.of_nat i) by lia. rewrite Nat2Z.id.
  rewrite (firstn_S_nth i v 0) in * by lia.
  apply Forall_app in Hb as [Hb1 Hb2]. inversion Hb2 as [|? ? Hbi]; subst.
  rewrite IH by (assumption || lia). rewrite le_val_snoc, length_firstn, Nat.min_l by lia.
  pose proof (le_val_bound _ Hb1) as Hr. rewrite length_firstn, Nat.min_l in Hr by lia.
  replace (2 * S i)%nat with (2 + 2 * i)%nat by lia.
  rewrite hex_fixed_add, <- pow256, Z.mul_comm, Z.div_add, Z.div_small, Z.add_0_l by lia.
  rewrite hex_fixed_2 by assumption. f_equal.
  rewrite (hex_fixed_mod _ (_ + _)), <- pow256, Z.mod_add, Z.mod_small by lia.
  reflexivity.
Qed.

(** The number of bytes [prwrds] shows of a vector. *)
Definition shown (wsz nbits : Z) : nat := Z.to_nat (Z.min wsz ((nbits + 7) / 8)).

(** Both loops of one vector: the [2 wsz]-digit hex of the value of its
    first [min wsz nbytes] bytes. *)
Lemma hex_vec_spec wsz nb v :
  0 <= wsz -> 0 <= nb -> (Z.to_nat (Z.min wsz nb) <= length v)%nat ->
  Forall byte_ok (firstn (Z.to_nat (Z.min wsz nb)) v) ->
  hex_vec wsz nb v = hex_fixed (2 * Z.to_nat wsz) (le_val (firstn (Z.to_nat (Z.min wsz nb)) v)).
Proof.
  intros Hw Hn Hl Hb. unfold hex_vec. set (m := Z.to_nat (Z.min wsz nb)) in *.
  rewrite pad_loop_spec by lia.
  replace (Z.min wsz nb) with (Z.of_nat m) by lia. rewrite digit_loop_spec by (assumption || lia).
  pose proof (le_val_bound _ Hb) as Hr. rewrite length_firstn, Nat.min_l in Hr by lia.
  replace (2 * Z.to_nat wsz)%nat with (2 * Z.to_nat (wsz - nb) + 2 * m)%nat by lia.
  rewrite hex_fixed_add, <- pow256, Z.div_small by lia. reflexivity.
Qed.

Lemma read_hex_app acc a b :
  read_hex acc (a ++ b)%string = match read_hex acc a with Some x => read_hex x b | None => None end.
Proof.
  revert acc; induction a as [|c a IH]; intros acc; cbn; [reflexivity|].
  destruct (HexString.ascii_to_digit c); [apply IH|reflexivity].
Qed.

Lemma ascii_to_digit_hex_digit d :
  0 <= d < 16 -> HexString.ascii_to_digit (hex_digit d) = Some (Z.to_N d).
Proof.
  intros Hd.
  assert (d = 0 \/ d = 1 \/ d = 2 \/ d = 3 \/ d = 4 \/ d = 5 \/ d = 6 \/ d = 7 \/ d = 8 \/
          d = 9 \/ d = 10 \/ d = 11 \/ d = 12 \/ d = 13 \/ d = 14 \/ d = 15) as Hc by lia.
  repeat destruct Hc as [->|Hc]; try (subst; reflexivity).
Qed.

(** Reading [n] printed digits gives the value modulo [16^n]. *)
Lemma read_hex_fixed acc n v :
  read_hex acc (hex_fixed n v) = Some (acc * 16 ^ Z.of_nat n + v mod 16 ^ Z.of_nat n).
Proof.
  revert acc v; induction n as [|n IH]; intros acc v.
  { change (16 ^ Z.of_nat 0) with 1. rewrite Z.mul_1_r, Z.mod_1_r, Z.add_0_r. reflexivity. }
  cbn [hex_fixed]. rewrite read_hex_app, IH. cbn [read_hex].
  pose proof (Z.mod_pos_bound v 16). rewrite ascii_to_digit_hex_digit by lia. f_equal.
  rewrite Z2N.id by lia.
  rewrite Nat2Z.inj_succ, Z.pow_succ_r, Z.rem_mul_r
    by (lia || apply pow16_pos).
  ring.
Qed.

(** C39: [prwrds] prints each vector as the [2 wsz]-digit lowercase hex
    of the little-endian value of the bytes it shows ([min wsz nbytes],
    [nbytes = ceil(nbits/8)]), most significant digit first, zero-padded
    on the left: its padding and digit loops compute the fixed-width hex
    of the number the bytes encode. *)
Theorem prwrds_hex f tms tdi wsz nbits :
  0 <= wsz -> 0 <= nbits ->
  (shown wsz nbits <= length tms)%nat -> (shown wsz nbits <= length tdi)%nat ->
  Forall byte_ok (firstn (shown wsz nbits) tms) -> Forall byte_ok (firstn (shown wsz nbits) tdi) ->
  prwrds f tms (Some tdi) wsz nbits =
  [(f, ("( TMS => x" ++ dq ++ hex_fixed (2 * Z.to_nat wsz) (le_val (firstn (shown wsz nbits) tms)))%string);
   (Stderr, (dq ++ ", TDI => x" ++ dq)%string);
   (f, hex_fixed (2 * Z.to_nat wsz) (le_val (firstn (shown wsz nbits) tdi)));
   (Stderr, (dq ++ ", nbits => " ++ fmt_int nbits ++ ")," ++ nl)%string)].
Proof.
  intros Hw Hn Hl1 Hl2 Hb1 Hb2. unfold prwrds, shown in *.
  assert (0 <= (nbits + 7) / 8) by (apply Z.div_pos; lia).
  rewrite Z.quot_div_nonneg, !hex_vec_spec by (assumption || lia). reflexivity.
Qed.

(** C40: The digits [prwrds] prints for a vector, read back with the
    Standard Library's hex digit reader, give back the bytes it shows:
    the dump determines the vector's bytes. *)
Theorem prwrds_roundtrip f tms tdi wsz nbits :
  0 <= wsz -> 0 <= nbits ->
  (shown wsz nbits <= length tms)%nat -> Forall byte_ok (firstn (shown wsz nbits) tms) ->
  exists digits rest,
    prwrds f tms tdi wsz nbits =
      (f, ("( " ++ match tdi with Some _ => "TMS" | None => "TDO" end ++ " => x" ++ dq ++ digits)%string)
      :: rest /\
    option_map (le_bytes (shown wsz nbits)) (read_hex 0 digits) = Some (firstn (shown wsz nbits) tms).
Proof.
  intros Hw Hn Hl Hb.
  exists (hex_vec wsz ((nbits + 7) ÷ 8) tms), (tl (prwrds f tms tdi wsz nbits)).
  split; [destruct tdi; reflexivity|].
  assert (0 <= (nbits + 7) / 8) by (apply Z.div_pos; lia).
  unfold shown in *. rewrite Z.quot_div_nonneg, hex_vec_spec, read_hex_fixed by (assumption || lia).
  set (m := Z.to_nat (Z.min wsz ((nbits + 7) / 8))) in *.
  pose proof (le_val_bound _ Hb) as Hr. rewrite length_firstn, Nat.min_l in Hr by lia.
  assert (256 ^ Z.of_nat m <= 16 ^ Z.of_nat (2 * Z.to_nat wsz)).
  { rewrite <- pow256. apply Z.pow_le_mono_r; lia. }
  rewrite Z.mod_small by lia. cbn [option_map]. f_equal.
  rewrite <- (le_bytes_le_val (firstn m tms)) at 2 by assumption.
  rewrite length_firstn, Nat.min_l by lia. f_equal; lia.
Qed.

(** The two separators of [prwrds] go to [stderr] whatever its stream:
    a dump to another stream gets the TMS and TDI digits run together. *)
Lemma prwrds_other_stream k tms tdi wsz nbits :
  output_to (Stream k) (prwrds (Stream k) tms (Some tdi) wsz nbits) =
  ("( TMS => x" ++ dq ++ hex_vec wsz ((nbits + 7) ÷ 8) tms ++ hex_vec wsz ((nbits + 7) ÷ 8) tdi)%string.
Proof.
  cbn [prwrds output_to fold_right app fst snd sink_eqb]. rewrite Nat.eqb_refl.
  rewrite ?str_app_nil, ?str_app_assoc. reflexivity.
Qed.

(** ** Witnesses *)

Lemma prwrds_hex_witness :
  prwrds Stderr [1; 171; 15] (Some [255; 0; 16]) 4 20 =
  [(Stderr, ("( TMS => x" ++ dq ++ hex_fixed 8 (le_val [1; 171; 15]))%string);
   (Stderr, (dq ++ ", TDI => x" ++ dq)%string);
   (Stderr, hex_fixed 8 (le_val [255; 0; 16]));
   (Stderr, (dq ++ ", nbits => " ++ fmt_int 20 ++ ")," ++ nl)%string)].
Proof.
  apply (prwrds_hex Stderr [1; 171; 15] [255; 0; 16] 4 20); try lia; try (vm_compute; lia);
    repeat constructor; unfold byte_ok; lia.
Defined.

Lemma prwrds_roundtrip_witness :
  exists digits rest,
    prwrds (Stream 1) [1; 171; 15; 3] None 4 40 =
      (Stream 1, ("( " ++ "TDO" ++ " => x" ++ dq ++ digits)%string) :: rest /\
    option_map (le_bytes 4) (read_hex 0 digits) = Some [1; 171; 15; 3].
Proof.
  apply (prwrds_roundtrip (Stream 1) [1; 171; 15; 3] None 4 40); try lia; try (vm_compute; lia);
    repeat constructor; unfold byte_ok; lia.
Defined.

End Trace.
