(* ===== verification/Server.v ===== *)
(** * The TCP server: [SockSd], [XvcServer]

    Lines 501-565 of src/xvcSrv/src/xvcSrv.cc.  The constructor of
    [XvcServer] creates a stream socket ([SockSd]), sets [SO_REUSEADDR],
    binds it to the port and listens; each system call that fails throws
    [SysErr] with its own prefix.  The result of each call is a section
    variable (the kernel decides it); the constructor returns the log of
    the calls it makes ([syscall]) with its outcome, and a throw after
    the socket was created runs the destructor of [sock_], which closes
    it.  [open_fds] reads the descriptors left open off the log.
    [run] constructs one [XvcConn] per pass, which accepts a connection,
    and runs it ([XvcConn] is not in the sources: the outcomes of its
    constructor and of its [run] are the section variables [conn_new]
    and [conn_run]).  The [try] covers [conn.run()] only: a [SysErr]
    there closes the connection with a message, any other exception and
    every exception of the constructor end [run].  With [once_] it
    returns after the first connection.  The loop need not end without
    [once_]: [run_loop] takes fuel and returns [None] while the server is
    still running. *)

From Stdlib Require Import ZArith String List Lia.
From S2P Require Import Prelude Header Trace.
Import ListNotations Trace.

Module Server.
Open Scope Z_scope.

(** The server's members. *)
Record server : Type := mkServer {
  sock_ : Z;
  port_ : Z;
  maxMsgSize_ : Z;
  once_ : bool
}.

(** The system calls of the server, in order, with what they return
    where the code looks at it. *)
Inductive syscall : Type :=
| CSocket (stream : bool) (ret : Z)  (** [::socket(AF_INET, SOCK_STREAM or SOCK_DGRAM, 0)] *)
| CSetsockopt (sd : Z)               (** [::setsockopt(sd, SOL_SOCKET, SO_REUSEADDR, ...)] *)
| CBind (sd port : Z)                (** [::bind(sd, {INADDR_ANY, htons(port)}, ...)] *)
| CListen (sd backlog : Z)           (** [::listen(sd, backlog)] *)
| CClose (sd : Z).                   (** [::close(sd)] *)

(** [SockSd::~SockSd] (lines 508-511). *)
Definition SockSd_delete (sd : Z) : list syscall := [CClose sd].

(** [SockSd::getSd] (lines 513-517). *)
Definition getSd (sd : Z) : Z := sd.

Section Ctor.
(** What the system calls return: [socket] a descriptor or a negative
    number, the others 0 on success. *)
Variable socket_ : Z.
Variables setsockopt_ret bind_ret listen_ret : Z.

(** [SockSd::SockSd(stream)] (lines 501-506). *)
Definition SockSd_new (stream : bool) : list syscall * outcome xvc_exn Z :=
  ([CSocket stream socket_],
   if socket_ <? 0 then Throw (SysErr "Unable to create Socket") else Ret socket_).

(** [XvcServer::XvcServer] (lines 519-552); [port] is a [uint16_t].  The
    member [sock_] is constructed first; a throw of the body destroys it,
    which closes its descriptor. *)
Definition XvcServer_new (port maxMsgSize : Z) (once : bool) : list syscall * outcome xvc_exn server :=
  let '(l0, o) := SockSd_new true in
  match o with
  | Throw e => (l0, Throw e)
  | Ret sd =>
      let l1 := l0 ++ [CSetsockopt (getSd sd)] in
      if negb (setsockopt_ret =? 0) then (l1 ++ SockSd_delete sd, Throw (SysErr "setsockopt(SO_REUSEADDR) failed"))
      else
        let l2 := l1 ++ [CBind (getSd sd) (wrap 16 port)] in
        if negb (bind_ret =? 0) then (l2 ++ SockSd_delete sd, Throw (SysErr "Unable to bind Stream socket to local address"))
        else
          let l3 := l2 ++ [CListen (getSd sd) 1] in
          if negb (listen_ret =? 0) then (l3 ++ SockSd_delete sd, Throw (SysErr "Unable to listen on socket"))
          else (l3, Ret {| sock_ := sd; port_ := wrap 16 port; maxMsgSize_ := maxMsgSize; once_ := once |})
  end.
End Ctor.

(** The descriptors a sequence of system calls leaves open. *)
Definition fd_step (fds : list Z) (c : syscall) : list Z :=
  match c with
  | CSocket _ r => if r <? 0 then fds else r :: fds
  | CClose sd => remove Z.eq_dec sd fds
  | _ => fds
  end.

Definition open_fds (l : list syscall) : list Z := fold_left fd_step l [].

Definition is_syserr (e : xvc_exn) : bool :=
  match e with SysErr _ => true | _ => false end.

(** [fprintf(stderr, "Closing connection (%s)\n", e.what())] (line 562). *)
Definition closing (e : xvc_exn) : sink * string :=
  (Stderr, "Closing connection (" ++ what e ++ ")" ++ nl)%string.

Section Run.
(** The [k]-th pass of the loop constructs [XvcConn conn], which accepts
    a connection ([XvcConn] is not in the sources): [conn_new k] is the
    outcome of that constructor, [conn_run k] that of [conn.run()]. *)
Variable conn_new : nat -> outcome xvc_exn unit.
Variable conn_run : nat -> outcome xvc_exn unit.

(** [XvcServer::run] (lines 554-565) from connection [k], with [fuel]
    passes left: what it prints, and [Some] its return or throw, [None]
    a server still running when the fuel is spent.  [conn] is
    constructed outside the [try]: an exception of its constructor
    leaves [run]; the [catch] covers [conn.run()] only. *)
Fixpoint run_loop (fuel : nat) (once : bool) (k : nat)
    : list (sink * string) * option (outcome xvc_exn unit) :=
  match fuel with
  | O => ([], None)
  | S f =>
      match conn_new k with
      | Throw e => ([], Some (Throw e))
      | Ret _ =>
          match conn_run k with
          | Throw e =>
              if is_syserr e then
                let '(out, r) := if once then ([], Some (Ret tt)) else run_loop f once (S k) in
                (closing e :: out, r)
              else ([], Some (Throw e))
          | Ret _ => if once then ([], Some (Ret tt)) else run_loop f once (S k)
          end
      end
  end.

Definition run (fuel : nat) (s : server) : list (sink * string) * option (outcome xvc_exn unit) :=
  run_loop fuel (once_ s) 0.
End Run.

(** ** Facts *)

(** The constructor returns a listening server exactly when every system
    call succeeds; the port is the parameter's 16 bits. *)
Lemma XvcServer_new_ok socket_ so b l port m once s :
  snd (XvcServer_new socket_ so b l port m once) = Ret s <->
  0 <= socket_ /\ so = 0 /\ b = 0 /\ l = 0 /\
  s = {| sock_ := socket_; port_ := wrap 16 port; maxMsgSize_ := m; once_ := once |}.
Proof.
  unfold XvcServer_new, SockSd_new. destruct (Z.ltb_spec socket_ 0); cbn; [split; [discriminate|lia]|].
  destruct (Z.eqb_spec so 0), (Z.eqb_spec b 0), (Z.eqb_spec l 0); cbn;
    split; try discriminate; try lia; [intros [= <-]; auto|].
  intros (_ & _ & _ & _ & ->). reflexivity.
Qed.

(** C35: the constructor leaks no descriptor and works on its own
    socket: it calls [socket], [setsockopt], [bind] and [listen] in
    this order, the last three on the new socket, and stops at the first
    failure; when it throws after [socket] succeeded the destructor of
    [sock_] closes the socket, so no descriptor it opened stays open,
    and when it returns the server's socket is the only one. *)
Theorem XvcServer_new_no_leak socket_ so b l port m once :
  let '(calls, o) := XvcServer_new socket_ so b l port m once in
  (exists k, calls =
     firstn k [CSocket true socket_; CSetsockopt socket_; CBind socket_ (wrap 16 port); CListen socket_ 1] ++
     match o with Ret _ => [] | Throw _ => if socket_ <? 0 then [] else [CClose socket_] end) /\
  open_fds calls = match o with Ret s => [sock_ s] | Throw _ => [] end.
Proof.
  unfold XvcServer_new, SockSd_new, SockSd_delete, getSd, open_fds.
  destruct (Z.ltb_spec socket_ 0) as [Hs|Hs]; cbn;
    [|destruct (Z.eqb_spec so 0), (Z.eqb_spec b 0), (Z.eqb_spec l 0); cbn];
    destruct (Z.ltb_spec socket_ 0); try lia; cbn; rewrite ?Z.eqb_refl;
    try (destruct (Z.eq_dec socket_ socket_); try contradiction);
    (split; [|reflexivity]);
    first [exists 1%nat; reflexivity | exists 2%nat; reflexivity | exists 3%nat; reflexivity
          | exists 4%nat; reflexivity].
Qed.

Section Runs.
Variables conn_new conn_run : nat -> outcome xvc_exn unit.

(** The [j]-th connection is accepted and ends normally or in a
    [SysErr]: the server closes it and goes on. *)
Definition served (j : nat) : Prop :=
  conn_new j = Ret tt /\ match conn_run j with Ret _ => True | Throw e => is_syserr e = true end.

(** What the server prints for a connection it goes on after. *)
Definition closed_msgs (j : nat) : list (sink * string) :=
  match conn_run j with Throw e => [closing e] | Ret _ => [] end.

Lemma run_loop_next f k :
  served k ->
  run_loop conn_new conn_run (S f) false k =
    let '(o, r) := run_loop conn_new conn_run f false (S k) in (closed_msgs k ++ o, r).
Proof.
  intros [Hn Hr]. cbn [run_loop]. rewrite Hn. unfold closed_msgs.
  destruct (conn_run k) as [u|e]; [now destruct (run_loop _ _ _ _ _)|].
  rewrite Hr. now destruct (run_loop _ _ _ _ _).
Qed.

(** [j] connections served: the loop goes on with connection [k + j],
    having printed their closing messages. *)
Lemma run_loop_skip j f k :
  (forall i, (k <= i < k + j)%nat -> served i) ->
  run_loop conn_new conn_run (j + f) false k =
    let '(o, r) := run_loop conn_new conn_run f false (k + j) in
    (flat_map closed_msgs (seq k j) ++ o, r).
Proof.
  revert k; induction j as [|j IH]; intros k Hs.
  - rewrite Nat.add_0_r. now destruct (run_loop _ _ _ _ _).
  - cbn [Nat.add seq flat_map]. rewrite run_loop_next by (apply Hs; lia).
    rewrite IH by (intros i Hi; apply Hs; lia). rewrite Nat.add_succ_r.
    destruct (run_loop _ _ _ _ _). now rewrite app_assoc.
Qed.

(** The first [j] connections served, the [j]-th pass decides. *)
Lemma run_loop_at j f :
  (forall i, (i < j)%nat -> served i) -> (j < f)%nat ->
  run_loop conn_new conn_run f false 0 =
    let '(o, r) := run_loop conn_new conn_run (S (f - S j)) false j in
    (flat_map closed_msgs (seq 0 j) ++ o, r).
Proof.
  intros Hs Hf. replace f with (j + S (f - S j))%nat at 1 by lia.
  apply run_loop_skip. intros i Hi. apply Hs. lia.
Qed.

(** With [-o] a served first connection ends [run] normally. *)
Lemma run_loop_once f k : served k -> snd (run_loop conn_new conn_run (S f) true k) = Some (Ret tt).
Proof.
  intros [Hn Hr]. cbn [run_loop]. rewrite Hn.
  destruct (conn_run k) as [u|e]; [reflexivity|]. now rewrite Hr.
Qed.

(** C36: Without [-o] the server never returns while every connection
    is accepted and ends normally or in a [SysErr]: for every amount of
    fuel it is still running, having printed the closing message of each
    connection a [SysErr] ended, in order. *)
Theorem run_forever f k :
  (forall j, served j) ->
  run_loop conn_new conn_run f false k = (flat_map closed_msgs (seq k f), None).
Proof.
  intros Hs. pose proof (run_loop_skip f 0 k (fun i _ => Hs i)) as E.
  rewrite Nat.add_0_r in E. rewrite E. cbn [run_loop]. now rewrite app_nil_r.
Qed.

(** C37: [run] catches [SysErr] of [conn.run()] only: the first accepted
    connection that ends in any other exception (a [TimeoutErr] or
    [ProtoErr] of the engine) ends the server with it, after the
    closing messages of the connections before it. *)
Theorem run_stops_on_error f j e :
  (forall i, (i < j)%nat -> served i) -> conn_new j = Ret tt -> conn_run j = Throw e ->
  is_syserr e = false -> (j < f)%nat ->
  run_loop conn_new conn_run f false 0 = (flat_map closed_msgs (seq 0 j), Some (Throw e)).
Proof.
  intros Hs Hn Hj He Hf. rewrite (run_loop_at j f Hs Hf). cbn [run_loop].
  rewrite Hn, Hj, He. now rewrite app_nil_r.
Qed.

(** C38: the construction of [XvcConn], which accepts the connection,
    is outside the [try]: any exception it throws, a [SysErr] included,
    ends the server, although the same [SysErr] in [conn.run()] only
    closes the connection. *)
Theorem run_accept_uncaught f j e :
  (forall i, (i < j)%nat -> served i) -> conn_new j = Throw e -> (j < f)%nat ->
  run_loop conn_new conn_run f false 0 = (flat_map closed_msgs (seq 0 j), Some (Throw e)).
Proof.
  intros Hs Hn Hf. rewrite (run_loop_at j f Hs Hf). cbn [run_loop].
  rewrite Hn. now rewrite app_nil_r.
Qed.
End Runs.

(** ** Witnesses *)

Definition recv_err (k : nat) : outcome xvc_exn unit :=
  if Nat.even k then Ret tt else Throw (SysErr "recv").

(** Every other connection is closed by a [SysErr]. *)
Lemma run_forever_witness :
  run_loop (fun _ => Ret tt) recv_err 4 false 0 =
    ([closing (SysErr "recv"); closing (SysErr "recv")], None).
Proof.
  apply (run_forever (fun _ => Ret tt) recv_err 4 0).
  intros j. split; [reflexivity|]. unfold recv_err. destruct (Nat.even j); reflexivity.
Defined.

(** The third connection times out: the server stops. *)
Lemma run_stops_on_error_witness :
  run_loop (fun _ => Ret tt) (fun k => if (k =? 2)%nat then Throw (TimeoutErr "") else recv_err k) 5 false 0 =
    ([closing (SysErr "recv")], Some (Throw (TimeoutErr ""))).
Proof.
  exact (run_stops_on_error (fun _ => Ret tt) (fun k => if (k =? 2)%nat then Throw (TimeoutErr "") else recv_err k)
    5 2 (TimeoutErr "")
    ltac:(intros i Hi; destruct i as [|[|]]; [split; reflexivity..|lia]) eq_refl eq_refl eq_refl ltac:(lia)).
Defined.

(** The accept of the third connection fails with a [SysErr]: the server
    stops, although the second connection's [SysErr] did not stop it. *)
Lemma run_accept_uncaught_witness :
  run_loop (fun k => if (k =? 2)%nat then Throw (SysErr "accept") else Ret tt) recv_err 5 false 0 =
    ([closing (SysErr "recv")], Some (Throw (SysErr "accept"))).
Proof.
  exact (run_accept_uncaught (fun k => if (k =? 2)%nat then Throw (SysErr "accept") else Ret tt) recv_err
    5 2 (SysErr "accept")
    ltac:(intros i Hi; destruct i as [|[|]]; [split; reflexivity..|lia]) eq_refl ltac:(lia)).
Defined.

End Server.
