(* ===== verification/Registry.v ===== *)
(** * The transport registry and the driver selection of [main]

    [DriverRegistry] (src/xvcSrv/src/xvcSrv.cc lines 599-693) is an
    append-only vector of entries (name, factory, usage helper, whether a
    [-t <target>] argument is mandatory).  [find] scans it from the last
    entry down, so a later registration shadows an earlier one of the same
    name; a null or empty name selects the last entry.  [main] (lines
    773-803) selects a driver: the built-in [udpLoopback], a registered
    name, or else a module loaded with [dlopen], whose static registrars
    append their entries to the registry; [main] then asks for the last
    entry.  The module's side effect is modelled explicitly: [dlopen] is a
    parameter that returns the entries the module registers, or [None]
    when the module cannot be loaded.  The factories are parameters too:
    a factory receives the target argument and builds a driver or throws.
    The registry itself is a singleton: [getP] allocates it on first use
    and keeps it in a function-static pointer; [globals] holds that
    pointer and the allocated registries, and [reachable] the states any
    sequence of [getP], [get], [init] and registrar calls reaches. *)

From Stdlib Require Import ZArith String List Lia.
From S2P Require Import Prelude Header.
Import ListNotations.

Module Registry.

Section Reg.
Context {Drv : Type}.

(** [creator_(argc, argv, arg)]: the option parsing of [argv] is the
    driver's own; the model passes the target argument. *)
Definition Factory : Type := option string -> outcome xvc_exn Drv.

(** A usage helper, by the lines it prints. *)
Definition Usage : Type := list string.

Record RegEntry : Type := mkEntry {
  name_ : string;
  creator_ : option Factory;
  helper_ : option Usage;
  needTargetArg_ : bool
}.

(** [entries_] *)
Definition DriverRegistry : Type := list RegEntry.

Definition registerFactory (name : string) (f : option Factory) (h : option Usage)
    (needTargetArg : bool) (r : DriverRegistry) : DriverRegistry :=
  r ++ [{| name_ := name; creator_ := f; helper_ := h; needTargetArg_ := needTargetArg |}].

(** The loop [while (i >= 0) { if (0 == strcmp(...)) break; i--; }]:
    [n] indices [n - 1 .. 0] are left to examine. *)
Fixpoint scan_down (n : nat) (es : DriverRegistry) (nm : string) : option nat :=
  match n with
  | O => None
  | S i =>
      match nth_error es i with
      | Some e => if String.eqb (name_ e) nm then Some i else scan_down i es nm
      | None => None
      end
  end.

(** [i = entries_.size() - 1]; a null ([None]) or empty name keeps it. *)
Definition find_idx (drvnam : option string) (es : DriverRegistry) : option nat :=
  match drvnam with
  | Some nm => if negb (String.eqb nm "") then scan_down (length es) es nm
               else match length es with O => None | S i => Some i end
  | None => match length es with O => None | S i => Some i end
  end.

Definition find (drvnam : option string) (es : DriverRegistry) : option RegEntry :=
  match find_idx drvnam es with
  | Some i => nth_error es i
  | None => None
  end.

Definition has (drvnam : option string) (es : DriverRegistry) : bool :=
  match find drvnam es with Some _ => true | None => false end.

(** [printRegisteredDrivers]: the names, in registration order. *)
Definition registeredNames (es : DriverRegistry) : list string := map name_ es.

(** [usage]: what the helper of the selected entry prints. *)
Definition usage (drvnam : option string) (es : DriverRegistry) : option Usage :=
  match find drvnam es with
  | Some e => helper_ e
  | None => None
  end.

Definition create (name : option string) (es : DriverRegistry) (arg : option string)
    : outcome xvc_exn Drv :=
  match find name es with
  | Some {| creator_ := Some f; needTargetArg_ := nt |} =>
      if nt && match arg with None => true | Some a => String.eqb a "" end
      then Throw (RuntimeErr "Missing <target>")
      else f arg
  | _ => Throw (RuntimeErr "Internal Error: No driver module registered")
  end%bool.

(** ** Driver selection in [main] *)

(** What [main] goes on with after the selection block. *)
Inductive selection : Type :=
| SelUdpLoopback                  (** built-in UDP driver and loopback thread *)
| SelUdpUsage                     (** [-h] with [udpLoopback] *)
| SelUsage (u : option Usage)     (** [-h]: the selected entry's help *)
| SelDriver (d : Drv).

Variable dlopen : string -> option DriverRegistry.

(** Lines 773-803.  A [std::runtime_error] thrown in the block is
    caught, reported with the usage, and ends [main] with status 1;
    the model returns it. *)
Definition select_driver (drvnam : string) (help : bool) (target : option string)
    (reg : DriverRegistry) : DriverRegistry * outcome xvc_exn selection :=
  if String.eqb drvnam "udpLoopback" then
    (reg, Ret (if help then SelUdpUsage else SelUdpLoopback))
  else
    let '(reg1, nm) :=
      if has (Some drvnam) reg then (reg, Some (Some drvnam))
      else match dlopen drvnam with
           | Some added => (reg ++ added, Some None)
           | None => (reg, None)
           end in
    match nm with
    | None => (reg1, Throw (RuntimeErr "Unable to load requested driver: <dlerror>"))
    | Some n =>
        if help then (reg1, Ret (SelUsage (usage n reg1)))
        else match create n reg1 target with
             | Ret d => (reg1, Ret (SelDriver d))
             | Throw e => (reg1, Throw e)
             end
    end.

(** ** The abstract specification of [find] with a name

    The entry the registry promises for a non-empty name: the one
    registered last under that name. *)
Definition last_named (nm : string) (es : DriverRegistry) : option RegEntry :=
  fold_left (fun acc e => if String.eqb (name_ e) nm then Some e else acc) es None.

(** ** The singleton: [DriverRegistry::getP], [get] and [init]

    The globals of the program that concern the registry: [theR], the
    function-static pointer of [getP], and the objects allocated with
    [new DriverRegistry()], by address. *)
Record globals : Type := mkGlobals {
  theR : option nat;
  heap : list DriverRegistry
}.

(** Before any static constructor runs: [theR = 0], nothing allocated. *)
Definition globals0 : globals := {| theR := None; heap := [] |}.

(** [DriverRegistry::getP(creat)] (lines 654-662). *)
Definition getP (creat : bool) (g : globals) : globals * option nat :=
  match theR g with
  | Some p => (g, Some p)
  | None =>
      if creat then
        let p := length (heap g) in
        ({| theR := Some p; heap := heap g ++ [[]] |}, Some p)
      else (g, None)
  end.

(** [DriverRegistry::get()] (lines 664-668). *)
Definition DriverRegistry_get (g : globals) : globals * option nat := getP true g.

(** [DriverRegistry::init()] (lines 670-674). *)
Definition DriverRegistry_init (g : globals) : globals * option nat := getP true g.

(** The object at an address. *)
Definition deref (g : globals) (p : option nat) : option DriverRegistry :=
  match p with Some a => nth_error (heap g) a | None => None end.

(** Apply [f] to the object at address [a]. *)
Fixpoint heap_update (a : nat) (f : DriverRegistry -> DriverRegistry) (h : list DriverRegistry)
    : list DriverRegistry :=
  match h, a with
  | [], _ => []
  | r :: h', O => f r :: h'
  | r :: h', S a' => r :: heap_update a' f h'
  end.

(** The static [DriverRegistrar] of a driver module (xvcDriver.h, not
    in the sources): [DriverRegistry::get()->registerFactory(...)]. *)
Definition registrar (name : string) (f : option Factory) (h : option Usage) (nt : bool)
    (g : globals) : globals :=
  let '(g1, p) := DriverRegistry_get g in
  match p with
  | Some a => {| theR := theR g1; heap := heap_update a (registerFactory name f h nt) (heap g1) |}
  | None => g1
  end.

(** The calls that reach the globals, and what each returns. *)
Inductive call : Type :=
| CallGetP (creat : bool)
| CallGet
| CallInit
| CallRegistrar (name : string) (f : option Factory) (h : option Usage) (nt : bool).

Definition run_call (c : call) (g : globals) : globals * option nat :=
  match c with
  | CallGetP b => getP b g
  | CallGet => DriverRegistry_get g
  | CallInit => DriverRegistry_init g
  | CallRegistrar n f h nt => (registrar n f h nt g, None)
  end.

(** The globals any sequence of calls reaches. *)
Inductive reachable : globals -> Prop :=
| reach0 : reachable globals0
| reach_call c g : reachable g -> reachable (fst (run_call c g)).

(** The registry [theR] points to, [[]] before there is one. *)
Definition the_registry (g : globals) : DriverRegistry :=
  match theR g with Some a => nth a (heap g) [] | None => [] end.

(** At most one registry is ever allocated, at address 0, and [theR]
    points to it once it exists. *)
Definition singleton_inv (g : globals) : Prop :=
  (theR g = None /\ heap g = []) \/ (theR g = Some 0%nat /\ length (heap g) = 1%nat).

(** The registrations of the static registrars, in order. *)
Definition run_registrars (regs : list (string * option Factory * option Usage * bool)) (g : globals)
    : globals :=
  fold_left (fun g '(nm, f, h, nt) => registrar nm f h nt g) regs g.
End Reg.

Section Facts.
Context {Drv : Type}.
Local Open Scope nat_scope.

Lemma scan_down_app n (es l : DriverRegistry (Drv:=Drv)) nm :
  n <= length es -> scan_down n (es ++ l) nm = scan_down n es nm.
Proof.
  induction n as [|n IH]; intros Hn; [reflexivity|]. cbn [scan_down].
  rewrite nth_error_app1 by lia. destruct (nth_error es n); [|reflexivity].
  destruct (String.eqb _ _); [reflexivity|]. apply IH; lia.
Qed.

Lemma scan_down_lt n (es : DriverRegistry (Drv:=Drv)) nm i :
  scan_down n es nm = Some i -> i < length es.
Proof.
  induction n as [|n IH]; cbn [scan_down]; [discriminate|].
  destruct (nth_error es n) eqn:En; [|discriminate].
  destruct (String.eqb _ _); [intros [= <-]; apply nth_error_Some; congruence|exact IH].
Qed.

Lemma scan_down_spec (es : DriverRegistry (Drv:=Drv)) nm :
  match scan_down (length es) es nm with
  | Some i => nth_error es i
  | None => None
  end = last_named nm es.
Proof.
  induction es as [|e es IH] using rev_ind; [reflexivity|].
  unfold last_named. rewrite fold_left_app. fold (last_named nm es). cbn [fold_left].
  rewrite length_app. cbn [length]. rewrite Nat.add_1_r. cbn [scan_down].
  rewrite nth_error_app2, Nat.sub_diag by lia. cbn [nth_error].
  destruct (String.eqb (name_ e) nm).
  - rewrite nth_error_app2, Nat.sub_diag by lia. reflexivity.
  - rewrite scan_down_app by lia. rewrite <- IH.
    destruct (scan_down (length es) es nm) as [i|] eqn:E; [|reflexivity].
    apply nth_error_app1. eapply scan_down_lt; eauto.
Qed.

Lemma find_name_scan (es : DriverRegistry (Drv:=Drv)) nm :
  nm <> ""%string ->
  find (Some nm) es = match scan_down (length es) es nm with Some i => nth_error es i | None => None end.
Proof. intros Hnm. unfold find, find_idx. apply String.eqb_neq in Hnm. now rewrite Hnm. Qed.

(** C24: [find] with a non-empty name refines its specification: it
    returns the entry registered last under that name, or none. *)
Theorem find_named (es : DriverRegistry (Drv:=Drv)) nm :
  nm <> ""%string -> find (Some nm) es = last_named nm es.
Proof. intros Hnm. rewrite find_name_scan by exact Hnm. apply scan_down_spec. Qed.

Lemma find_none_last (es : DriverRegistry (Drv:=Drv)) e :
  find None (es ++ [e]) = Some e.
Proof.
  unfold find, find_idx. rewrite length_app, Nat.add_1_r.
  rewrite nth_error_app2, Nat.sub_diag by lia. reflexivity.
Qed.

Lemma last_named_register nm f h nt (r : DriverRegistry (Drv:=Drv)) :
  last_named nm (registerFactory nm f h nt r) = Some (mkEntry nm f h nt).
Proof.
  unfold last_named, registerFactory. rewrite fold_left_app. cbn [fold_left name_].
  now rewrite String.eqb_refl.
Qed.

(** A registration shadows every earlier one of the same name:
    [find] returns the entry just registered. *)
Lemma registerFactory_shadows nm f h nt (r : DriverRegistry (Drv:=Drv)) :
  nm <> ""%string -> find (Some nm) (registerFactory nm f h nt r) = Some (mkEntry nm f h nt).
Proof.
  intros Hnm. rewrite find_name_scan, scan_down_spec by exact Hnm. apply last_named_register.
Qed.

(** C25: [create] refuses a driver that needs a target when none (or an
    empty one) is given, with the error "Missing <target>". *)
Theorem create_missing_target name es arg f h nm :
  find name es = Some (mkEntry (Drv:=Drv) nm (Some f) h true) ->
  match arg with None => True | Some a => a = ""%string end ->
  create name es arg = Throw (RuntimeErr "Missing <target>").
Proof.
  intros Hf Ha. unfold create. rewrite Hf. destruct arg as [a|]; [subst a|]; reflexivity.
Qed.

Lemma create_unregistered name (es : DriverRegistry (Drv:=Drv)) arg :
  match find name es with Some e => creator_ e = None | None => True end ->
  create name es arg = Throw (RuntimeErr "Internal Error: No driver module registered").
Proof.
  intros H. unfold create. destruct (find name es) as [[n c hl nt]|]; [|reflexivity].
  cbn in H. subst c. reflexivity.
Qed.

(** C26: A module loaded with [dlopen] appends its entries and [main]
    then creates the driver of the last entry of the registry, whichever
    component registered it: a module that registers nothing silently
    yields the last built-in driver. *)
Theorem select_driver_dlopen dlopen drvnam target (reg added pre : DriverRegistry (Drv:=Drv)) e f :
  drvnam <> "udpLoopback"%string -> has (Some drvnam) reg = false ->
  dlopen drvnam = Some added -> reg ++ added = pre ++ [e] ->
  creator_ e = Some f -> needTargetArg_ e = false ->
  select_driver dlopen drvnam false target reg =
    (reg ++ added, match f target with Ret d => Ret (SelDriver d) | Throw x => Throw x end).
Proof.
  intros Hu Hh Hd Ha Hc Hn. unfold select_driver. apply String.eqb_neq in Hu.
  rewrite Hu, Hh, Hd. unfold create. rewrite Ha, find_none_last.
  destruct e as [n c hl nt]; cbn in *; subst. destruct (f target); reflexivity.
Qed.
(** ** The singleton *)

Lemma length_heap_update a f (h : list (DriverRegistry (Drv:=Drv))) :
  length (heap_update a f h) = length h.
Proof. revert a; induction h as [|r h IH]; intros [|a]; cbn; auto. Qed.

(** One registrar call on a state of the invariant: the registry exists
    afterwards and has the new entry appended. *)
Lemma registrar_inv nm f h nt (g : globals (Drv:=Drv)) :
  singleton_inv g ->
  theR (registrar nm f h nt g) = Some 0%nat /\
  heap (registrar nm f h nt g) = [registerFactory nm f h nt (the_registry g)].
Proof.
  intros [[E1 E2]|[E1 E2]]; unfold registrar, DriverRegistry_get, getP, the_registry; rewrite E1; cbn.
  - rewrite E2. auto.
  - destruct (heap g) as [|r [|]]; cbn in E2; try discriminate. auto.
Qed.

Lemma run_call_inv c (g : globals (Drv:=Drv)) : singleton_inv g -> singleton_inv (fst (run_call c g)).
Proof.
  intros Hi. destruct c as [b| | |nm f h nt]; cbn [run_call fst].
  - destruct Hi as [[E1 E2]|[E1 E2]]; unfold getP; rewrite E1; [|now right].
    destruct b; [right; cbn; rewrite E2; auto|now left].
  - destruct Hi as [[E1 E2]|[E1 E2]]; unfold DriverRegistry_get, getP; rewrite E1; [right; cbn; rewrite E2|right]; auto.
  - destruct Hi as [[E1 E2]|[E1 E2]]; unfold DriverRegistry_init, getP; rewrite E1; [right; cbn; rewrite E2|right]; auto.
  - right. destruct (registrar_inv nm f h nt g Hi) as [-> ->]. auto.
Qed.

Lemma reachable_inv (g : globals (Drv:=Drv)) : reachable g -> singleton_inv g.
Proof. induction 1; [left; auto|now apply run_call_inv]. Qed.

(** C27: [getP] is a singleton: in every state any sequence of calls
    reaches, each pointer [getP], [get] or [init] returns is address 0,
    and afterwards [theR] holds it and exactly one registry has ever
    been allocated. *)
Theorem registry_singleton (g : globals (Drv:=Drv)) c p :
  reachable g -> snd (run_call c g) = Some p ->
  p = 0%nat /\ theR (fst (run_call c g)) = Some 0%nat /\ length (heap (fst (run_call c g))) = 1%nat.
Proof.
  intros Hr Hp. pose proof (run_call_inv c g (reachable_inv g Hr)) as Hi.
  destruct c as [b| | |nm f h nt]; cbn [run_call fst snd] in *; [| | |discriminate];
    unfold DriverRegistry_get, DriverRegistry_init, getP in *;
    destruct (reachable_inv g Hr) as [[E1 E2]|[E1 E2]]; rewrite E1 in *;
    try (destruct b); cbn in *; try discriminate; injection Hp as <-; rewrite ?E2; auto.
Qed.

Lemma run_registrars_inv regs (g : globals (Drv:=Drv)) :
  singleton_inv g ->
  singleton_inv (run_registrars regs g) /\
  the_registry (run_registrars regs g) =
    fold_left (fun r '(nm, f, h, nt) => registerFactory nm f h nt r) regs (the_registry g).
Proof.
  revert g; induction regs as [|[[[nm f] h] nt] regs IH]; intros g Hi; [auto|].
  cbn [run_registrars fold_left]. destruct (registrar_inv nm f h nt g Hi) as [E1 E2].
  replace (registerFactory nm f h nt (the_registry g))
    with (the_registry (registrar nm f h nt g)) by (unfold the_registry; now rewrite E1, E2).
  apply IH. right. rewrite E1, E2. auto.
Qed.

(** C28: [init] keeps what the static registrars registered: after any
    sequence of registrars (each calling [get]), [main]'s
    [DriverRegistry::init()] returns the one registry, holding every
    registration in order, and does not allocate a fresh, empty one. *)
Theorem init_keeps_registrations regs :
  snd (DriverRegistry_init (Drv:=Drv) (run_registrars regs globals0)) = Some 0%nat /\
  deref (fst (DriverRegistry_init (run_registrars regs globals0)))
    (snd (DriverRegistry_init (run_registrars regs globals0))) =
    Some (fold_left (fun r '(nm, f, h, nt) => registerFactory nm f h nt r) regs []).
Proof.
  destruct (run_registrars_inv regs globals0) as [Hi Hr]; [left; auto|].
  change (the_registry globals0) with (@nil (RegEntry (Drv:=Drv))) in Hr. rewrite <- Hr.
  unfold DriverRegistry_init, getP, the_registry.
  destruct Hi as [[E1 E2]|[E1 E2]]; rewrite E1; cbn; [rewrite E2; auto|].
  destruct (heap (run_registrars regs globals0)) as [|r [|]]; cbn in E2 |- *; try discriminate. auto.
Qed.

End Facts.

(** ** Witnesses, with drivers of type [unit] *)

Lemma find_named_witness :
  find (Drv:=unit) (Some "udp"%string)
    [mkEntry "udp" None None true; mkEntry "tmem" None None true; mkEntry "udp" None None false] =
  last_named "udp" [mkEntry "udp" None None true; mkEntry "tmem" None None true; mkEntry "udp" None None false].
Proof. apply find_named. discriminate. Defined.

Lemma registerFactory_shadows_witness :
  find (Drv:=unit) (Some "udp"%string) (registerFactory "udp" None None false [mkEntry "udp" None None true]) =
    Some (mkEntry "udp" None None false).
Proof. apply registerFactory_shadows. discriminate. Defined.

Lemma create_missing_target_witness :
  create (Some "tmem"%string) [mkEntry "tmem" (Some (fun _ => Ret tt)) None true] None =
    Throw (RuntimeErr "Missing <target>").
Proof. eapply create_missing_target; [reflexivity|exact I]. Defined.

(** The module "libempty.so" registers nothing: the built-in "udp" entry is created. *)
Lemma select_driver_dlopen_witness :
  select_driver (Drv:=unit) (fun _ => Some []) "libempty.so" false None
    [mkEntry "udp" (Some (fun _ => Ret tt)) None false] =
  ([mkEntry "udp" (Some (fun _ => Ret tt)) None false] ++ [],
   match (fun _ : option string => Ret tt : outcome xvc_exn unit) None with
   | Ret d => Ret (SelDriver d) | Throw x => Throw x end).
Proof.
  eapply (select_driver_dlopen _ _ _ _ [] []); [discriminate|reflexivity|reflexivity|reflexivity|reflexivity|reflexivity].
Defined.

(** Two [get] calls, then [main]'s [init]: all three return address 0. *)
Lemma registry_singleton_witness :
  let g := fst (run_call (Drv:=unit) CallGet (fst (run_call CallGet globals0))) in
  0%nat = 0%nat /\ theR (fst (run_call CallInit g)) = Some 0%nat /\
  length (heap (fst (run_call CallInit g))) = 1%nat.
Proof.
  apply (registry_singleton _ CallInit 0); [|reflexivity].
  apply (reach_call CallGet), (reach_call CallGet), reach0.
Defined.

(** The "tmem" and "udp" registrars run before [main]. *)
Lemma init_keeps_registrations_witness :
  deref (Drv:=unit)
    (fst (DriverRegistry_init (Drv:=unit) (run_registrars [("tmem"%string, None, None, true); ("udp"%string, None, None, true)] globals0)))
    (snd (DriverRegistry_init (Drv:=unit) (run_registrars [("tmem"%string, None, None, true); ("udp"%string, None, None, true)] globals0))) =
  Some [mkEntry "tmem" None None true; mkEntry "udp" None None true].
Proof. apply (init_keeps_registrations [("tmem"%string, None, None, true); ("udp"%string, None, None, true)]). Defined.

End Registry.
