(* ===== verification/Cli.v ===== *)
(** * The command line of [main]

    Lines 696-768 of src/xvcSrv/src/xvcSrv.cc: [getopt] hands [main] the
    options of "hvVost:D:p:M:T:" one at a time, and a [switch] updates
    the local configuration ([debug], [target], [drvnam], [port],
    [maxMsg], [setTest], [testMode], [once], [help]) or ends [main].  The
    model takes what [getopt] returns as a list of (option character,
    [optarg]); an unknown option or a missing argument is a character
    outside the [switch] (getopt returns ['?']).  [sscanf(optarg, "%i",
    i_p)] is libc: it is the section variable [scan_i], which gives the
    number it reads, or [None] when it reads none; the number is stored
    in an [unsigned].  [parse_writes] is what the loop prints: the
    version for [-V], [usage] (lines 567-585) for [-h], the message of
    an unknown option or of an argument [sscanf] cannot read; [getopt]'s
    own messages are not modelled.  [cli_select] composes the parsed configuration
    with the driver selection of [Registry]; [server_port] is the
    [uint16_t] parameter of [XvcServer] that receives [port]. *)

From Stdlib Require Import ZArith Ascii String List Lia.
From S2P Require Import Prelude Header Transport Trace Registry.
Import ListNotations Jtag Trace Registry.

Module Cli.
Open Scope Z_scope.

(** [DEFAULTDRVNAME] (line 35). *)
Definition DEFAULTDRVNAME : string := "udp".

(** The locals of [main] that the options set. *)
Record cli : Type := mkCli {
  debug : Z;
  target : option string;
  drvnam : string;
  port : Z;
  maxMsg : Z;
  setTest : bool;
  testMode : Z;
  once : bool;
  help : bool
}.

(** Lines 700-714; a null [target] is [None]. *)
Definition cli_init : cli :=
  {| debug := 0; target := None; drvnam := DEFAULTDRVNAME; port := 2542; maxMsg := 32768;
     setTest := false; testMode := 0; once := false; help := false |}.

Definition set_debug (d : Z) (c : cli) : cli :=
  {| debug := d; target := target c; drvnam := drvnam c; port := port c; maxMsg := maxMsg c;
     setTest := setTest c; testMode := testMode c; once := once c; help := help c |}.

Definition set_target (t : option string) (c : cli) : cli :=
  {| debug := debug c; target := t; drvnam := drvnam c; port := port c; maxMsg := maxMsg c;
     setTest := setTest c; testMode := testMode c; once := once c; help := help c |}.

Definition set_drvnam (n : string) (c : cli) : cli :=
  {| debug := debug c; target := target c; drvnam := n; port := port c; maxMsg := maxMsg c;
     setTest := setTest c; testMode := testMode c; once := once c; help := help c |}.

Definition set_flags (st o h : bool) (c : cli) : cli :=
  {| debug := debug c; target := target c; drvnam := drvnam c; port := port c; maxMsg := maxMsg c;
     setTest := st; testMode := testMode c; once := o; help := h |}.

(** The member [i_p] points to. *)
Inductive intvar : Type := IMaxMsg | IPort | ITestMode.

(** [sscanf] stores through [i_p]. *)
Definition store (v : intvar) (n : Z) (c : cli) : cli :=
  match v with
  | IMaxMsg =>
      {| debug := debug c; target := target c; drvnam := drvnam c; port := port c; maxMsg := n;
         setTest := setTest c; testMode := testMode c; once := once c; help := help c |}
  | IPort =>
      {| debug := debug c; target := target c; drvnam := drvnam c; port := n; maxMsg := maxMsg c;
         setTest := setTest c; testMode := testMode c; once := once c; help := help c |}
  | ITestMode =>
      {| debug := debug c; target := target c; drvnam := drvnam c; port := port c; maxMsg := maxMsg c;
         setTest := setTest c; testMode := n; once := once c; help := help c |}
  end.

(** One pass of the [switch] (lines 717-763): [Stop] is a [return] of
    [main] with its status, [Next] gives [i_p] and the configuration. *)
Inductive step : Type :=
| Stop (code : Z)
| Next (i_p : option intvar) (c : cli).

Definition opt_case (opt : ascii) (optarg : string) (c : cli) : step :=
  if (opt =? "h")%char then Next None (set_flags (setTest c) (once c) true c)
  else if (opt =? "v")%char then Next None (set_debug (u32 (debug c + 1)) c)
  else if (opt =? "V")%char then Stop 0
  else if (opt =? "t")%char then Next None (set_target (Some optarg) c)
  else if (opt =? "s")%char then Next None (set_debug (Z.lor (debug c) 256) c)
  else if (opt =? "D")%char then Next None (set_drvnam optarg c)
  else if (opt =? "M")%char then Next (Some IMaxMsg) c
  else if (opt =? "p")%char then Next (Some IPort) c
  else if (opt =? "T")%char then Next (Some ITestMode) (set_flags true (once c) (help c) c)
  else if (opt =? "o")%char then Next None (set_flags (setTest c) true (help c) c)
  else Stop 1.

(** A driver line of the usage: [fprintf(stderr, "                   '%s'\n", name)]. *)
Definition driver_line (n : string) : string := ("                   '" ++ n ++ "'" ++ nl)%string.

(** [usage(nm)] of [main] (lines 567-585), with the registry
    [DriverRegistry::get()] returns. *)
Definition main_usage {Drv : Type} (nm : string) (reg : DriverRegistry (Drv:=Drv)) : list (sink * string) :=
  [(Stderr, ("Usage: " ++ nm ++ " [-v{v}] [-Vh] [-D <driver>] [-p <port>] -t <target> [ -- <driver_options>]" ++ nl)%string);
    (Stderr, ("  -t <target> : contact target (depends on driver; e.g., <ip[:port]>)" ++ nl)%string);
    (Stderr, ("  -h          : this message" ++ nl)%string);
    (Stderr, ("  -D <driver> : use transport driver 'driver'" ++ nl)%string);
    (Stderr, ("                   built-in drivers:" ++ nl)%string)] ++
  map (fun n => (Stderr, driver_line n)) (registeredNames reg) ++
  [(Stderr, ("                   'udpLoopback'" ++ nl)%string);
    (Stderr, ("                the default driver is: '" ++ DEFAULTDRVNAME ++ "'" ++ nl)%string);
    (Stderr, ("  -p <port>   : bind to TCP port <port> (default: 2542)" ++ nl)%string);
    (Stderr, ("  -M          : max XVC vector size (default 32768)" ++ nl)%string);
    (Stderr, ("  -v          : verbose (more 'v's increase verbosity)" ++ nl)%string);
    (Stderr, ("  -V          : print version information" ++ nl)%string);
    (Stderr, ("  -T <mode>   : set test mode/flags" ++ nl)%string)].

(** [XVC_SRV_VERSION] (lines 28-31), unless the Makefile defines it. *)
Definition XVC_SRV_VERSION : string := "unknown".

(** The result of the option loop. *)
Inductive parsed : Type :=
| Exit (code : Z)
| Go (c : cli).

Section Parse.
Variable scan_i : string -> option Z.

(** Lines 717-767: the [switch], then the [sscanf] of lines 764-767. *)
Definition opt_step (opt : ascii) (optarg : string) (c : cli) : parsed :=
  match opt_case opt optarg c with
  | Stop code => Exit code
  | Next None c1 => Go c1
  | Next (Some v) c1 =>
      match scan_i optarg with
      | None => Exit 1
      | Some n => Go (store v (u32 n) c1)
      end
  end.

(** Lines 716-768: the [while] over [getopt]. *)
Fixpoint parse_opts (items : list (ascii * string)) (c : cli) : parsed :=
  match items with
  | [] => Go c
  | (opt, optarg) :: rest =>
      match opt_step opt optarg c with
      | Exit code => Exit code
      | Go c1 => parse_opts rest c1
      end
  end.

(** What one pass of the loop prints, by the outcome of the [switch]:
    [usage(argv[0])] for [-h] (line 724), the version for [-V] (line
    731), the complaint before [return 1] for an unknown option (line
    720) or an argument [sscanf] cannot read (line 765). *)
Definition opt_writes {Drv : Type} (nm : string) (reg : DriverRegistry (Drv:=Drv))
    (opt : ascii) (optarg : string) (c : cli) : list (sink * string) :=
  match opt_case opt optarg c with
  | Stop code =>
      if code =? 0 then [(stdout, (XVC_SRV_VERSION ++ nl)%string)]
      else [(Stderr, ("Unknown option '-" ++ String opt EmptyString ++ "'" ++ nl)%string)]
  | Next None _ => if (opt =? "h")%char then main_usage nm reg else []
  | Next (Some _) _ =>
      match scan_i optarg with
      | None => [(Stderr, ("Unable to scan arg for option '-" ++ String opt EmptyString ++ "': " ++
                           optarg ++ nl)%string)]
      | Some _ => []
      end
  end.

(** What the whole loop prints, pass after pass, until it ends. *)
Fixpoint parse_writes {Drv : Type} (nm : string) (reg : DriverRegistry (Drv:=Drv))
    (items : list (ascii * string)) (c : cli) : list (sink * string) :=
  match items with
  | [] => []
  | (opt, optarg) :: rest =>
      opt_writes nm reg opt optarg c ++
      match opt_step opt optarg c with
      | Exit _ => []
      | Go c1 => parse_writes nm reg rest c1
      end
  end.

(** The selection block of [main] after the options (lines 773-803). *)
Definition cli_select {Drv : Type} (dlopen : string -> option (DriverRegistry (Drv:=Drv)))
    (items : list (ascii * string)) (reg : DriverRegistry (Drv:=Drv))
    : Z + (DriverRegistry (Drv:=Drv) * outcome xvc_exn (selection (Drv:=Drv))) :=
  match parse_opts items cli_init with
  | Exit code => inl code
  | Go c => inr (select_driver dlopen (drvnam c) (help c) (target c) reg)
  end.
End Parse.

(** [XvcServer s(port, ...)] (line 836): the constructor's parameter is
    a [uint16_t]. *)
Definition server_port (c : cli) : Z := wrap 16 (port c).

(** The argument of the last option [o], or [d] when there is none. *)
Definition last_arg (o : ascii) (items : list (ascii * string)) (d : string) : string :=
  fold_left (fun acc it => if (fst it =? o)%char then snd it else acc) items d.

(** ** Facts *)

(** Split a step on the option character: every comparison of the
    [switch] is decided, the store branches on what [sscanf] reads. *)
Ltac opt_cases scan :=
  unfold opt_step, opt_case;
  repeat match goal with
  | |- context [Ascii.eqb ?o ?x] =>
      is_var o; destruct (Ascii.eqb_spec o x) as [->|?]; cbn [Ascii.eqb Bool.eqb andb]
  end;
  try destruct (scan _); try discriminate; intros [= <-]; reflexivity.

Section Facts.
Variable scan_i : string -> option Z.

Lemma opt_step_drvnam o a c c1 :
  opt_step scan_i o a c = Go c1 -> drvnam c1 = if (o =? "D")%char then a else drvnam c.
Proof. opt_cases scan_i. Qed.

Lemma opt_step_port o a c c1 :
  opt_step scan_i o a c = Go c1 ->
  port c1 = if (o =? "p")%char then match scan_i a with Some n => u32 n | None => port c end
            else port c.
Proof. opt_cases scan_i. Qed.

Lemma opt_step_help o a c c1 :
  opt_step scan_i o a c = Go c1 -> help c1 = (if (o =? "h")%char then true else help c).
Proof. opt_cases scan_i. Qed.

Lemma parse_opts_app l1 l2 c :
  parse_opts scan_i (l1 ++ l2) c =
    match parse_opts scan_i l1 c with Exit k => Exit k | Go c1 => parse_opts scan_i l2 c1 end.
Proof.
  revert c. induction l1 as [|[o a] l1 IH]; intros c; [reflexivity|].
  cbn [app parse_opts]. destruct (opt_step scan_i o a c); [reflexivity|apply IH].
Qed.

(** The output of a loop over two lists of options: the first list's,
    then, if the loop goes on, the second's. *)
Lemma parse_writes_app {Drv : Type} nm (reg : DriverRegistry (Drv:=Drv)) l1 l2 c :
  parse_writes scan_i nm reg (l1 ++ l2) c =
    parse_writes scan_i nm reg l1 c ++
    match parse_opts scan_i l1 c with Exit _ => [] | Go c1 => parse_writes scan_i nm reg l2 c1 end.
Proof.
  revert c. induction l1 as [|[o a] l1 IH]; intros c; [reflexivity|].
  cbn [app parse_writes parse_opts]. rewrite <- app_assoc.
  destruct (opt_step scan_i o a c); [reflexivity|]. now rewrite IH.
Qed.

(** A character outside the [switch] hits its [default]. *)
Lemma opt_case_unknown o a c :
  ~ In o ["h"; "v"; "V"; "t"; "s"; "D"; "M"; "p"; "T"; "o"]%char -> opt_case o a c = Stop 1.
Proof.
  intros Hn. unfold opt_case.
  repeat match goal with
  | |- context [Ascii.eqb o ?x] =>
      destruct (Ascii.eqb_spec o x) as [->|?]; [exfalso; apply Hn; cbn; tauto|]
  end; reflexivity.
Qed.

(** The driver name is the argument of the last [-D], or
    [DEFAULTDRVNAME] when there is none. *)
Lemma parse_last_driver items c c' :
  parse_opts scan_i items c = Go c' -> drvnam c' = last_arg "D" items (drvnam c).
Proof.
  revert c. induction items as [|[o a] items IH]; intros c; cbn [parse_opts].
  - intros [= <-]. reflexivity.
  - destruct (opt_step scan_i o a c) as [k|c1] eqn:E; [discriminate|].
    intros H. rewrite (IH c1 H). unfold last_arg. cbn [fold_left fst snd].
    rewrite (opt_step_drvnam o a c c1 E). destruct (o =? "D")%char; reflexivity.
Qed.

(** [-V] ends [main] with status 0 whatever options follow, once
    the options before it were accepted. *)
Lemma parse_version_exits pre a post c c1 :
  parse_opts scan_i pre c = Go c1 -> parse_opts scan_i (pre ++ ("V"%char, a) :: post) c = Exit 0.
Proof. intros H. rewrite parse_opts_app, H. reflexivity. Qed.

Lemma parse_port_keep items c c' :
  Forall (fun it => fst it <> "p"%char) items ->
  parse_opts scan_i items c = Go c' -> port c' = port c.
Proof.
  revert c. induction items as [|[o a] items IH]; intros c Hp; cbn [parse_opts].
  - intros [= <-]. reflexivity.
  - inversion Hp as [|? ? Ho Hr]; subst. cbn [fst] in Ho.
    destruct (opt_step scan_i o a c) as [k|c1] eqn:E; [discriminate|].
    intros H. rewrite (IH c1 Hr H), (opt_step_port o a c c1 E).
    destruct (Ascii.eqb_spec o "p"); [contradiction|reflexivity].
Qed.

(** C34: The port [XvcServer] binds is the number [-p] gave, reduced
    modulo [2^16]: it is not range-checked ([-p 68078] binds 2542). *)
Theorem server_port_wraps s n rest c c' :
  scan_i s = Some n -> Forall (fun it => fst it <> "p"%char) rest ->
  parse_opts scan_i (("p"%char, s) :: rest) c = Go c' -> server_port c' = n mod 2 ^ 16.
Proof.
  intros Hs Hr. cbn [parse_opts].
  destruct (opt_step scan_i "p" s c) as [k|c1] eqn:E; [discriminate|]. intros H.
  unfold server_port. rewrite (parse_port_keep rest c1 c' Hr H), (opt_step_port _ _ _ _ E), Hs.
  cbn [Ascii.eqb Bool.eqb andb]. unfold u32, wrap.
  apply Z.mod_mod_divide. exists (2 ^ 16). reflexivity.
Qed.

Lemma parse_help_keep items c c' :
  parse_opts scan_i items c = Go c' -> help c = true -> help c' = true.
Proof.
  revert c. induction items as [|[o a] items IH]; intros c; cbn [parse_opts].
  - intros [= <-]. auto.
  - destruct (opt_step scan_i o a c) as [k|c1] eqn:E; [discriminate|].
    intros H Hh. apply (IH c1 H). rewrite (opt_step_help o a c c1 E), Hh.
    now destruct (o =? "h")%char.
Qed.

Lemma parse_help items a c c' :
  In ("h"%char, a) items -> parse_opts scan_i items c = Go c' -> help c' = true.
Proof.
  revert c. induction items as [|[o b] items IH]; intros c Hin; [destruct Hin|]. cbn [parse_opts].
  destruct (opt_step scan_i o b c) as [k|c1] eqn:E; [discriminate|]. intros H.
  destruct Hin as [[= -> ->]|Hin]; [|exact (IH c1 Hin H)].
  apply (parse_help_keep items c1 c' H). now rewrite (opt_step_help _ _ _ _ E).
Qed.

(** With [-h] among the accepted options, [main] prints the help of
    the selected registered driver and ends with status 0, without
    creating a driver: a missing [-t] is no error then. *)
Lemma cli_help_usage {Drv : Type} dlopen items a (reg : DriverRegistry (Drv:=Drv)) c :
  In ("h"%char, a) items -> parse_opts scan_i items cli_init = Go c ->
  drvnam c <> "udpLoopback"%string -> has (Some (drvnam c)) reg = true ->
  cli_select scan_i dlopen items reg = inr (reg, Ret (SelUsage (usage (Some (drvnam c)) reg))).
Proof.
  intros Hin Hp Hn Hhas. unfold cli_select. rewrite Hp.
  rewrite (parse_help items a cli_init c Hin Hp). unfold select_driver.
  apply String.eqb_neq in Hn. now rewrite Hn, Hhas.
Qed.

End Facts.

(** The count of [-v] options is kept in an [unsigned]. *)
Lemma parse_repeat_v scan_i n a c :
  0 <= debug c < 2 ^ 32 ->
  parse_opts scan_i (repeat ("v"%char, a) n) c = Go (set_debug (u32 (debug c + Z.of_nat n)) c).
Proof.
  revert c. induction n as [|n IH]; intros c Hd; cbn [repeat parse_opts].
  - rewrite Z.add_0_r. unfold u32. rewrite wrap_small by exact Hd. now destruct c.
  - cbn. rewrite IH by (apply wrap_range; lia). cbn [debug set_debug].
    unfold u32, wrap. rewrite Zplus_mod_idemp_l, Zpos_P_of_succ_nat.
    replace (debug c + Z.succ (Z.of_nat n)) with (debug c + 1 + Z.of_nat n) by lia. reflexivity.
Qed.

(** C33: The [-v] count and the sniffer flag [-s] share [debug]: after
    [n] options [-v] the verbosity [getDebug] is [n mod 256] and bit 8
    of [n] turns the sniffer on; 256 [-v] give verbosity 0 and a
    sniffer. *)
Theorem verbosity_overflow scan_i n a b :
  Z.of_nat n < 2 ^ 32 ->
  exists c, parse_opts scan_i (repeat ("v"%char, a) n) cli_init = Go c /\
    getDebug (setDebug (debug c) b) = Z.of_nat n mod 256 /\
    getSniff (setDebug (debug c) b) = Z.testbit (Z.of_nat n) 8.
Proof.
  intros Hn. eexists. split; [apply parse_repeat_v; cbn; lia|].
  unfold getDebug, getSniff, setDebug. cbn [debug set_debug cli_init debug_]. rewrite Z.add_0_l.
  unfold u32. rewrite wrap_small by lia. split.
  - change 255 with (Z.ones 8). apply land_ones_mod. lia.
  - change 256 with (Z.shiftl (Z.ones 1) 8). rewrite land_field by lia.
    pose proof (Z.testbit_spec' (Z.of_nat n) 8 ltac:(lia)) as Hb.
    destruct (Z.testbit (Z.of_nat n) 8); cbn in Hb |- *; rewrite <- Hb; reflexivity.
Qed.

(** ** Witnesses, with a [sscanf] that reads the one number "68078" *)

Local Open Scope string_scope.

Definition scan_ex (s : string) : option Z :=
  if String.eqb s "68078" then Some 68078 else None.

Lemma parse_last_driver_witness :
  exists c', parse_opts scan_ex [("D"%char, "udp"); ("D"%char, "tmem"); ("v"%char, "")] cli_init = Go c' /\
    drvnam c' = last_arg "D" [("D"%char, "udp"); ("D"%char, "tmem"); ("v"%char, "")] (drvnam cli_init).
Proof. eexists. split; [reflexivity|]. apply (parse_last_driver scan_ex _ cli_init). reflexivity. Defined.

Lemma parse_version_exits_witness :
  parse_opts scan_ex ([("v"%char, "")] ++ ("V"%char, "") :: [("x"%char, "")]) cli_init = Exit 0.
Proof.
  apply (parse_version_exits scan_ex _ _ _ cli_init (set_debug (u32 (0 + 1)) cli_init)). reflexivity.
Defined.

(** 256 [-v]: verbosity 0 and the sniffer on. *)
Lemma verbosity_overflow_witness :
  exists c, parse_opts scan_ex (repeat ("v"%char, "") 256) cli_init = Go c /\
    getDebug (setDebug (debug c) (JtagDriver_new 0)) = 0 /\
    getSniff (setDebug (debug c) (JtagDriver_new 0)) = true.
Proof.
  destruct (verbosity_overflow scan_ex 256 "" (JtagDriver_new 0) ltac:(lia)) as (c & E & Hd & Hs).
  exists c. rewrite Hd, Hs. split; [exact E|split; reflexivity].
Defined.

(** [-p 68078] binds port 2542. *)
Lemma server_port_wraps_witness :
  exists c', parse_opts scan_ex [("p"%char, "68078")] cli_init = Go c' /\ server_port c' = 68078 mod 2 ^ 16.
Proof.
  assert (E : parse_opts scan_ex [("p"%char, "68078")] cli_init = Go (store IPort (u32 68078) cli_init))
    by reflexivity.
  eexists. split; [exact E|]. exact (server_port_wraps scan_ex "68078" 68078 [] _ _ eq_refl (Forall_nil _) E).
Defined.

(** [-h -D tmem] without [-t]: the help of "tmem", no error. *)
Lemma cli_help_usage_witness :
  cli_select scan_ex (fun _ => None) [("h"%char, ""); ("D"%char, "tmem")]
    [mkEntry "tmem" (Some (fun _ => Ret tt)) (Some ["-t <aspace>:<base_address>"%string]) true] =
  inr ([mkEntry "tmem" (Some (fun _ => Ret tt)) (Some ["-t <aspace>:<base_address>"%string]) true],
       Ret (SelUsage (usage (Some "tmem"%string)
         [mkEntry "tmem" (Some (fun _ => Ret tt)) (Some ["-t <aspace>:<base_address>"%string]) true]))).
Proof.
  apply (cli_help_usage scan_ex (fun _ => None) _ ""
           _ (set_drvnam "tmem" (set_flags false false true cli_init)));
    [left; reflexivity|reflexivity|discriminate|reflexivity].
Defined.

End Cli.
