(* ===== verification/Session.v ===== *)
(** * Bringing up a session over the TMEM FIFO transport

    The composition of the components.  [main] (src/xvcSrv/src/xvcSrv.cc
    lines 823-830) sets the debug level of the driver it created, calls
    its virtual [init] and, with [-T], sets the test mode; for the TMEM
    transport [init] is [JtagDriverTmemFifo::init]
    (src/xvcSrv/src/xvcDrvAxisTmem.cc lines 141-150): a FIFO [reset], the
    negotiation [JtagDriverAxisToJtag::init] and a check that the word
    size the target announced is the FIFO's.  After that the XVC
    connection ([XvcConn], not in the sources) calls [sendVectors] once
    per shift: [tmem_shift] follows one shift through the engine and the
    TMEM transport, from the vectors to the frame the firmware reads and
    from the firmware's reply to the TDO bytes returned. *)

From Stdlib Require Import ZArith String List Lia.
From S2P Require Import Prelude Header Period Transport Driver Negotiation TmemFifo Reformatter.
Import ListNotations Codec Period Jtag AxisToJtag Negotiation TmemFifo Reformatter.

Module Session.
Open Scope xvc_scope.
Open Scope Z_scope.

Local Abbreviation tstate := (state (T:=dev)).

(** The driver's base members, as [setDebug] and [setTestMode] change
    them, and its FIFO device, as [reset] changes it. *)
Definition set_base (b : JtagBase) (s : tstate) : tstate :=
  {| base := b; drv := drv s; wordSize_ := wordSize_ s;
     memDepth_ := memDepth_ s; retry_ := retry_ s; periodNs_ := periodNs_ s;
     bufSz_ := bufSz_ s; txBuf_ := txBuf_ s; hdBuf_ := hdBuf_ s; xid_ := xid_ s |}.

Definition set_drv (d : dev) (s : tstate) : tstate :=
  {| base := base s; drv := d; wordSize_ := wordSize_ s;
     memDepth_ := memDepth_ s; retry_ := retry_ s; periodNs_ := periodNs_ s;
     bufSz_ := bufSz_ s; txBuf_ := txBuf_ s; hdBuf_ := hdBuf_ s; xid_ := xid_ s |}.

Section WithRefFreq.
Variable R : Z.

(** [JtagDriverTmemFifo::init]. *)
Definition tmem_init : M (T:=dev) unit :=
  esm_modify (fun s => set_drv (TmemFifo.reset (drv s)) s) ;;
  init R ;;
  s <- esm_get ;;
  if negb (Z.of_nat (getWordSize s) =? wrdSiz_ (drv s))
  then esm_throw (RuntimeErr "ERROR: firmware misconfigured -- FIFO word size /= JTAG stream word size")
  else esm_ret tt.

(** Lines 823-830 of [main]: [setDebug], [init], then [setTestMode] if
    [-T] was given. *)
Definition bring_up (debug : Z) (setTest : bool) (testMode : Z) : M (T:=dev) unit :=
  esm_modify (fun s => set_base (setDebug debug (base s)) s) ;;
  tmem_init ;;
  if setTest then esm_modify (fun s => set_base (setTestMode testMode (base s)) s)
  else esm_ret tt.
End WithRefFreq.

(** ** Facts *)

Lemma wf_set_drv d s : wf s -> wf (set_drv d s).
Proof. unfold set_drv. simpl_state. tauto. Qed.

Lemma drop_check_off b : drEn_ b = false -> drop_check b = (b, false).
Proof. intros H. unfold drop_check. now rewrite H. Qed.

(** The header a firmware sends as its first reply word [bswap32 h],
    followed by [pad], reads back as [h]. *)
Lemma getHdr_reply h pad hd k :
  (1 <= k)%nat -> 0 <= h < 2 ^ 32 ->
  getHdr (firstn (4 * k) (stream_bytes (bswap32 h :: pad)) ++ hd) = h.
Proof.
  intros Hk Hh. unfold getHdr, getw32.
  change (bswap32 h :: pad) with ([bswap32 h] ++ pad). rewrite stream_bytes_app.
  change (stream_bytes [bswap32 h]) with (rev (le_bytes 4 (bswap32 h)) ++ []).
  rewrite app_nil_r, le_bytes_bswap32, rev_involutive.
  rewrite firstn_app, length_firstn, firstn_firstn, Nat.min_l by lia.
  replace (4 - Nat.min (4 * k) _)%nat with 0%nat by len_lia.
  rewrite firstn_O, app_nil_r. fold (getw32 (le_bytes 4 h ++ stream_bytes pad)).
  now apply getHdr_le_bytes.
Qed.

(** The query word through an idle TMEM FIFO: the firmware sees it as
    one frame [ws] and its first reply word is the header. *)
Lemma tmem_query_xfer (s : tstate) k :
  wf s -> host_le (drv s) = true -> wrdSiz_ (drv s) = 4 -> outq (drv s) = [] -> inq (drv s) = [] ->
  drEn_ (base s) = false -> wordSize_ s = (4 * k)%nat ->
  exists ws, stream_bytes ws = le_bytes 4 mkQuery ++ repeat 0 (wordSize_ s - 4) /\
  forall h pad, fw (drv s) ws = (bswap32 h, pad) -> length pad = (k - 1)%nat -> 0 <= h < 2 ^ 32 ->
    let r := xfer (base s) (drv s) (firstn (getWordSize s) (query_tx s)) (hdBuf_ s) (getWordSize s) [] 0 in
    xr_out r = Ret 0 /\ getHdr (xr_hd r) = h /\
    xr_drv r = set_queues [] (frames (drv s) ++ [ws]) [] (drv s).
Proof.
  intros Hwf Hle Hw Ho Hi Hd Hk.
  pose proof Hwf as (Hws & Hhd & _).
  pose proof (firstn_query_tx s Hwf) as Etx.
  assert (Htx : Forall byte_ok (le_bytes 4 mkQuery ++ repeat 0 (wordSize_ s - 4))) by auto with xvc.
  assert (Hl : length (le_bytes 4 mkQuery ++ repeat 0 (wordSize_ s - 4)) = wordSize_ s)
    by len_lia.
  rewrite Etx. unfold getWordSize. rewrite Hk. cbn [xfer Tmem_transport].
  rewrite Hk in Hl, Htx.
  destruct (tmem_xfer_correct (base s) (drv s) _ (hdBuf_ s) k [] 0 Hle Hw Ho Hi Htx
              ltac:(lia) ltac:(lia) ltac:(unfold hdBufMax in *; lia)) as (ws & Hs & Hx).
  exists ws. split.
  { rewrite Hs, Hl, Nat.mul_comm, Nat.Div0.mod_mul. apply app_nil_r. }
  intros h pad Hf Hp Hh.
  destruct (Hx _ _ Hf) as (Hdrv & Hhd' & _ & _ & Hout); cbn [length]; try lia.
  rewrite Hout, drop_check_off by exact Hd. cbn [snd].
  replace (Nat.min _ 0) with 0%nat by lia.
  split; [reflexivity|split; [|exact Hdrv]].
  rewrite Hhd'. apply getHdr_reply; lia.
Qed.

(** C22: [JtagDriverTmemFifo::init] over an idle little-endian FIFO
    whose firmware answers the query frame with a valid reply header
    (padded to the current word size): the FIFO is reset, the query is
    sent as one frame, the negotiated members are the reply's, the
    invariant [wf] holds, the receive FIFO is left empty, and [init]
    succeeds exactly when the announced word size is the FIFO's 4 bytes,
    otherwise it throws with the wrong word size already stored. *)
Theorem tmem_init_negotiates R (s : tstate) k :
  wf s -> host_le (drv s) = true -> wrdSiz_ (drv s) = 4 ->
  drEn_ (base s) = false -> wordSize_ s = (4 * k)%nat ->
  exists ws, stream_bytes ws = le_bytes 4 mkQuery ++ repeat 0 (wordSize_ s - 4) /\
  forall h pad, fw (drv s) ws = (bswap32 h, pad) -> length pad = (k - 1)%nat ->
    0 <= h < 2 ^ 32 -> getErr h = 0 -> (4 <= Z.to_nat (wordSize h))%nat ->
    let wsz := Z.to_nat (wordSize h) in
    exists s', tmem_init R s =
      (s', if (wsz =? 4)%nat then Ret tt
           else Throw (RuntimeErr "ERROR: firmware misconfigured -- FIFO word size /= JTAG stream word size")) /\
    wordSize_ s' = wsz /\ memDepth_ s' = Z.to_nat (memDepth h) /\ periodNs_ s' = cvtPerNs R h /\
    wf s' /\ drv s' = set_queues [] (frames (drv s) ++ [ws]) [] (drv s).
Proof.
  intros Hwf Hle Hw Hd Hk.
  set (s0 := set_drv (TmemFifo.reset (drv s)) s).
  destruct (tmem_query_xfer s0 k (wf_set_drv _ s Hwf) Hle Hw eq_refl eq_refl Hd Hk) as (ws & Hs & Hx).
  exists ws. split; [exact Hs|]. intros h pad Hf Hp Hh He Hws wsz.
  destruct (Hx h pad Hf Hp Hh) as (Ho & Hhd & Hdrv).
  destruct (query_first_ok R s0 _ 0 h (wf_set_drv _ s Hwf) eq_refl Ho Hhd He Hws)
    as (s' & Eq & Hw' & Hm' & Hp' & _ & _ & Hwf' & _ & Hdrv').
  exists s'. unfold tmem_init, init, esm_bind, esm_modify, esm_get. fold s0. rewrite Eq.
  assert (Hc : wrdSiz_ (drv s') = 4) by (rewrite Hdrv', Hdrv; exact Hw).
  refine (conj _ (conj Hw' (conj Hm' (conj Hp' (conj Hwf' _)))));
    [|rewrite Hdrv', Hdrv; reflexivity].
  cbn [esm_ret]. rewrite Hc. unfold getWordSize. rewrite Hw'.
  unfold wsz. destruct (Nat.eqb_spec (Z.to_nat (wordSize h)) 4) as [E4|Hne].
  - rewrite E4. reflexivity.
  - destruct (Z.eqb_spec (Z.of_nat (Z.to_nat (wordSize h))) 4); [lia|reflexivity].
Qed.

(** C23: a shift over the TMEM FIFO, end to end.  On an idle
    little-endian FIFO of 4-byte words, with a negotiated word size of 4
    and a vector the target's memory holds, [sendVectors] writes the
    request to the FIFO as one frame [ws]: the firmware reads from it a
    shift of [bits] bits with the fresh id and both vectors in the
    word-interleaved layout.  When the firmware answers with an
    error-free header carrying that id and enough payload words, the TDO
    bytes [sendVectors] returns are the first [bytesCeil] bytes of the
    payload, in stream order, over the caller's buffer; the frame is
    the only one sent and the receive FIFO is left empty. *)
Theorem tmem_shift (s : tstate) bits tms tdi tdo :
  wf s -> host_le (drv s) = true -> wrdSiz_ (drv s) = 4 -> outq (drv s) = [] -> inq (drv s) = [] ->
  drEn_ (base s) = false -> wordSize_ s = 4%nat -> 1 <= bits <= 2 ^ 20 ->
  Forall byte_ok tms -> Forall byte_ok tdi -> Forall byte_ok (txBuf_ s) ->
  let n := Z.to_nat (bytesCeil bits) in
  (n <= memDepth_ s * 4)%nat -> (n <= length tms)%nat -> (n <= length tdi)%nat -> (n <= length tdo)%nat ->
  exists ws,
    getLen (getHdr (stream_bytes ws)) = Ret bits /\
    getXid (getHdr (stream_bytes ws)) = fst (newXid (xid_ s)) /\
    unpack 4 0 (skipn 4 (stream_bytes ws)) n = firstn n tms /\
    unpack 4 4 (skipn 4 (stream_bytes ws)) n = firstn n tdi /\
    forall h pad, fw (drv s) ws = (bswap32 h, pad) ->
      0 <= h < 2 ^ 32 -> getErr h = 0 -> getXid h = fst (newXid (xid_ s)) ->
      (n <= 4 * length pad)%nat -> 4 * Z.of_nat (length pad) < 2 ^ 31 ->
      let '(s', o) := sendVectors bits tms tdi tdo s in
      o = Ret (firstn n (stream_bytes pad) ++ skipn n tdo) /\
      frames (drv s') = frames (drv s) ++ [ws] /\ inq (drv s') = [].
Proof.
  intros Hwf Hle Hw Ho Hi Hd Hws Hb Htm Htd Htx n Hfit Hm Hdi Hto.
  pose proof Hwf as (Hw4 & Hhd & Ht & Hbf & Hmx).
  destruct (sendVectors_formats s bits tms tdi Hwf Hb ltac:(rewrite Hws; exact Hfit) Hm Hdi)
    as (x' & h0 & buf & Em & Ef & Lf & Hgh & Hl & Hxi & Hany & Etot & Eu & Hbt & U1 & U2).
  fold n in Etot, Eu, Hbt, U1, U2. rewrite Hws in Etot, Hbt, U1, U2.
  assert (Hx' : fst (mkShift (xid_ s) (u32 bits)) = fst (newXid (xid_ s)))
    by (unfold mkShift; now destruct (newXid (xid_ s))).
  rewrite Em in Hx'. cbn [fst] in Hx'.
  set (tot := frame_bytes 4 n) in *. set (tx := firstn tot buf).
  assert (Htot : exists c, tot = (4 * c)%nat)
    by (unfold tot, frame_bytes; destruct (_ =? 0)%nat; [exists (1 + 2 * (n / 4))%nat|exists (3 + 2 * (n / 4))%nat]; lia).
  assert (Lt : length tx = tot) by (unfold tx; rewrite length_firstn; lia).
  assert (Bt : Forall byte_ok tx) by (apply Forall_firstn_Z, (fmtVectors_bytes _ _ _ _ _ _ _ Htm Htd Htx Ef)).
  assert (Hhx : getHdr tx = h0) by (unfold tx, tot, frame_bytes; rewrite getHdr_firstn by lia; exact Hgh).
  destruct (tmem_xfer_correct (base s) (drv s) tx (hdBuf_ s) 1 tdo n Hle Hw Ho Hi Bt
              ltac:(unfold frame_bytes in *; lia) ltac:(unfold frame_bytes in *; lia)
              ltac:(unfold hdBufMax in *; lia)) as (ws & Hs & Hx).
  assert (Ews : stream_bytes ws = tx).
  { rewrite Hs, Lt. destruct Htot as [c ->]. rewrite Nat.mul_comm, Nat.Div0.mod_mul. apply app_nil_r. }
  exists ws. rewrite Ews, Hhx. split; [exact Hl|]. split; [congruence|].
  unfold tx, tot. rewrite !unpack_request by lia. split; [exact U1|split; [exact U2|]].
  intros h pad Hf Hh He Hxh Hn Hpad.
  destruct (Hx (bswap32 h) pad Hf) as (Hdrv & Hhd2 & Hrx & _ & Hout); cbn [length]; try lia.
  change (4 * 1)%nat with 4%nat in *.
  replace (Nat.min (4 * (length (bswap32 h :: pad) - 1)) n) with n in Hrx by (cbn [length]; lia).
  rewrite (sendVectors_fst_ok s bits tms tdi tdo x' h0 buf Em Ef), Hws, Etot, Eu.
  rewrite xferRel_in_bounds by lia. fold tot tx. cbn [xferRel_loop].
  unfold getWordSize. cbn [xfer Tmem_transport base drv hdBuf_ wordSize_ set_txBuf set_xid]. rewrite Hws.
  rewrite Hout, drop_check_off by exact Hd. cbn [snd after_xfer hdBuf_].
  pose proof (getHdr_reply h pad (skipn 4 (hdBuf_ s)) 1 ltac:(lia) Hh) as Eh. change (4 * 1)%nat with 4%nat in Eh.
  rewrite Hhd2, Eh. rewrite He, Hgh, Hxi, Hx', <- Hxh, !Z.eqb_refl, Bool.orb_true_r.
  cbn [negb]. rewrite Hrx. cbn [after_xfer drv]. rewrite Hdrv. cbn [frames inq set_queues].
  replace (skipn 4 (stream_bytes (bswap32 h :: pad))) with (stream_bytes pad)
    by (symmetry; exact (skipn_stream_bytes 1 (bswap32 h :: pad))).
  split; [reflexivity|split; reflexivity].
Qed.

(** ** Witnesses: a little-endian FIFO whose firmware announces word
    size 4, depth 512 and an unknown period *)

Definition fifo_ex : dev :=
  {| host_le := true; wrdSiz_ := 4; maxVec_ := 2046;
     fw := fun _ => (bswap32 (3 + 512 * 16), []); outq := []; frames := []; inq := [] |}.

Definition state_ex : tstate := JtagDriverAxisToJtag_new 0 fifo_ex 0.

Lemma tmem_init_negotiates_witness :
  exists s', tmem_init 200000000 state_ex = (s', Ret tt) /\
    wordSize_ s' = 4%nat /\ memDepth_ s' = 512%nat /\ inq (drv s') = [].
Proof.
  destruct (tmem_init_negotiates 200000000 state_ex 1 ltac:(wf_concrete)
              eq_refl eq_refl eq_refl eq_refl) as (ws & _ & H).
  destruct (H (3 + 512 * 16) [] eq_refl eq_refl ltac:(concrete) ltac:(concrete) ltac:(concrete))
    as (s' & E & Hw & Hm & _ & _ & Hd).
  exists s'. split; [exact E|]. split; [exact Hw|]. split; [exact Hm|]. rewrite Hd. reflexivity.
Defined.

(** A firmware that answers a shift with id 1 and the payload word
    [0x05000000]: its first stream byte [5] is the TDO byte. *)
Definition fifo_shift : dev :=
  {| host_le := true; wrdSiz_ := 4; maxVec_ := 2046;
     fw := fun _ => (bswap32 (1 * 2 ^ 28 + 1 * 2 ^ 20), [5 * 2 ^ 24]); outq := []; frames := []; inq := [] |}.

Lemma tmem_shift_witness :
  snd (sendVectors 8 [1] [2] [0] (JtagDriverAxisToJtag_new 0 fifo_shift 0)) = Ret [5].
Proof.
  destruct (tmem_shift (JtagDriverAxisToJtag_new 0 fifo_shift 0) 8 [1] [2] [0] ltac:(wf_concrete)
              eq_refl eq_refl eq_refl eq_refl eq_refl eq_refl ltac:(lia)
              ltac:(repeat constructor; unfold byte_ok; lia) ltac:(repeat constructor; unfold byte_ok; lia)
              ltac:(apply byte_ok_repeat0) ltac:(concrete) ltac:(concrete) ltac:(concrete) ltac:(concrete))
    as (ws & _ & _ & _ & _ & H).
  specialize (H (1 * 2 ^ 28 + 1 * 2 ^ 20) [5 * 2 ^ 24] eq_refl ltac:(lia) eq_refl eq_refl
                ltac:(concrete) ltac:(cbn; lia)).
  destruct (sendVectors 8 [1] [2] [0] _) as [s' o]. destruct H as [-> _]. reflexivity.
Defined.

End Session.
