(* ===== verification/Main.v ===== *)
(** * [main]: from the command line to the server

    [main] (src/xvcSrv/src/xvcSrv.cc lines 696-839) parses the options
    (Cli.v), selects and creates a driver through the registry
    (Registry.v), brings the driver up ([setDebug], the virtual [init],
    [setTestMode]), dumps its parameters with [-v], creates the TCP
    server and runs it (Server.v).  The driver is reached through the
    virtual methods of [JtagDriver] only: the class [JtagDriverOps]
    states them, and [main]'s theorems hold for any driver; [tmem_ops]
    is the TMEM transport's instance (Session.v, Trace.v).  The
    registry's factories return a pointer, [None] for a null one.

    The output of [main] is modelled: that of the option loop
    ([Cli.parse_writes]), then that of [main_go], the rest of [main]:
    the report of a failed selection (the exception's text, [usage] and
    the driver's usage), the missing-driver message and [dumpInfo].  Exceptions that
    leave [main] (a failing [init], socket or server) end the process
    through [std::terminate]: the status [Aborted]. *)

From Stdlib Require Import ZArith String Ascii List Lia.
From S2P Require Import Prelude Header Transport Driver TmemFifo TmemCtor Registry Cli Server Trace Session.
Import ListNotations Jtag AxisToJtag TmemFifo TmemCtor Registry Cli Server Trace Session.

Module Main.
Open Scope Z_scope.

(** The virtual methods of [JtagDriver] that [main] calls. *)
Class JtagDriverOps (D : Type) : Type := {
  drv_setDebug : Z -> D -> D;
  drv_init : D -> D * outcome xvc_exn unit;
  drv_setTestMode : Z -> D -> D;
  drv_getDebug : D -> Z;
  drv_dumpInfo : D -> list (sink * string)
}.

(** The TMEM transport's methods: [setDebug] and [setTestMode] of the
    base, [JtagDriverTmemFifo::init] (Session.v), and [dumpInfo] on
    [stdout], the default stream of its declaration (xvcSrv.h). *)
Definition tmem_ops (R : Z) : JtagDriverOps (state (T:=dev)) := {|
  drv_setDebug := fun dbg s => set_base (setDebug dbg (base s)) s;
  drv_init := tmem_init R;
  drv_setTestMode := fun m s => set_base (setTestMode m (base s)) s;
  drv_getDebug := fun s => getDebug (base s);
  drv_dumpInfo := fun s => dumpInfo (Stream 1) s
|}.

(** How [main] ends. *)
Inductive status : Type :=
| Exited (code : Z)      (** [main] returns [code] *)
| Aborted (e : xvc_exn)  (** an exception leaves [main] *)
| Serving                (** the server still runs when the fuel is spent *)
| Loopback.              (** the built-in UDP driver and loopback thread (not in the sources) *)

(** A driver's usage helper prints its lines on [stdout]. *)
Definition helper_out (u : option Usage) : list (sink * string) :=
  match u with
  | Some ls => map (fun l => (stdout, l)) ls
  | None => []
  end.

Section Main.
Context {D : Type} {ops : JtagDriverOps D}.
Local Abbreviation Drv := (option D).


Variable scan_i : string -> option Z.
Variable dlopen : string -> option (DriverRegistry (Drv:=Drv)).
Variables (socket_ setsockopt_ret bind_ret listen_ret : Z).
Variables conn_new conn_run : nat -> outcome xvc_exn unit.

(** [drvnam] after the selection block: [0] once a module was loaded
    (lines 773-787). *)
Definition drvnam_after (drvnam : string) (reg : DriverRegistry (Drv:=Drv)) : option string :=
  if String.eqb drvnam "udpLoopback" then Some drvnam
  else if has (Some drvnam) reg then Some drvnam
  else match dlopen drvnam with Some _ => None | None => Some drvnam end.

(** Lines 822-838 with the created driver [d]: bring-up, [dumpInfo]
    when [getDebug() > 0], then the server. *)
Definition main_run (fuel : nat) (c : cli) (d : D) : list (sink * string) * status :=
  let d1 := drv_setDebug (debug c) d in
  match drv_init d1 with
  | (_, Throw e) => ([], Aborted e)
  | (d2, Ret _) =>
      let d3 := if setTest c then drv_setTestMode (testMode c) d2 else d2 in
      let out := if 0 <? drv_getDebug d3 then drv_dumpInfo d3 else [] in
      match snd (XvcServer_new socket_ setsockopt_ret bind_ret listen_ret (port c) (maxMsg c) (once c)) with
      | Throw e => (out, Aborted e)
      | Ret s =>
          let '(rout, r) := run conn_new conn_run fuel s in
          (out ++ rout,
           match r with None => Serving | Some (Ret _) => Exited 0 | Some (Throw e) => Aborted e end)
      end
  end.

(** Lines 769-839, once the options are parsed into [c]: the
    selection and what follows it. *)
Definition main_go (fuel : nat) (nm : string) (c : cli) (reg : DriverRegistry (Drv:=Drv))
    : list (sink * string) * status :=
  let '(reg1, r) := select_driver dlopen (drvnam c) (help c) (target c) reg in
  match r with
  | Throw MemFault => ([], Aborted MemFault)
  | Throw e =>
      ((Stderr, (what e ++ nl ++ nl)%string) :: main_usage nm reg1 ++
         helper_out (usage (drvnam_after (drvnam c) reg) reg1), Exited 1)
  | Ret SelUdpLoopback => ([], Loopback)
  | Ret SelUdpUsage => ([], Exited 0)
  | Ret (SelUsage u) => (helper_out u, Exited 0)
  | Ret (SelDriver None) => ([(Stderr, ("ERROR: No transport-driver found" ++ nl)%string)], Exited 1)
  | Ret (SelDriver (Some d)) => main_run fuel c d
  end.

(** [main(argc, argv)] (lines 696-839): [nm] is [argv[0]], [items] what
    [getopt] returns, [reg] the registry the static registrars built;
    the output of the option loop comes first. *)
Definition main (fuel : nat) (nm : string) (items : list (ascii * string))
    (reg : DriverRegistry (Drv:=Drv)) : list (sink * string) * status :=
  let pre := parse_writes scan_i nm reg items cli_init in
  match parse_opts scan_i items cli_init with
  | Exit code => (pre, Exited code)
  | Go c => let '(out, st) := main_go fuel nm c reg in (app pre out, st)
  end.
End Main.

(** A line of the usage that lists a driver. *)
Definition is_driver_line (l : string) : bool := String.prefix "                   '" l.

(** ** Facts *)

Section Facts.
Context {D : Type} {ops : JtagDriverOps D}.
Variable scan_i : string -> option Z.
Variable dlopen : string -> option (DriverRegistry (Drv:=option D)).
Variables (socket_ setsockopt_ret bind_ret listen_ret : Z).
Variables conn_new conn_run : nat -> outcome xvc_exn unit.

(** The selection creates the registered driver [d] when the options
    name a registered driver other than [udpLoopback] and ask no help. *)
Lemma select_registered drvnam target reg d :
  drvnam <> "udpLoopback"%string -> has (Some drvnam) reg = true ->
  create (Some drvnam) reg target = Ret (Some d) ->
  select_driver dlopen drvnam false target reg = (reg, Ret (SelDriver (Some d))).
Proof.
  intros Hu Hh Hc. unfold select_driver.
  destruct (String.eqb_spec drvnam "udpLoopback"); [contradiction|]. rewrite Hh, Hc. reflexivity.
Qed.

(** Once the options are parsed, [main] prints the option loop's
    output and goes on with [main_go]. *)
Lemma main_parsed fuel nm items reg c :
  parse_opts scan_i items cli_init = Go c ->
  main scan_i dlopen socket_ setsockopt_ret bind_ret listen_ret conn_new conn_run fuel nm items reg =
    (parse_writes scan_i nm reg items cli_init ++
       fst (main_go dlopen socket_ setsockopt_ret bind_ret listen_ret conn_new conn_run fuel nm c reg),
     snd (main_go dlopen socket_ setsockopt_ret bind_ret listen_ret conn_new conn_run fuel nm c reg)).
Proof. intros Hp. unfold main. rewrite Hp. now destruct (main_go _ _ _ _ _ _ _ _ _ _). Qed.

(** [main_go] reaches [main_run] with the created driver. *)
Lemma main_created fuel nm reg c d :
  help c = false -> drvnam c <> "udpLoopback"%string ->
  has (Some (drvnam c)) reg = true -> create (Some (drvnam c)) reg (target c) = Ret (Some d) ->
  main_go dlopen socket_ setsockopt_ret bind_ret listen_ret conn_new conn_run fuel nm c reg =
    main_run socket_ setsockopt_ret bind_ret listen_ret conn_new conn_run fuel c d.
Proof.
  intros Hh Hu Hr Hc. unfold main_go. rewrite Hh, (select_registered _ _ _ _ Hu Hr Hc). reflexivity.
Qed.

(** C29: [main] composes the components: once the options are accepted,
    a registered driver is created and its [init] succeeds and the
    socket is listening, [main] never returns without [-o] while every
    connection is accepted and ends normally or in a [SysErr] (still
    serving for any fuel), and with [-o] it returns 0 after the first
    connection. *)
Theorem main_serves fuel nm items reg c d d2 u :
  parse_opts scan_i items cli_init = Go c -> help c = false -> drvnam c <> "udpLoopback"%string ->
  has (Some (drvnam c)) reg = true -> create (Some (drvnam c)) reg (target c) = Ret (Some d) ->
  drv_init (drv_setDebug (debug c) d) = (d2, Ret u) ->
  0 <= socket_ -> setsockopt_ret = 0 -> bind_ret = 0 -> listen_ret = 0 ->
  (forall j, served conn_new conn_run j) ->
  snd (main scan_i dlopen socket_ setsockopt_ret bind_ret listen_ret conn_new conn_run fuel nm items reg) =
    if once c then match fuel with O => Serving | S _ => Exited 0 end else Serving.
Proof.
  intros Hp Hh Hu Hr Hc Hi Hs Hso Hb Hl Hsv.
  rewrite (main_parsed _ _ _ _ _ Hp), (main_created _ _ _ _ _ Hh Hu Hr Hc). cbn [snd].
  unfold main_run. rewrite Hi.
  pose proof (proj2 (XvcServer_new_ok socket_ setsockopt_ret bind_ret listen_ret (port c) (maxMsg c) (once c) _)
    (conj Hs (conj Hso (conj Hb (conj Hl eq_refl))))) as Hn.
  rewrite Hn. unfold run. cbn [once_].
  destruct (once c).
  - destruct fuel as [|f]; [reflexivity|].
    pose proof (run_loop_once conn_new conn_run f 0 (Hsv 0%nat)) as E.
    destruct (run_loop _ _ _ _ _) as [o r]. cbn [snd] in E |- *. now rewrite E.
  - now rewrite run_forever.
Qed.

(** C30: An exception of the driver's [init] is not caught by [main]:
    after a successful selection it leaves [main] (the process ends in
    [std::terminate]), with no output after the option loop's and
    before the server socket is created. *)
Theorem main_init_throws fuel nm items reg c d d2 e :
  parse_opts scan_i items cli_init = Go c -> help c = false -> drvnam c <> "udpLoopback"%string ->
  has (Some (drvnam c)) reg = true -> create (Some (drvnam c)) reg (target c) = Ret (Some d) ->
  drv_init (drv_setDebug (debug c) d) = (d2, Throw e) ->
  main scan_i dlopen socket_ setsockopt_ret bind_ret listen_ret conn_new conn_run fuel nm items reg =
    (parse_writes scan_i nm reg items cli_init, Aborted e).
Proof.
  intros Hp Hh Hu Hr Hc Hi.
  rewrite (main_parsed _ _ _ _ _ Hp), (main_created _ _ _ _ _ Hh Hu Hr Hc). unfold main_run.
  rewrite Hi. cbn [fst snd]. now rewrite app_nil_r.
Qed.

Lemma prefix_app p s : String.prefix p (p ++ s) = true.
Proof.
  induction p as [|a p IH]; cbn; [destruct s; reflexivity|].
  destruct (ascii_dec a a); [exact IH|contradiction].
Qed.

Lemma filter_driver_lines names :
  filter is_driver_line (map (fun n => driver_line n) names) = map driver_line names.
Proof.
  induction names as [|n names IH]; [reflexivity|]. cbn [map filter].
  unfold is_driver_line at 1, driver_line at 1. rewrite prefix_app. now rewrite IH.
Qed.

(** The name [find] does not know selects no usage helper. *)
Lemma usage_unregistered nm (reg : DriverRegistry (Drv:=option D)) :
  nm <> EmptyString -> has (Some nm) reg = false -> usage (Some nm) reg = None.
Proof.
  unfold has, usage. intros _. destruct (find (Some nm) reg); [discriminate|reflexivity].
Qed.

(** C31: a driver name that is neither registered nor loadable ends
    [main] with status 1 after the report: the [dlopen] error, then
    [main]'s usage and nothing else (no driver's usage helper runs and
    no driver is created); the usage's driver lines are exactly the
    registered drivers in registration order and then [udpLoopback]. *)
Theorem main_load_failure fuel nm items reg c :
  parse_opts scan_i items cli_init = Go c -> drvnam c <> "udpLoopback"%string -> drvnam c <> EmptyString ->
  has (Some (drvnam c)) reg = false -> dlopen (drvnam c) = None ->
  main scan_i dlopen socket_ setsockopt_ret bind_ret listen_ret conn_new conn_run fuel nm items reg =
    (parse_writes scan_i nm reg items cli_init ++
       (Stderr, ("Unable to load requested driver: <dlerror>" ++ nl ++ nl)%string) :: main_usage nm reg,
     Exited 1) /\
  filter is_driver_line (map snd (main_usage nm reg)) =
    map driver_line (registeredNames reg ++ ["udpLoopback"%string]).
Proof.
  intros Hp Hu He Hr Hd. split.
  - rewrite (main_parsed _ _ _ _ _ Hp). unfold main_go, select_driver.
    destruct (String.eqb_spec (drvnam c) "udpLoopback"); [contradiction|]. rewrite Hr, Hd. cbn [what].
    unfold drvnam_after. destruct (String.eqb_spec (drvnam c) "udpLoopback"); [contradiction|].
    rewrite Hr, Hd, usage_unregistered by assumption. cbn [helper_out fst snd]. now rewrite app_nil_r.
  - unfold main_usage. rewrite !map_app, !filter_app, map_map, filter_driver_lines. reflexivity.
Qed.

(** C32: an option outside the [switch] ends [main] with status 1: after
    what the options before it printed, the complaint naming it is the
    last thing [main] prints, and no later option is looked at. *)
Theorem main_unknown_option fuel nm pre o a post reg c :
  parse_opts scan_i pre cli_init = Go c ->
  ~ In o ["h"; "v"; "V"; "t"; "s"; "D"; "M"; "p"; "T"; "o"]%char ->
  main scan_i dlopen socket_ setsockopt_ret bind_ret listen_ret conn_new conn_run fuel nm (pre ++ (o, a) :: post) reg =
    (parse_writes scan_i nm reg pre cli_init ++
       [(Stderr, ("Unknown option '-" ++ String o EmptyString ++ "'" ++ nl)%string)], Exited 1).
Proof.
  intros Hp Hn. unfold main. rewrite parse_writes_app, parse_opts_app, Hp.
  cbn [parse_writes parse_opts]. unfold opt_writes, opt_step. rewrite (opt_case_unknown scan_i o a c Hn).
  cbn. now rewrite ?app_nil_r.
Qed.

(** [main]'s bring-up of a TMEM driver is [Session.bring_up]: the
    session theorems apply to the driver [main] serves with. *)
Lemma tmem_main_bring_up R dbg st m (s : state (T:=dev)) :
  bring_up R dbg st m s =
    match drv_init (JtagDriverOps:=tmem_ops R) (drv_setDebug (JtagDriverOps:=tmem_ops R) dbg s) with
    | (d2, Ret _) => (if st then drv_setTestMode (JtagDriverOps:=tmem_ops R) m d2 else d2, Ret tt)
    | (d2, Throw e) => (d2, Throw e)
    end.
Proof.
  unfold bring_up, esm_bind, esm_modify, esm_ret. cbn [drv_init drv_setDebug drv_setTestMode tmem_ops].
  destruct (tmem_init R _) as [d2 [[]|e]]; [destruct st|]; reflexivity.
Qed.
End Facts.

(** ** Witnesses: [xvcSrv -D tmem -t USER2:0x200000 -o] over the FIFO
    of Session.v, a 200 MHz reference clock *)

Definition opts_ex : list (ascii * string) :=
  [("D"%char, "tmem"%string); ("t"%char, "USER2:0x200000"%string); ("o"%char, EmptyString)].

Definition reg_ex (s : state (T:=dev)) : DriverRegistry (Drv:=option (state (T:=dev))) :=
  [mkEntry "tmem" (Some (fun _ => Ret (Some s))) (Some tmem_usage) true].

(** A firmware announcing a word size of 8 to a 4-byte FIFO. *)
Definition fifo8 : dev :=
  {| host_le := true; wrdSiz_ := 4; maxVec_ := 2046;
     fw := fun _ => (bswap32 (7 + 512 * 16), []); outq := []; frames := []; inq := [] |}.

Lemma main_serves_witness :
  snd (main (ops:=tmem_ops 200000000) (fun _ => None) (fun _ => None) 3 0 0 0
         (fun _ => Ret tt) (fun _ => Ret tt) 5 "xvcSrv" opts_ex (reg_ex state_ex)) = Exited 0.
Proof.
  exact (main_serves (ops:=tmem_ops 200000000) (fun _ => None) (fun _ => None) 3 0 0 0
    (fun _ => Ret tt) (fun _ => Ret tt) 5 "xvcSrv" opts_ex (reg_ex state_ex) _ state_ex
    (fst (tmem_init 200000000 (set_base (setDebug 0 (base state_ex)) state_ex))) tt
    eq_refl eq_refl ltac:(discriminate) eq_refl eq_refl ltac:(vm_compute; reflexivity)
    ltac:(lia) eq_refl eq_refl eq_refl (fun j => conj eq_refl I)).
Defined.

Lemma main_init_throws_witness :
  main (ops:=tmem_ops 200000000) (fun _ => None) (fun _ => None) 3 0 0 0
    (fun _ => Ret tt) (fun _ => Ret tt) 5 "xvcSrv" opts_ex (reg_ex (JtagDriverAxisToJtag_new 0 fifo8 0)) =
  ([], Aborted (RuntimeErr "ERROR: firmware misconfigured -- FIFO word size /= JTAG stream word size")).
Proof.
  exact (main_init_throws (ops:=tmem_ops 200000000) (fun _ => None) (fun _ => None) 3 0 0 0
    (fun _ => Ret tt) (fun _ => Ret tt) 5 "xvcSrv" opts_ex (reg_ex (JtagDriverAxisToJtag_new 0 fifo8 0)) _
    (JtagDriverAxisToJtag_new 0 fifo8 0)
    (fst (tmem_init 200000000 (set_base (setDebug 0 (base (JtagDriverAxisToJtag_new 0 fifo8 0)))
                                  (JtagDriverAxisToJtag_new 0 fifo8 0))))
    _ eq_refl eq_refl ltac:(discriminate) eq_refl eq_refl ltac:(vm_compute; reflexivity)).
Defined.

(** [-D libxvc.so] names no registered driver, and the module cannot be loaded. *)
Lemma main_load_failure_witness :
  main (ops:=tmem_ops 200000000) (fun _ => None) (fun _ => None) 3 0 0 0
    (fun _ => Ret tt) (fun _ => Ret tt) 5 "xvcSrv" [("D"%char, "libxvc.so"%string)] (reg_ex state_ex) =
    ((Stderr, ("Unable to load requested driver: <dlerror>" ++ nl ++ nl)%string) :: main_usage "xvcSrv" (reg_ex state_ex),
     Exited 1) /\
  filter is_driver_line (map snd (main_usage "xvcSrv" (reg_ex state_ex))) =
    map driver_line ["tmem"%string; "udpLoopback"%string].
Proof.
  exact (main_load_failure (ops:=tmem_ops 200000000) (fun _ => None) (fun _ => None) 3 0 0 0
    (fun _ => Ret tt) (fun _ => Ret tt) 5 "xvcSrv" [("D"%char, "libxvc.so"%string)] (reg_ex state_ex) _
    eq_refl ltac:(discriminate) ltac:(discriminate) eq_refl eq_refl).
Defined.

(** [xvcSrv -v -x -D tmem]: [-x] is no option of [main]. *)
Lemma main_unknown_option_witness :
  main (ops:=tmem_ops 200000000) (fun _ => None) (fun _ => None) 3 0 0 0
    (fun _ => Ret tt) (fun _ => Ret tt) 5 "xvcSrv"
    ([("v"%char, EmptyString)] ++ ("x"%char, EmptyString) :: [("D"%char, "tmem"%string)]) (reg_ex state_ex) =
  ([(Stderr, ("Unknown option '-x'" ++ nl)%string)], Exited 1).
Proof.
  exact (main_unknown_option (ops:=tmem_ops 200000000) (fun _ => None) (fun _ => None) 3 0 0 0
    (fun _ => Ret tt) (fun _ => Ret tt) 5 "xvcSrv" [("v"%char, EmptyString)] "x"%char EmptyString [("D"%char, "tmem"%string)]
    (reg_ex state_ex) _ eq_refl ltac:(cbn; intuition discriminate)).
Defined.

End Main.
